(** * GitMCP (GitLab fork): rate-governed API client and documentation cascade

    A shallow embedding of [src/api/utils/gitlabClient.ts] (the rate tracker,
    the governed HTTP client and the search helpers),
    [src/api/utils/gitlab.ts], [src/api/utils/r2.ts], the tools of
    [src/api/tools/commonTools.ts] ([fetchDocumentation], the documentation
    and code searches, [fetchUrlContent], the tool names) and [getRepoData]
    of [src/shared/repoData.ts].

    Asynchronous TypeScript code is written in a state-and-exception monad
    over a [World] that holds the clock, the module-level [apiRateLimit]
    object, the content cache and a chronological trace of the effects that
    left the process (timers, outbound fetches, queue sends, cache writes).
    Everything the worker cannot control (the network, the bindings of the
    Cloudflare environment, JavaScript built-ins that are not re-implemented
    here) is an explicit oracle. *)

From Stdlib Require Import ZArith String Ascii List Bool Lia Permutation.
From stdpp Require Import base option list gmap strings pretty.

Local Open Scope string_scope.
Local Open Scope Z_scope.

(** ** JavaScript values used by the code *)

(** A JavaScript number as the client uses it: an integer or [NaN].  Doubles
    are exact on integers of magnitude below 2^53, which covers quotas,
    epoch milliseconds and delays. *)
Inductive JNum : Type :=
| NaN
| Num (z : Z).

Definition jnum_lt (a b : JNum) : bool :=
  match a, b with
  | Num x, Num y => x <? y
  | _, _ => false
  end.

Definition jnum_gt (a b : JNum) : bool := jnum_lt b a.

Definition jnum_add (a b : JNum) : JNum :=
  match a, b with
  | Num x, Num y => Num (x + y)
  | _, _ => NaN
  end.

Definition jnum_sub (a b : JNum) : JNum :=
  match a, b with
  | Num x, Num y => Num (x - y)
  | _, _ => NaN
  end.

Definition jnum_mul (a b : JNum) : JNum :=
  match a, b with
  | Num x, Num y => Num (x * y)
  | _, _ => NaN
  end.

(** [Math.min] and [Math.max] return [NaN] as soon as one argument is. *)
Definition Math_min (a b : JNum) : JNum :=
  match a, b with
  | Num x, Num y => Num (Z.min x y)
  | _, _ => NaN
  end.

Definition Math_max (a b : JNum) : JNum :=
  match a, b with
  | Num x, Num y => Num (Z.max x y)
  | _, _ => NaN
  end.

(** Truthiness of a string, and of a [string | null | undefined]. *)
Definition truthy (s : string) : bool :=
  match s with
  | EmptyString => false
  | String _ _ => true
  end.

Definition truthy_opt (o : option string) : bool :=
  match o with
  | Some s => truthy s
  | None => false
  end.

(** [a || b] on [string | undefined]. *)
Definition js_or (a b : option string) : option string :=
  if truthy_opt a then a else b.

(** A value interpolated in a template literal. *)
Definition template (o : option string) : string :=
  match o with
  | Some s => s
  | None => "undefined"
  end.

(** *** [parseInt(s, 10)] *)

Definition is_js_space (c : ascii) : bool :=
  let n := nat_of_ascii c in
  ((n =? 32) || (n =? 9) || (n =? 10) || (n =? 11) || (n =? 12) || (n =? 13))%nat.

Definition digit_of (c : ascii) : option Z :=
  let n := Z.of_nat (nat_of_ascii c) in
  if (48 <=? n) && (n <=? 57) then Some (n - 48) else None.

Fixpoint skip_spaces (s : string) : string :=
  match s with
  | String c rest => if is_js_space c then skip_spaces rest else s
  | EmptyString => s
  end.

(** The longest prefix of decimal digits, accumulated left to right; [None]
    when the prefix is empty. *)
Fixpoint read_digits (acc : option Z) (s : string) : option Z :=
  match s with
  | String c rest =>
      match digit_of c with
      | Some d => read_digits (Some (10 * default 0 acc + d)) rest
      | None => acc
      end
  | EmptyString => acc
  end.

Definition parseInt (s : string) : JNum :=
  let s := skip_spaces s in
  let '(neg, s) :=
    match s with
    | String "-" rest => (true, rest)
    | String "+" rest => (false, rest)
    | _ => (false, s)
    end in
  match read_digits None s with
  | Some n => Num (if neg : bool then - n else n)
  | None => NaN
  end.

(** *** [Date] *)

(** A [Date] is its time value in milliseconds, or [NaN] for an invalid
    date.  [new Date(v)] clips to the representable range. *)
Definition Date_of (v : JNum) : JNum :=
  match v with
  | Num z => if Z.abs z <=? 8640000000000000 then Num z else NaN
  | NaN => NaN
  end.

(** *** Strings *)

(** [s.split("/").pop()]: the part of [s] after its last slash. *)
Fixpoint last_segment_from (cur : string) (s : string) : string :=
  match s with
  | String c rest =>
      if Ascii.eqb c "/" then last_segment_from "" rest
      else last_segment_from (cur +:+ String c "") rest
  | EmptyString => cur
  end.

Definition split_pop (s : string) : string := last_segment_from "" s.

Fixpoint is_prefix (p s : string) : bool :=
  match p, s with
  | EmptyString, _ => true
  | String a p', String b s' => Ascii.eqb a b && is_prefix p' s'
  | String _ _, EmptyString => false
  end.

Fixpoint drop_chars (n : nat) (s : string) : string :=
  match n, s with
  | O, _ => s
  | S n', String _ s' => drop_chars n' s'
  | S _, EmptyString => s
  end.

(** [s.replace(pat, rep)] with a string pattern: the first occurrence only. *)
Fixpoint replace_first (pat rep s : string) : string :=
  if is_prefix pat s then rep +:+ drop_chars (String.length pat) s
  else match s with
       | String c s' => String c (replace_first pat rep s')
       | EmptyString => s
       end.

(** Does the string contain a slash. *)
Fixpoint has_slash (s : string) : bool :=
  match s with
  | String c rest => Ascii.eqb c "/" || has_slash rest
  | EmptyString => false
  end.

(** *** HTTP headers *)

(** A [Headers] object, seen through [get] and [set].  Names are compared
    as written: the headers of a response are taken in the lower-case form
    in which [Headers] stores them, and a name occurs once. *)
Definition Headers : Type := list (string * string).

Fixpoint headers_get (h : Headers) (name : string) : option string :=
  match h with
  | (k, v) :: rest => if String.eqb k name then Some v else headers_get rest name
  | [] => None
  end.

Definition headers_set (h : Headers) (name value : string) : Headers :=
  (filter (fun kv => negb (String.eqb (fst kv) name)) h ++ [(name, value)])%list.

(** ** Rate tracker ([gitlabClient.ts]) *)

Definition DEFAULT_DELAY : Z := 1000.
Definition MAX_RETRIES : nat := 3.

Record RateLimitInfo : Type := mkRateLimitInfo {
  remaining : JNum;
  resetTime : option JNum;   (* [Date | null]; the date as its time value *)
  limit : JNum
}.

(** The initial module-level object. *)
Definition apiRateLimit_init : RateLimitInfo :=
  {| remaining := Num 2000; resetTime := None; limit := Num 2000 |}.

(** [updateRateLimitFromHeaders], as a function of the object it mutates. *)
Definition updateRateLimitFromHeaders (headers : Headers) (rl : RateLimitInfo)
  : RateLimitInfo :=
  let remaining_h := headers_get headers "ratelimit-remaining" in
  let resetTime_h := headers_get headers "ratelimit-reset" in
  let limit_h := headers_get headers "ratelimit-limit" in
  let rl :=
    if truthy_opt remaining_h
    then {| remaining := parseInt (default "" remaining_h);
            resetTime := resetTime rl; limit := limit rl |}
    else rl in
  let rl :=
    if truthy_opt resetTime_h
    then {| remaining := remaining rl;
            resetTime := Some (Date_of (jnum_mul (parseInt (default "" resetTime_h)) (Num 1000)));
            limit := limit rl |}
    else rl in
  let rl :=
    if truthy_opt limit_h
    then {| remaining := remaining rl; resetTime := resetTime rl;
            limit := parseInt (default "" limit_h) |}
    else rl in
  rl.

(** ** HTTP objects *)

(** [RequestInit]: the fields the callers set. *)
Record RequestInit : Type := mkRequestInit {
  ri_method : option string;
  ri_headers : option Headers
}.

(** The empty options object. *)
Definition no_options : RequestInit := {| ri_method := None; ri_headers := None |}.

(** What [fetch] receives: [{...options, headers, credentials, cf}] (the
    last two are constants). *)
Record Request : Type := mkRequest {
  req_url : string;
  req_method : option string;
  req_headers : Headers
}.

(** One hit of the blob search, with the fields the client reads. *)
Record SearchItem : Type := mkSearchItem {
  item_filename : option string;
  item_path : option string;
  item_project_id : option Z;
  item_ref : option string
}.

(** The value [response.json()] resolves to. *)
Inductive Json : Type :=
| JItems (items : list SearchItem)          (* an array of search hits *)
| JProject (default_branch : option string) (* the project object *)
| JOther.                                   (* null, a number, a string *)

Record Response : Type := mkResponse {
  status : Z;
  statusText : string;
  resp_headers : Headers;
  body : option string;        (* what [text()] resolves to; [None]: it rejects *)
  json : option Json           (* [None]: [json()] rejects *)
}.

Definition ok (r : Response) : bool := (200 <=? status r) && (status r <=? 299).

(** A [fetch] either rejects (no response at all) or resolves. *)
Inductive FetchOutcome : Type :=
| NetworkError (message : string)
| Responded (response : Response).

(** ** Results of the resolver *)

Record TextContent : Type := mkTextContent {
  type_ : string;
  text : string
}.

Record FetchDocumentationResult : Type := mkFetchDocumentationResult {
  fileUsed : string;
  content : list TextContent
}.

Record CacheEntry : Type := mkCacheEntry {
  value : FetchDocumentationResult;
  expiresAt : Z
}.

(** The message sent to the queue. *)
Record QueueMessage : Type := mkQueueMessage {
  msg_namespace : string;
  msg_project : string;
  msg_repo_url : string;
  msg_file_url : string;
  msg_content_length : option nat;
  msg_file_used : string;
  msg_docs_branch : string
}.

(** ** The world *)

(** Effects that leave the process, in the order they happen. *)
Inductive Event : Type :=
| EvSleep (ms : JNum)
| EvFetch (req : Request)
| EvAnalytics (index : string) (blobs : list string) (doubles : list Z)
| EvR2Get (key : string)
| EvRobotsFetch (url : string)
| EvQueueSend (msg : QueueMessage)
| EvPathCachePut (namespace project filename filePath branch : string)
| EvContentCachePut (namespace project : string)
    (result : FetchDocumentationResult) (ttl : Z).

Record World : Type := mkWorld {
  now : Z;                                        (* [Date.now()] *)
  apiRateLimit : RateLimitInfo;                   (* the module-level object *)
  fetches : nat;                                  (* outbound fetches so far *)
  contentCache : gmap (string * string) CacheEntry;
  trace : list Event
}.

Definition set_now (t : Z) (w : World) : World :=
  {| now := t; apiRateLimit := apiRateLimit w; fetches := fetches w;
     contentCache := contentCache w; trace := trace w |}.

Definition set_apiRateLimit (rl : RateLimitInfo) (w : World) : World :=
  {| now := now w; apiRateLimit := rl; fetches := fetches w;
     contentCache := contentCache w; trace := trace w |}.

Definition set_fetches (n : nat) (w : World) : World :=
  {| now := now w; apiRateLimit := apiRateLimit w; fetches := n;
     contentCache := contentCache w; trace := trace w |}.

Definition set_contentCache (c : gmap (string * string) CacheEntry) (w : World)
  : World :=
  {| now := now w; apiRateLimit := apiRateLimit w; fetches := fetches w;
     contentCache := c; trace := trace w |}.

Definition log_event (e : Event) (w : World) : World :=
  {| now := now w; apiRateLimit := apiRateLimit w; fetches := fetches w;
     contentCache := contentCache w; trace := (trace w ++ [e])%list |}.

(** ** The environment *)

Inductive R2Outcome : Type :=
| R2Throws
| R2Missing
| R2Object (body_text : string).

(** The bindings of [CloudflareEnvironment] that the code reads. *)
Record CloudflareEnvironment : Type := mkEnv {
  GITLAB_TOKEN : option string;
  GITLAB_API_BASE_URL : option string;
  CLOUDFLARE_ANALYTICS : bool;            (* is the binding there *)
  MY_QUEUE : option bool;                 (* the binding; does [send] resolve *)
  DOCS_BUCKET : option (string -> R2Outcome)
}.

Record RobotsResult : Type := mkRobotsResult {
  robots_content : option string;
  blockedByRobots : bool
}.

Record CachedPath : Type := mkCachedPath {
  cp_path : string;
  cp_branch : string
}.

(** What the worker does not decide: the network, and the functions that are
    JavaScript built-ins, a dependency, or modules outside this core
    ([robotsTxt.ts], the path half of [cache.ts]).
    [extractRepoContextFromUrl] only labels analytics points; its regular
    expressions are not re-implemented. *)
Record Platform : Type := mkPlatform {
  network : nat -> Request -> FetchOutcome;   (* the k-th outbound fetch *)
  latency : nat -> nat;                       (* how long it takes, in ms *)
  encodeURIComponent : string -> string;
  extractRepoContextFromUrl : string -> string;
  htmlToMd : string -> option string;         (* [None]: it throws *)
  fetchFileWithRobotsTxtCheck : string -> option RobotsResult; (* [None]: it rejects *)
  getCachedFilePath : string -> string -> World -> option CachedPath;
  Headers_accepts : Headers -> bool;          (* [false]: [new Headers(init)] throws *)
  String_trim : string -> string              (* [s.trim()] *)
}.

(** ** The monad of asynchronous code *)

Inductive Res (A : Type) : Type :=
| Ok (a : A)
| Throw (error : string).
Arguments Ok {A} a.
Arguments Throw {A} error.

Definition M (A : Type) : Type := World -> Res A * World.

Definition ret {A} (a : A) : M A := fun w => (Ok a, w).

Definition bind {A B} (m : M A) (k : A -> M B) : M B :=
  fun w =>
    match m w with
    | (Ok a, w') => k a w'
    | (Throw e, w') => (Throw e, w')
    end.

Definition throw {A} (e : string) : M A := fun w => (Throw e, w).

(** [try { m } catch (error) { h error }] *)
Definition try_catch {A} (m : M A) (h : string -> M A) : M A :=
  fun w =>
    match m w with
    | (Ok a, w') => (Ok a, w')
    | (Throw e, w') => h e w'
    end.

Declare Scope js_scope.
Delimit Scope js_scope with js.
Notation "x <- m ;; k" := (bind m (fun x => k))
  (at level 100, m at next level, right associativity) : js_scope.
Notation "m ;;; k" := (bind m (fun _ => k))
  (at level 100, right associativity) : js_scope.
Local Open Scope js_scope.

Definition when (b : bool) (m : M unit) : M unit := if b then m else ret tt.

Definition emit (e : Event) : M unit := fun w => (Ok tt, log_event e w).

Definition Date_now : M Z := fun w => (Ok (now w), w).

Definition get_apiRateLimit : M RateLimitInfo := fun w => (Ok (apiRateLimit w), w).

(** The effective delay of [setTimeout(f, ms)]. *)
Definition timer_delay (ms : JNum) : Z :=
  match ms with
  | Num z => Z.max 0 z
  | NaN => 0
  end.

(** [await new Promise((resolve) => setTimeout(resolve, ms))] *)
Definition sleep (ms : JNum) : M unit :=
  fun w => (Ok tt, set_now (now w + timer_delay ms) (log_event (EvSleep ms) w)).

(** [await fetch(url, init)] *)
Definition fetch (P : Platform) (req : Request) : M Response :=
  fun w =>
    let k := fetches w in
    let w' := set_now (now w + Z.of_nat (latency P k))
                (set_fetches (S k) (log_event (EvFetch req) w)) in
    match network P k req with
    | NetworkError e => (Throw e, w')
    | Responded r => (Ok r, w')
    end.

(** [await response.text()] *)
Definition response_text (r : Response) : M string :=
  match body r with
  | Some text => ret text
  | None => throw "TypeError: the body could not be read"
  end.

(** [await response.json()] *)
Definition response_json (r : Response) : M Json :=
  match json r with
  | Some j => ret j
  | None => throw "SyntaxError"
  end.

(** ** Governed HTTP client ([gitlabClient.ts]) *)

(** The module-level object is updated in place. *)
Definition observe_headers (headers : Headers) : M unit :=
  fun w => (Ok tt, set_apiRateLimit (updateRateLimitFromHeaders headers (apiRateLimit w)) w).

Definition respectRateLimits : M unit :=
  rl <- get_apiRateLimit ;;
  match jnum_lt (remaining rl) (Num 5), resetTime rl with
  | true, Some reset =>
      t <- Date_now ;;
      let timeUntilReset := jnum_sub reset (Num t) in
      if jnum_gt timeUntilReset (Num 0)
      then sleep (Math_min (jnum_add timeUntilReset (Num 1000)) (Num 60000))
      else ret tt
  | _, _ => sleep (Num DEFAULT_DELAY)
  end.

Definition getGitLabApiBaseUrl (env : CloudflareEnvironment) : string :=
  if truthy_opt (GITLAB_API_BASE_URL env)
  then default "" (GITLAB_API_BASE_URL env)
  else "https://gitlab.com/api/v4".

Definition getGitLabBaseUrl (env : CloudflareEnvironment) : string :=
  let apiBaseUrl := getGitLabApiBaseUrl env in
  replace_first "/api/v4" "" apiBaseUrl.

Definition USER_AGENT : string :=
  "Mozilla/5.0 (Macintosh; Intel Mac OS X 10_15_7) AppleWebKit/537.36 (KHTML, like Gecko) Chrome/135.0.0.0 Safari/537.36".

(** [new Headers(options.headers || {})] throws when the runtime finds an
    invalid name or value in the init; its rules are not re-implemented.
    The [set] calls that follow do not throw: the two constant headers are
    valid and [GITLAB_TOKEN] is an access token, a header value. *)
Definition headers_rejected (P : Platform) (options : RequestInit) : bool :=
  match ri_headers options with
  | Some init => negb (Headers_accepts P init)
  | None => false
  end.

(** The argument of [fetch]: the headers built from [options.headers], and
    the token only when [useAuth && env.GITLAB_TOKEN]. *)
Definition request_of (url : string) (options : RequestInit)
    (env : CloudflareEnvironment) (useAuth : bool) : Request :=
  let headers := default [] (ri_headers options) in
  let headers := headers_set headers "Accept" "application/json" in
  let headers := headers_set headers "User-Agent" USER_AGENT in
  let headers :=
    if useAuth && truthy_opt (GITLAB_TOKEN env)
    then headers_set headers "PRIVATE-TOKEN" (default "" (GITLAB_TOKEN env))
    else headers in
  {| req_url := url; req_method := ri_method options; req_headers := headers |}.

(** The body of [gitlabApiRequest]; [self] is the function itself, called
    for a retry.  Both retries are written [gitlabApiRequest(url, options,
    env, retryCount + 1)]: the fifth parameter takes its default, [true].
    In JavaScript a rejection of the promise returned from inside [try]
    would escape the [catch]; the retry never rejects
    ([gitlabApiRequest_safe] below), so the two readings agree.
    Everything else in the [try] reaches the [catch] when it throws: the
    construction of the headers, [fetch], and the read of the body of a 429
    response, which is awaited whether or not analytics are bound. *)
Definition gitlabApiRequest_body (P : Platform)
    (self : string -> RequestInit -> CloudflareEnvironment -> nat -> bool ->
            M (option Response))
    (url : string) (options : RequestInit) (env : CloudflareEnvironment)
    (retryCount : nat) (useAuth : bool) : M (option Response) :=
  try_catch
    (let repoContext := extractRepoContextFromUrl P url in
     when (CLOUDFLARE_ANALYTICS env && (retryCount =? 0)%nat)
       (emit (EvAnalytics "gitlab_api_request" [url; repoContext] [1])) ;;;
     respectRateLimits ;;;
     (if headers_rejected P options then throw "TypeError: Invalid header"
      else ret tt) ;;;
     response <- fetch P (request_of url options env useAuth) ;;
     observe_headers (resp_headers response) ;;;
     if status response =? 429 then
       responseBody <- response_text response ;;
       when (CLOUDFLARE_ANALYTICS env)
         (emit (EvAnalytics "gitlab_rate_limited_request"
                  [url; repoContext; String.substring 0 100 responseBody]
                  [1; Z.of_nat retryCount])) ;;;
       if (retryCount <? MAX_RETRIES)%nat then
         rl <- get_apiRateLimit ;;
         t <- Date_now ;;
         let waitTime :=
           match resetTime rl with
           | Some reset =>
               Math_max (Num 1000) (jnum_add (jnum_sub reset (Num t)) (Num 1000))
           | None => Num 60000
           end in
         sleep waitTime ;;;
         self url options env (retryCount + 1)%nat true
       else ret (Some response)
     else ret (Some response))
    (fun error =>
       if (retryCount <? MAX_RETRIES)%nat then
         sleep (Num 2000) ;;;
         self url options env (retryCount + 1)%nat true
       else ret None).

(** The recursion is bounded by the retries that remain. *)
Fixpoint gitlabApiRequest_aux (P : Platform) (budget : nat)
    (url : string) (options : RequestInit) (env : CloudflareEnvironment)
    (retryCount : nat) (useAuth : bool) : M (option Response) :=
  gitlabApiRequest_body P
    (match budget with
     | S b => gitlabApiRequest_aux P b
     | O => fun _ _ _ _ _ => ret None  (* never called: no retry remains *)
     end)
    url options env retryCount useAuth.

Definition gitlabApiRequest (P : Platform)
    (url : string) (options : RequestInit) (env : CloudflareEnvironment)
    (retryCount : nat) (useAuth : bool) : M (option Response) :=
  gitlabApiRequest_aux P (MAX_RETRIES - retryCount) url options env retryCount useAuth.

Definition encodeProjectPath (P : Platform) (namespace project : string) : string :=
  encodeURIComponent P (namespace +:+ "/" +:+ project).

(** The GitHub-like structure returned by the search helpers. *)
Record ResultItem : Type := mkResultItem {
  res_path : option string;
  res_html_url : option string;
  res_full_name : string
}.

Record SearchResult : Type := mkSearchResult {
  total_count : nat;
  items : list ResultItem
}.

(** [item.filename || item.path?.split('/').pop()] *)
Definition itemFilename (item : SearchItem) : option string :=
  js_or (item_filename item) (split_pop <$> item_path item).

(** [itemFilename === filename] *)
Definition strict_eq (o : option string) (s : string) : bool :=
  match o with
  | Some x => String.eqb x s
  | None => false
  end.

Definition exact_match (filename : string) (item : SearchItem) : bool :=
  strict_eq (itemFilename item) filename.

Definition truthy_num (o : option Z) : bool :=
  match o with
  | Some z => negb (z =? 0)
  | None => false
  end.

(** The object built for each hit. *)
Definition to_result_item (env : CloudflareEnvironment) (namespace project : string)
    (item : SearchItem) : ResultItem :=
  {| res_path := js_or (item_path item) (item_filename item);
     res_html_url :=
       if truthy_num (item_project_id item)
       then Some (getGitLabBaseUrl env +:+ "/" +:+ namespace +:+ "/" +:+ project
                  +:+ "/-/blob/" +:+ template (js_or (item_ref item) (Some "main"))
                  +:+ "/" +:+ template (js_or (item_path item) (item_filename item)))
       else None;
     res_full_name := namespace +:+ "/" +:+ project |}.

(** [!response || !response.ok] *)
Definition failed (response : option Response) : bool :=
  match response with
  | Some r => negb (ok r)
  | None => true
  end.

Definition searchFileByName (P : Platform) (filename namespace project : string)
    (env : CloudflareEnvironment) : M (option SearchResult) :=
  let baseUrl := getGitLabApiBaseUrl env in
  let projectPath := encodeProjectPath P namespace project in
  let searchUrl := baseUrl +:+ "/projects/" +:+ projectPath
                   +:+ "/search?scope=blobs&search=" +:+ encodeURIComponent P filename in
  response <- gitlabApiRequest P searchUrl no_options env 0 true ;;
  match response with
  | Some r =>
      if negb (ok r) then ret None
      else
        results <- response_json r ;;
        match results with
        | JItems results =>
            let exactMatches := List.filter (exact_match filename) results in
            ret (Some {| total_count := length exactMatches;
                         items := List.map (to_result_item env namespace project)
                                    exactMatches |})
        | _ => throw "TypeError: results.filter is not a function"
        end
  | None => ret None
  end.

(** ** [gitlab.ts] *)

Definition constructGitlabUrl (namespace project branch path : string)
    (env : CloudflareEnvironment) : string :=
  let baseUrl := getGitLabBaseUrl env in
  baseUrl +:+ "/" +:+ namespace +:+ "/" +:+ project +:+ "/-/raw/" +:+ branch
  +:+ "/" +:+ path.

Definition fetchRawFile (P : Platform) (namespace project branch path : string)
    (env : CloudflareEnvironment) (useAuth : bool) : M (option string) :=
  let url := constructGitlabUrl namespace project branch path env in
  response <- gitlabApiRequest P url no_options env 0 useAuth ;;
  match response with
  | Some r =>
      if negb (ok r) then ret None
      else
        (* [return response.text()]: a rejection is the function's own *)
        text <- response_text r ;;
        ret (Some text)
  | None => ret None
  end.

Definition fetchFileFromGitLab (P : Platform) (namespace project branch path : string)
    (env : CloudflareEnvironment) (useAuth : bool) : M (option string) :=
  fetchRawFile P namespace project branch path env useAuth.

Record GitLabFile : Type := mkGitLabFile {
  file_path : option string;    (* [undefined] when the hit had no path *)
  file_content : string
}.

(** [ctx.waitUntil(cacheFilePath(...))]: the write is recorded. *)
Definition cacheFilePath (namespace project filename filePath branch : string)
  : M unit :=
  emit (EvPathCachePut namespace project filename filePath branch).

Definition searchGitLabRepo (P : Platform) (namespace project filename branch : string)
    (env : CloudflareEnvironment) : M (option GitLabFile) :=
  try_catch
    (cachedFile <- (fun w => (Ok (getCachedFilePath P namespace project w), w)) ;;
     let filePath := js_or (cp_path <$> cachedFile) (Some "") in
     (* [None]: the function has returned null *)
     found <-
       (if negb (truthy_opt filePath) then
          data <- searchFileByName P filename namespace project env ;;
          match data with
          | None => ret None
          | Some data =>
              if (total_count data =? 0)%nat || (length (items data) =? 0)%nat
              then ret None
              else ret (Some (head (items data) ≫= res_path))
          end
        else ret (Some filePath)) ;;
     match found with
     | None => ret None
     | Some filePath =>
         content <- fetchFileFromGitLab P namespace project branch (template filePath)
                      env false ;;
         if truthy_opt content then
           cacheFilePath namespace project filename (template filePath) branch ;;;
           ret (Some {| file_path := filePath; file_content := default "" content |})
         else ret None
     end)
    (fun error => ret None).

Definition HEAD : RequestInit := {| ri_method := Some "HEAD"; ri_headers := None |}.

Definition getRepoBranch (P : Platform) (namespace project : string)
    (env : CloudflareEnvironment) : M string :=
  try_catch
    (let baseUrl := getGitLabApiBaseUrl env in
     let projectPath := encodeProjectPath P namespace project in
     let apiUrl := baseUrl +:+ "/projects/" +:+ projectPath in
     response <- gitlabApiRequest P apiUrl no_options env 0 true ;;
     (* [Some b]: the function has returned the default branch [b] *)
     found <-
       match response with
       | Some r =>
           if ok r then
             data <- response_json r ;;
             match data with
             | JProject (Some b) => if truthy b then ret (Some b) else ret None
             | _ => ret None
             end
           else ret None
       | None => ret None
       end ;;
     match found with
     | Some b => ret b
     | None =>
         let mainUrl := constructGitlabUrl namespace project "main" "README.md" env in
         mainResponse <- gitlabApiRequest P mainUrl HEAD env 0 true ;;
         if negb (failed mainResponse) then ret "main"
         else
           let masterUrl :=
             constructGitlabUrl namespace project "master" "README.md" env in
           masterResponse <- gitlabApiRequest P masterUrl HEAD env 0 true ;;
           if negb (failed masterResponse) then ret "master"
           else throw "Could not determine default branch"
     end)
    (fun error => ret "main").

(** ** [r2.ts] *)

Definition fetchFileFromR2 (namespace project filename : string)
    (env : CloudflareEnvironment) : M (option string) :=
  match truthy namespace && truthy project, DOCS_BUCKET env with
  | true, Some bucket =>
      try_catch
        (let key := namespace +:+ "/" +:+ project +:+ "/" +:+ filename in
         emit (EvR2Get key) ;;;
         match bucket key with
         | R2Object s => ret (Some s)
         | R2Missing => ret None
         | R2Throws => throw "R2 error"
         end)
        (fun error => ret None)
  | _, _ => ret None
  end.

(** ** Content cache ([cache.ts]) *)

(** Modelled from the spec: the content half of [cache.ts] is missing.
    "Lookup must treat an expired entry as absent (lazy expiry)"; entries are
    "discarded once their TTL is exceeded"; the key is "the tuple
    (namespace, project)". *)
Definition getCachedFetchDocResult (namespace project : string)
  : M (option FetchDocumentationResult) :=
  fun w =>
    match contentCache w !! (namespace, project) with
    | Some e => if now w <=? expiresAt e then (Ok (Some (value e)), w) else (Ok None, w)
    | None => (Ok None, w)
    end.

(** Modelled from the spec: [put(key, value, ttl)] of the content cache, with
    [ttl] in seconds as [fetchDocumentation] passes it. *)
Definition cacheFetchDocResult (namespace project : string)
    (result : FetchDocumentationResult) (ttl : Z) : M unit :=
  fun w =>
    let e := {| value := result; expiresAt := now w + ttl * 1000 |} in
    (Ok tt,
     set_contentCache (<[(namespace, project) := e]> (contentCache w))
       (log_event (EvContentCachePut namespace project result ttl) w)).

(** ** [commonTools.ts] *)

Inductive UrlType : Type := subdomain | gitlab | unknown.

Record RepoData : Type := mkRepoData {
  namespace : option string;     (* [string | null] *)
  project : option string;
  host : string;
  urlType : UrlType
}.

(** [`${x}`] for a [string | null]. *)
Definition template_null (o : option string) : string :=
  match o with
  | Some s => s
  | None => "null"
  end.

Definition enqueueDocumentationProcessing (namespace project : string)
    (content : option string) (fileUsed : string) (docsPath : option string)
    (docsBranch : string) (env : CloudflareEnvironment) : M unit :=
  try_catch
    (match MY_QUEUE env with
     | Some sendResolves =>
         let repoUrl := "https://gitlab.com/" +:+ namespace +:+ "/" +:+ project in
         let message :=
           {| msg_namespace := namespace; msg_project := project;
              msg_repo_url := repoUrl; msg_file_url := template docsPath;
              msg_content_length := String.length <$> content;
              msg_file_used := fileUsed; msg_docs_branch := docsBranch |} in
         (* [await env.MY_QUEUE.send(...)]: the call is made, then settles *)
         emit (EvQueueSend message) ;;;
         if sendResolves : bool then ret tt else throw "queue send failed"
     | None => ret tt
     end)
    (fun error => ret tt).

(** [Promise.all] over promises that are already running.  The source
    starts every promise before it awaits the array; the model runs them
    to completion one after the other, in the order of the array, so the
    events of each of them are in the trace whether or not another one
    rejects, and the result is the list of the values or the first
    rejection.  What the model does not have is the interleaving: in the
    source the timers of the promises run side by side and their fetches
    can be issued in any order, each reading the rate-limit state that the
    others have left. *)
Fixpoint Promise_all {A} (promises : list (M A)) : M (list A) :=
  match promises with
  | [] => ret []
  | p :: rest =>
      fun w =>
        let '(a, w1) := p w in
        let '(l, w2) := Promise_all rest w1 in
        (match a, l with
         | Ok a, Ok l => Ok (a :: l)
         | Throw e, _ => Throw e
         | Ok _, Throw e => Throw e
         end, w2)
  end.

(** One element of [results] in the static-path probe. *)
Record ProbeResult : Type := mkProbeResult {
  probe_content : option string;    (* [string | null] *)
  probe_location : string;
  probe_branch : string
}.

Definition possibleLocations : list string :=
  ["docs/docs/llms.txt"; "llms.txt"; "docs/llms.txt"].

(** [results.find((r) => r.location === location && r.content !== null)] *)
Definition find_result (results : list ProbeResult) (location : string)
  : option ProbeResult :=
  List.find
    (fun r => String.eqb (probe_location r) location
              && match probe_content r with Some _ => true | None => false end)
    results.

(** The [for ... of possibleLocations] loop, up to its [break]. *)
Fixpoint select_static (locations : list string) (results : list ProbeResult)
  : option ProbeResult :=
  match locations with
  | [] => None
  | location :: rest =>
      match find_result results location with
      | Some mainResult => Some mainResult
      | None => select_static rest results
      end
  end.

(** The local variables of [fetchDocumentation]. *)
Record Locals : Type := mkLocals {
  l_fileUsed : string;
  l_content : option string;      (* [string | null] *)
  l_docsPath : option string;
  l_docsBranch : string;
  l_blockedByRobots : bool
}.

Definition locals_init : Locals :=
  {| l_fileUsed := "unknown"; l_content := None; l_docsPath := Some "";
     l_docsBranch := ""; l_blockedByRobots := false |}.

Definition set_found (content : option string) (fileUsed : string) (l : Locals)
  : Locals :=
  {| l_fileUsed := fileUsed; l_content := content; l_docsPath := l_docsPath l;
     l_docsBranch := l_docsBranch l; l_blockedByRobots := l_blockedByRobots l |}.

Definition set_docsPath (docsPath : option string) (l : Locals) : Locals :=
  {| l_fileUsed := l_fileUsed l; l_content := l_content l; l_docsPath := docsPath;
     l_docsBranch := l_docsBranch l; l_blockedByRobots := l_blockedByRobots l |}.

Definition set_docsBranch (docsBranch : string) (l : Locals) : Locals :=
  {| l_fileUsed := l_fileUsed l; l_content := l_content l; l_docsPath := l_docsPath l;
     l_docsBranch := docsBranch; l_blockedByRobots := l_blockedByRobots l |}.

Definition set_blocked (l : Locals) : Locals :=
  {| l_fileUsed := l_fileUsed l; l_content := l_content l; l_docsPath := l_docsPath l;
     l_docsBranch := l_docsBranch l; l_blockedByRobots := true |}.

Definition robots_fetch (P : Platform) (url : string) : M RobotsResult :=
  emit (EvRobotsFetch url) ;;;
  match fetchFileWithRobotsTxtCheck P url with
  | Some r => ret r
  | None => throw "fetchFileWithRobotsTxtCheck rejected"
  end.

(** The branch [urlType === "subdomain"]. *)
Definition resolve_subdomain (P : Platform) (namespace project : option string)
    (l : Locals) : M Locals :=
  let gitlabIoDomain := template_null namespace +:+ ".gitlab.io" in
  let pathWithSlash := if truthy_opt project then "/" +:+ default "" project else "" in
  let baseURL := "https://" +:+ gitlabIoDomain +:+ pathWithSlash +:+ "/" in
  llmsResult <- robots_fetch P (baseURL +:+ "llms.txt") ;;
  l <-
    (if blockedByRobots llmsResult then ret (set_blocked l)
     else if truthy_opt (robots_content llmsResult)
     then ret (set_found (robots_content llmsResult) "llms.txt" l)
     else
       indexResult <- robots_fetch P baseURL ;;
       let l :=
         if blockedByRobots indexResult then set_blocked l
         else if truthy_opt (robots_content indexResult) then
           match htmlToMd P (default "" (robots_content indexResult)) with
           | Some md =>
               set_found (Some md) "landing page (index.html, converted to Markdown)" l
           | None => l
           end
         else l in
       if negb (truthy_opt (l_content l)) && negb (l_blockedByRobots l) then
         readmeResult <- robots_fetch P (baseURL +:+ "README.md") ;;
         if blockedByRobots readmeResult then ret (set_blocked l)
         else if truthy_opt (robots_content readmeResult)
         then ret (set_found (robots_content readmeResult) "README.md" l)
         else ret l
       else ret l) ;;
  if l_blockedByRobots l then
    ret (set_found
           (Some "Access to this GitLab Pages site is restricted by robots.txt. GitMCP respects robots.txt directives.")
           "robots.txt restriction" l)
  else ret l.

(** State 2: the static-path probe. *)
Definition static_probe (P : Platform) (namespace project docsBranch : string)
    (env : CloudflareEnvironment) : M (list ProbeResult) :=
  let fetchPromises :=
    List.map
      (fun location =>
         (fetchFileFromGitLab P namespace project docsBranch location env false,
          location, docsBranch))
      possibleLocations in
  Promise_all
    (List.map
       (fun '(promise, location, branch) =>
          content <- promise ;;
          ret {| probe_content := content; probe_location := location;
                 probe_branch := branch |})
       fetchPromises).

Definition apply_static (namespace project : string) (env : CloudflareEnvironment)
    (results : list ProbeResult) (l : Locals) : Locals :=
  match select_static possibleLocations results with
  | Some mainResult =>
      set_docsPath
        (Some (constructGitlabUrl namespace project (probe_branch mainResult)
                 (probe_location mainResult) env))
        (set_found (probe_content mainResult) "llms.txt" l)
  | None => l
  end.

(** State 3: the search fallback for [llms.txt]. *)
Definition search_fallback (P : Platform) (namespace project : string)
    (env : CloudflareEnvironment) (l : Locals) : M Locals :=
  if negb (truthy_opt (l_content l)) then
    result <- searchGitLabRepo P namespace project "llms.txt" (l_docsBranch l) env ;;
    match result with
    | Some result =>
        ret (set_docsPath (file_path result)
               (set_found (Some (file_content result)) "llms.txt" l))
    | None => ret l
    end
  else ret l.

(** State 4: the pre-generated file in R2. *)
Definition r2_fallback (namespace project : string) (env : CloudflareEnvironment)
    (l : Locals) : M Locals :=
  if negb (truthy_opt (l_content l)) then
    content <- fetchFileFromR2 namespace project "llms.txt" env ;;
    if truthy_opt content
    then ret (set_found content "llms.txt (generated)" l)
    else ret (set_found content (l_fileUsed l) l)
  else ret l.

(** State 5: any [README] at the root. *)
Definition readme_fallback (P : Platform) (namespace project : string)
    (env : CloudflareEnvironment) (l : Locals) : M Locals :=
  if negb (truthy_opt (l_content l)) then
    l <- (if negb (truthy (l_docsBranch l)) then
            docsBranch <- getRepoBranch P namespace project env ;;
            ret (set_docsBranch docsBranch l)
          else ret l) ;;
    readmeResult <- searchGitLabRepo P namespace project "README+path:/"
                      (l_docsBranch l) env ;;
    match readmeResult with
    | Some readmeResult =>
        match file_path readmeResult with
        | Some path =>
            let filename := if truthy (split_pop path) then split_pop path else path in
            ret (set_docsPath
                   (Some (constructGitlabUrl namespace project (l_docsBranch l) path env))
                   (set_found (Some (file_content readmeResult)) filename l))
        | None => throw "TypeError: cannot read properties of undefined (reading 'split')"
        end
    | None => ret l
    end
  else ret l.

(** The branch [urlType === "gitlab" && namespace && project]. *)
Definition resolve_gitlab (P : Platform) (namespace project : string)
    (env : CloudflareEnvironment) (l : Locals) : M Locals :=
  docsBranch <- getRepoBranch P namespace project env ;;
  let l := set_docsBranch docsBranch l in
  results <- static_probe P namespace project docsBranch env ;;
  let l := apply_static namespace project env results l in
  l <- search_fallback P namespace project env l ;;
  l <- r2_fallback namespace project env l ;;
  readme_fallback P namespace project env l.

(** Everything between the cache check and the enqueueing. *)
Definition cascade (P : Platform) (repoData : RepoData) (env : CloudflareEnvironment)
  : M Locals :=
  match urlType repoData with
  | subdomain => resolve_subdomain P (namespace repoData) (project repoData) locals_init
  | gitlab =>
      if truthy_opt (namespace repoData) && truthy_opt (project repoData)
      then resolve_gitlab P (default "" (namespace repoData))
             (default "" (project repoData)) env locals_init
      else ret locals_init
  | unknown => ret locals_init
  end.

Definition cacheTTL : Z := 30 * 60.

Definition text_result (fileUsed content : string) : FetchDocumentationResult :=
  {| fileUsed := fileUsed; content := [ {| type_ := "text"; text := content |} ] |}.

(** [namespace && project] *)
Definition known (repoData : RepoData) : bool :=
  truthy_opt (namespace repoData) && truthy_opt (project repoData).

(** The cache check that opens [fetchDocumentation]; [None] when the
    function goes on. *)
Definition check_cache (repoData : RepoData) : M (option FetchDocumentationResult) :=
  if known repoData
  then getCachedFetchDocResult (default "" (namespace repoData))
         (default "" (project repoData))
  else ret None.

Definition fetchDocumentation (P : Platform) (repoData : RepoData)
    (env : CloudflareEnvironment) : M FetchDocumentationResult :=
  let known := known repoData in
  let namespace := default "" (namespace repoData) in
  let project := default "" (project repoData) in
  cachedResult <- check_cache repoData ;;
  match cachedResult with
  | Some cachedResult => ret cachedResult
  | None =>
      l <- cascade P repoData env ;;
      (if known then
         enqueueDocumentationProcessing namespace project (l_content l) (l_fileUsed l)
           (l_docsPath l) (l_docsBranch l) env
       else ret tt) ;;;
      if negb (truthy_opt (l_content l)) then
        ret (text_result (l_fileUsed l) "No documentation found.")
      else
        let result := text_result (l_fileUsed l) (default "" (l_content l)) in
        (if known then
           try_catch (cacheFetchDocResult namespace project result cacheTTL)
             (fun error => ret tt)
         else ret tt) ;;;
        ret result
  end.

(** The delay before the retry of a throttled request, as computed from the
    world after the response was observed. *)
Definition backoff_429 (w : World) : JNum :=
  match resetTime (apiRateLimit w) with
  | Some reset =>
      Math_max (Num 1000) (jnum_add (jnum_sub reset (Num (now w))) (Num 1000))
  | None => Num 60000
  end.

(** ** Code search ([gitlabClient.ts], [commonTools.ts]) *)

(** The characters [\n] and the double quote of the message templates. *)
Definition LF : string := String (ascii_of_nat 10) EmptyString.
Definition DQUOTE : string := String (ascii_of_nat 34) EmptyString.

(** [`${n}`] for a number: decimal digits, with a sign when negative. *)
Definition number_to_string (n : JNum) : string :=
  match n with
  | NaN => "NaN"
  | Num z => pretty z
  end.

(** [Math.ceil(a / b)] for a positive [b]. *)
Definition Math_ceil_div (a b : Z) : Z := - ((- a) / b).

(** [searchCode(query, namespace, project, env, page, perPage)]; the
    defaults of the last two, [1] and [20], are filled in by the caller. *)
Definition searchCode (P : Platform) (query namespace project : string)
    (env : CloudflareEnvironment) (page perPage : JNum) : M (option SearchResult) :=
  let baseUrl := getGitLabApiBaseUrl env in
  let projectPath := encodeProjectPath P namespace project in
  let validPerPage := Math_min (Math_max (Num 1) perPage) (Num 100) in
  let searchUrl := baseUrl +:+ "/projects/" +:+ projectPath
                   +:+ "/search?scope=blobs&search=" +:+ encodeURIComponent P query
                   +:+ "&page=" +:+ number_to_string page
                   +:+ "&per_page=" +:+ number_to_string validPerPage in
  response <- gitlabApiRequest P searchUrl no_options env 0 true ;;
  match response with
  | Some r =>
      if negb (ok r) then ret None
      else
        results <- response_json r ;;
        match results with
        | JItems results =>
            ret (Some {| total_count := length results;
                         items := List.map (to_result_item env namespace project)
                                    results |})
        | _ => throw "TypeError: results.map is not a function"
        end
  | None => ret None
  end.

Record Pagination : Type := mkPagination {
  totalCount : nat;
  currentPage : JNum;
  perPage : JNum;
  hasMorePages : bool
}.

Record CodeSearchResult : Type := mkCodeSearchResult {
  searchQuery : string;
  cs_content : list TextContent;
  pagination : option Pagination
}.

Definition code_search_heading (query : string) : string :=
  "### Code Search Results for: " +:+ DQUOTE +:+ query +:+ DQUOTE +:+ LF +:+ LF.

Definition code_search_message (query message : string) : CodeSearchResult :=
  {| searchQuery := query;
     cs_content := [ {| type_ := "text"; text := code_search_heading query +:+ message |} ];
     pagination := None |}.

(** The lines added for one hit; the transformed items carry no [name],
    [git_url] or [score]. *)
Definition format_item (item : ResultItem) : string :=
  "#### undefined" +:+ LF
  +:+ "- **Path**: " +:+ template (res_path item) +:+ LF
  +:+ "- **URL**: " +:+ template (res_html_url item) +:+ LF
  +:+ "- **Git URL**: undefined" +:+ LF
  +:+ "- **Score**: undefined" +:+ LF +:+ LF.

Definition searchRepositoryCode (P : Platform) (repoData : RepoData) (query : string)
    (page : option JNum) (env : CloudflareEnvironment) : M CodeSearchResult :=
  let page := default (Num 1) page in
  try_catch
    (if negb (truthy_opt (namespace repoData)) || negb (truthy_opt (project repoData))
     then ret (code_search_message query
                 "Cannot perform code search without repository information.")
     else
       let namespace := default "" (namespace repoData) in
       let project := default "" (project repoData) in
       let currentPage := Math_max (Num 1) page in
       let resultsPerPage := Num 30 in
       data <- searchCode P query namespace project env currentPage resultsPerPage ;;
       match data with
       | None =>
           ret (code_search_message query
                  ("Failed to search code in " +:+ namespace +:+ "/" +:+ project
                   +:+ ". GitLab API request failed."))
       | Some data =>
           if (total_count data =? 0)%nat || (length (items data) =? 0)%nat
           then ret (code_search_message query
                       ("No code matches found in " +:+ namespace +:+ "/" +:+ project
                        +:+ "."))
           else
             let totalCount := total_count data in
             let hasMorePages :=
               jnum_lt (jnum_mul currentPage resultsPerPage) (Num (Z.of_nat totalCount)) in
             let totalPages := Math_ceil_div (Z.of_nat totalCount) 30 in
             let formattedResults :=
               code_search_heading query
               +:+ "Found " +:+ pretty totalCount +:+ " matches in " +:+ namespace +:+ "/"
               +:+ project +:+ "." +:+ LF
               +:+ "Page " +:+ number_to_string currentPage +:+ " of "
               +:+ pretty totalPages +:+ "." +:+ LF +:+ LF
               +:+ String.concat "" (List.map format_item (items data))
               +:+ (if hasMorePages
                    then "_Showing " +:+ pretty (length (items data)) +:+ " of "
                         +:+ pretty totalCount
                         +:+ " results. Use pagination to see more results._" +:+ LF +:+ LF
                    else "") in
             ret {| searchQuery := query;
                    cs_content := [ {| type_ := "text"; text := formattedResults |} ];
                    pagination := Some {| totalCount := totalCount;
                                          currentPage := currentPage;
                                          perPage := resultsPerPage;
                                          hasMorePages := hasMorePages |} |}
       end)
    (fun error =>
       ret (code_search_message query
              ("An error occurred while searching code: " +:+ error))).

(** ** Tool names ([commonTools.ts]) *)

(** A string is its sequence of code units. *)

(** [s.split(sep)] for a separator of one character. *)
Fixpoint split_on (sep : ascii) (s : string) : list string :=
  match s with
  | EmptyString => [EmptyString]
  | String c rest =>
      if Ascii.eqb c sep then EmptyString :: split_on sep rest
      else match split_on sep rest with
           | word :: words => String c word :: words
           | [] => [String c EmptyString]
           end
  end.

(** [/[a-zA-Z0-9]/] *)
Definition is_alphanumeric (c : ascii) : bool :=
  let n := nat_of_ascii c in
  ((48 <=? n) && (n <=? 57) || (65 <=? n) && (n <=? 90) || (97 <=? n) && (n <=? 122))%nat.

(** [s.replace(/[^a-zA-Z0-9]/g, "_")] *)
Fixpoint sanitize (s : string) : string :=
  match s with
  | EmptyString => EmptyString
  | String c rest => String (if is_alphanumeric c then c else "_"%char) (sanitize rest)
  end.

(** [s.replace(/__/g, "_")]: matches are taken from the left and do not
    overlap. *)
Fixpoint collapse_underscores (s : string) : string :=
  match s with
  | String c rest =>
      match rest with
      | String d rest' =>
          if Ascii.eqb c "_" && Ascii.eqb d "_"
          then String "_" (collapse_underscores rest')
          else String c (collapse_underscores rest)
      | EmptyString => s
      end
  | EmptyString => s
  end.

Definition LIMIT : nat := 51.

(** The loop that drops words from the end: [i] runs from
    [words.length - 1] down to [1]. *)
Fixpoint shorten (prefix shorterSuffix : string) (serverNameLen : nat)
    (words : list string) (i : nat) : option string :=
  match i with
  | O => None
  | S i' =>
      let shortenedRepo := String.concat "_" (take i words) in
      let toolName := prefix +:+ shortenedRepo +:+ shorterSuffix in
      if (String.length toolName + serverNameLen <=? LIMIT)%nat then Some toolName
      else shorten prefix shorterSuffix serverNameLen words i'
  end.

(** [generateServerName] ([shared/nameUtils.ts]) is not part of the sources:
    it is a parameter, and may throw. *)
Definition enforceToolNameLengthLimit (generateServerName : string -> Res string)
    (prefix : string) (project : option string) (suffix : string) : Res string :=
  if negb (truthy_opt project) then Ok (prefix +:+ suffix)
  else
    let project := default "" project in
    match generateServerName project with
    | Throw e => Throw e
    | Ok serverName =>
        let serverNameLen := String.length serverName in
        let repoName := sanitize project in
        let toolName := prefix +:+ repoName +:+ suffix in
        let combinedLength := (String.length toolName + serverNameLen)%nat in
        if (combinedLength <=? LIMIT)%nat then Ok toolName
        else
          let shorterSuffix :=
            if String.eqb suffix "_documentation" then "_docs" else suffix in
          let toolName := prefix +:+ repoName +:+ shorterSuffix in
          if (String.length toolName + serverNameLen <=? LIMIT)%nat then Ok toolName
          else
            let words := split_on "_" repoName in
            match (if (1 <? length words)%nat
                   then shorten prefix shorterSuffix serverNameLen words (length words - 1)
                   else None) with
            | Some toolName => Ok toolName
            | None =>
                let result := prefix +:+ "project" +:+ shorterSuffix in
                if (String.length result + serverNameLen <=? LIMIT)%nat then Ok result
                else Ok (collapse_underscores (prefix +:+ shorterSuffix))
            end
    end.

(** [try { ... } catch (error) { return fallback; }] around a synchronous
    computation. *)
Definition or_else {A} (r : Res A) (fallback : A) : A :=
  match r with
  | Ok a => a
  | Throw _ => fallback
  end.

Definition generateSearchToolName (generateServerName : string -> Res string)
    (repoData : RepoData) : string :=
  or_else
    (match urlType repoData with
     | subdomain | gitlab =>
         enforceToolNameLengthLimit generateServerName "search_" (project repoData)
           "_documentation"
     | unknown => Ok (sanitize "search_documentation")
     end)
    "search_documentation".

Definition generateFetchToolName (generateServerName : string -> Res string)
    (repoData : RepoData) : string :=
  or_else
    (match urlType repoData with
     | subdomain | gitlab =>
         enforceToolNameLengthLimit generateServerName "fetch_" (project repoData)
           "_documentation"
     | unknown => Ok (sanitize "fetch_documentation")
     end)
    "fetch_documentation".

Definition generateCodeSearchToolName (generateServerName : string -> Res string)
    (repoData : RepoData) : string :=
  or_else
    (match urlType repoData with
     | subdomain | gitlab =>
         enforceToolNameLengthLimit generateServerName "search_" (project repoData) "_code"
     | unknown => Ok (sanitize "search_code")
     end)
    "search_code".

(** ** Repository data ([shared/repoData.ts]) *)

Record RequestData : Type := mkRequestData {
  requestHost : string;
  requestUrl : option string
}.

Definition HOST_TEMP_URL : string := "remote-mcp-server-cf.idosalomon.workers.dev".

(** [s.includes(pat)] *)
Fixpoint includes (pat s : string) : bool :=
  is_prefix pat s
  || match s with
     | String _ rest => includes pat rest
     | EmptyString => false
     end.

(** The [pathname] of the URL that [getRepoData] ends up with; [None] when
    a [new URL] throws.  The parser is the oracle [URL_pathname]. *)
Definition fullUrl_pathname (URL_pathname : string -> option string)
    (requestData : RequestData) : option string :=
  let requestHost := requestHost requestData in
  let protocol := if includes "localhost" requestHost then "http" else "https" in
  match URL_pathname (protocol +:+ "://" +:+ requestHost) with
  | None => None
  | Some pathname =>
      match requestUrl requestData with
      | Some requestUrl =>
          if truthy requestUrl then
            if is_prefix "/" requestUrl
            then URL_pathname (protocol +:+ "://" +:+ requestHost +:+ requestUrl)
            else if is_prefix "http" requestUrl then URL_pathname requestUrl
            else URL_pathname (protocol +:+ "://" +:+ requestUrl)
          else Some pathname
      | None => Some pathname
      end
  end.

(** [pathname.split("/").filter(Boolean).join("/")] *)
Definition normalize_path (pathname : string) : string :=
  String.concat "/" (List.filter truthy (split_on "/" pathname)).

(** The message of the error carries the logged data as JSON, left out here. *)
Definition getRepoData (URL_pathname : string -> option string)
    (requestData : RequestData) : Res RepoData :=
  let requestHost := requestHost requestData in
  match fullUrl_pathname URL_pathname requestData with
  | None => Throw "TypeError: Invalid URL"
  | Some pathname =>
      let path := normalize_path pathname in
      if includes ".gitmcp.io" requestHost then
        let subdomain_ := hd "" (split_on "." requestHost) in
        if negb (truthy subdomain_) && negb (truthy path)
        then Throw "Invalid repository data"
        else Ok {| namespace := Some subdomain_;
                   project := if truthy path then Some path else None;
                   host := requestHost;
                   urlType := subdomain |}
      else if String.eqb requestHost "gitmcp.io"
              || String.eqb requestHost HOST_TEMP_URL
              || String.eqb requestHost "git-mcp.idosalomon.workers.dev"
              || String.eqb requestHost "git.esempla.systems"
              || includes "localhost" requestHost then
        let splitPath := split_on "/" path in
        if (length splitPath <? 2)%nat then
          let namespace := head splitPath in
          if negb (truthy_opt namespace) then Throw "Invalid repository data"
          else Ok {| namespace := namespace; project := None;
                     host := requestHost; urlType := gitlab |}
        else
          let project := last splitPath in
          let namespace := String.concat "/" (removelast splitPath) in
          if negb (truthy namespace) && negb (truthy_opt project)
          then Throw "Invalid repository data"
          else Ok {| namespace := Some namespace; project := project;
                     host := requestHost; urlType := gitlab |}
      else Ok {| namespace := None; project := None;
                 host := requestHost; urlType := unknown |}
  end.

(** ** Fetching a URL ([commonTools.ts]) *)

(** [s.trim()] removes the white space and the line terminators of
    Unicode from both ends of [s]; which code units those are depends on
    the encoding of the string, so the function is a parameter of the
    platform ([String_trim]).  [trim_ascii] removes the six of them that
    are ASCII characters, and stands for it on the sample platforms. *)
Fixpoint trim_end (s : string) : string :=
  match s with
  | EmptyString => EmptyString
  | String c rest =>
      match trim_end rest with
      | EmptyString => if is_js_space c then EmptyString else String c EmptyString
      | rest' => String c rest'
      end
  end.

Definition trim_ascii (s : string) : string := trim_end (skip_spaces s).

Record UrlContentResult : Type := mkUrlContentResult {
  uc_url : string;
  uc_status : string;
  uc_content : list TextContent
}.

(** The test that sends the content through [htmlToMd]. *)
Definition looks_like_html (P : Platform) (finalContent : string) : bool :=
  is_prefix "<!DOCTYPE" (String_trim P finalContent)
  || is_prefix "<html" (String_trim P finalContent)
  || includes "<body" finalContent.

Definition fetchUrlContent (P : Platform) (url : string) : M UrlContentResult :=
  try_catch
    (result <- robots_fetch P url ;;
     if blockedByRobots result then
       ret {| uc_url := url; uc_status := "blocked";
              uc_content :=
                [ {| type_ := "text";
                     text := "Access to " +:+ url
                             +:+ " is disallowed by robots.txt. GitMCP respects robots.txt directives." |} ] |}
     else if negb (truthy_opt (robots_content result)) then
       ret {| uc_url := url; uc_status := "not_found";
              uc_content :=
                [ {| type_ := "text";
                     text := "Content at " +:+ url
                             +:+ " could not be retrieved. The resource may not exist or may require authentication." |} ] |}
     else
       let finalContent := default "" (robots_content result) in
       let finalContent :=
         if looks_like_html P finalContent then
           match htmlToMd P finalContent with
           | Some md => md
           | None => finalContent
           end
         else finalContent in
       ret {| uc_url := url; uc_status := "success";
              uc_content := [ {| type_ := "text"; text := finalContent |} ] |})
    (fun error =>
       ret {| uc_url := url; uc_status := "error";
              uc_content :=
                [ {| type_ := "text";
                     text := "Error fetching content from " +:+ url +:+ ": " +:+ error |} ] |}).

(** ** Searching the documentation ([commonTools.ts]) *)

Record SearchDocResult : Type := mkSearchDocResult {
  sd_searchQuery : string;
  sd_content : list TextContent
}.

(** [host.replace(/\./g, "_")] *)
Fixpoint dots_to_underscores (s : string) : string :=
  match s with
  | EmptyString => EmptyString
  | String c rest =>
      String (if Ascii.eqb c "." then "_"%char else c) (dots_to_underscores rest)
  end.

Definition search_results_heading (query : string) : string :=
  "### Search Results for: " +:+ DQUOTE +:+ query +:+ DQUOTE +:+ LF +:+ LF.

(** The text that carries the whole documentation as a fallback. *)
Definition naive_text (query namespace project content : string) : string :=
  search_results_heading query
  +:+ "No relevant documentation found for your query. It's either being indexed or the search query did not match any documentation."
  +:+ LF +:+ LF
  +:+ "As a fallback, this is the documentation for " +:+ namespace +:+ "/" +:+ project
  +:+ ":" +:+ LF +:+ LF
  +:+ content +:+ LF +:+ LF
  +:+ "If you'd like to retry the search, try changing the query to increase the likelihood of a match.".

Definition naive_error_text (query : string) : string :=
  search_results_heading query
  +:+ "An error occurred while searching the documentation. Please try again later.".

Definition searchRepositoryDocumentationNaive (P : Platform) (repoData : RepoData)
    (query : string) (env : CloudflareEnvironment) : M SearchDocResult :=
  let namespace := default (dots_to_underscores (host repoData)) (namespace repoData) in
  let project := default "docs" (project repoData) in
  try_catch
    (docResult <- fetchDocumentation P repoData env ;;
     match content docResult with
     | first :: _ =>
         let content := text first in
         ret {| sd_searchQuery := query;
                sd_content := [ {| type_ := "text";
                                   text := naive_text query namespace project content |} ] |}
     | [] => throw "TypeError: Cannot read properties of undefined (reading 'text')"
     end)
    (fun error =>
       ret {| sd_searchQuery := query;
              sd_content := [ {| type_ := "text"; text := naive_error_text query |} ] |}).

(** One hit of the AutoRAG search.  [ar_score] is the rendering
    [score.toFixed(2)], the only use of the score. *)
Record AutoRagItem : Type := mkAutoRagItem {
  ar_filename : string;
  ar_score : string;
  ar_content : list (option string)      (* the [text] of each part *)
}.

Record AutoRagAnswer : Type := mkAutoRagAnswer {
  ans_search_query : option string;
  ans_data : list AutoRagItem
}.

(** The fields of the search request that vary; the others are constants
    ([rewrite_query: true], [max_num_results: 12], [score_threshold: 0.4]). *)
Record AutoRagRequest : Type := mkAutoRagRequest {
  rq_query : string;
  rq_folder_gte : string;
  rq_folder_lte : string
}.

(** [env.AI.autorag(pipeline).search(request)]; [None] when it rejects.  The
    binding is passed beside the environment. *)
Definition AutoRag : Type := string -> AutoRagRequest -> option AutoRagAnswer.

(** [s.endsWith(suffix)] *)
Definition ends_with (suffix s : string) : bool :=
  (String.length suffix <=? String.length s)%nat
  && String.eqb (drop_chars (String.length s - String.length suffix) s) suffix.

Definition no_results_text (query : string) : string :=
  "No results found for: " +:+ DQUOTE +:+ query +:+ DQUOTE.

(** The lines added for one source. *)
Definition format_source (namespace project defaultBranch : string)
    (env : CloudflareEnvironment) (item : AutoRagItem) : string :=
  let rawUrl :=
    if ends_with ".ipynb.txt" (ar_filename item)
    then "https://pub-39b02ce1b5a441b2a4658c1fc71dbb9c.r2.dev/" +:+ namespace +:+ "/"
         +:+ project +:+ "/" +:+ ar_filename item
    else constructGitlabUrl namespace project defaultBranch
           (replace_first (namespace +:+ "/" +:+ project +:+ "/") "" (ar_filename item))
           env in
  LF +:+ "#### (" +:+ ar_filename item +:+ ")[" +:+ rawUrl +:+ "] (Score: "
  +:+ ar_score item +:+ ")" +:+ LF
  +:+ String.concat ""
        (List.map (fun content =>
                     if truthy_opt content then "- " +:+ default "" content +:+ LF else "")
           (ar_content item)).

Definition searchRepositoryDocumentationAutoRag (ai : AutoRag) (P : Platform)
    (repoData : RepoData) (query : string) (env : CloudflareEnvironment)
    (autoragPipeline : string) : M SearchDocResult :=
  if negb (truthy_opt (namespace repoData)) || negb (truthy_opt (project repoData)) then
    ret {| sd_searchQuery := query;
           sd_content := [ {| type_ := "text"; text := "No repository data provided" |} ] |}
  else
    let namespace := default "" (namespace repoData) in
    let project := default "" (project repoData) in
    let repoPrefix := namespace +:+ "/" +:+ project +:+ "/" in
    let searchRequest := {| rq_query := query; rq_folder_gte := repoPrefix;
                            rq_folder_lte := repoPrefix +:+ "~" |} in
    match ai autoragPipeline searchRequest with
    | None => throw "AutoRAG search rejected"
    | Some answer =>
        let responseText :=
          "## Query" +:+ LF +:+ LF +:+ query +:+ "." +:+ LF +:+ LF +:+ "## Response"
          +:+ LF +:+ LF in
        responseText <-
          (if (0 <? length (ans_data answer))%nat then
             let filteredData :=
               List.filter (fun item => is_prefix (namespace +:+ "/" +:+ project +:+ "/")
                                          (ar_filename item))
                 (ans_data answer) in
             if (0 <? length filteredData)%nat then
               let responseText :=
                 responseText +:+ "### Sources:" +:+ LF
                 +:+ "Important: you can fetch the full content of any source using the fetch_url_content tool"
                 +:+ LF in
               defaultBranch <- getRepoBranch P namespace project env ;;
               ret (responseText
                    +:+ String.concat ""
                          (List.map (format_source namespace project defaultBranch env)
                             filteredData))
             else ret (no_results_text query)
           else ret (no_results_text query)) ;;
        ret {| sd_searchQuery := if truthy_opt (ans_search_query answer)
                                 then default "" (ans_search_query answer) else query;
               sd_content := [ {| type_ := "text"; text := responseText |} ] |}
    end.

(** [autoragResult?.content[0]?.text?.startsWith("No results found") === false] *)
Definition has_results (autoragResult : SearchDocResult) : bool :=
  match sd_content autoragResult with
  | first :: _ => negb (is_prefix "No results found" (text first))
  | [] => false
  end.

(** [head] asks the bucket that [get] reads: an object is there exactly
    when [get] would return one. *)
Definition searchRepositoryDocumentation (ai : AutoRag) (P : Platform)
    (fallbackSearch : RepoData -> string -> CloudflareEnvironment -> M SearchDocResult)
    (repoData : RepoData) (query : string) (env : CloudflareEnvironment)
    : M SearchDocResult :=
  match DOCS_BUCKET env with
  | None => throw "DOCS_BUCKET is not available in environment"
  | Some bucket =>
      docsInR2 <-
        match bucket (template_null (namespace repoData) +:+ "/"
                      +:+ template_null (project repoData) +:+ "/llms.txt") with
        | R2Object _ => ret true
        | R2Missing => ret false
        | R2Throws => throw "R2 error"
        end ;;
      found <-
        (if docsInR2 : bool then
           try_catch
             (autoragResult <-
                searchRepositoryDocumentationAutoRag ai P repoData query env "docs-rag" ;;
              if has_results autoragResult then ret (Some autoragResult) else ret None)
             (fun error => ret None)
         else ret None) ;;
      match found with
      | Some autoragResult => ret autoragResult
      | None => fallbackSearch repoData query env
      end
  end.

(** ** Notions used to state the properties *)

(** A computation is [safe] when it never throws. *)
Definition safe {A} (m : M A) : Prop :=
  forall w, exists a w', m w = (Ok a, w').

(** A step of the world that writes nothing to the content cache: the
    cache is the same, time and the fetch counter do not go back, and the
    trace grows by events other than content-cache writes. *)
Definition quiet_event (e : Event) : Prop :=
  match e with
  | EvContentCachePut _ _ _ _ => False
  | _ => True
  end.

Record quiet (w w' : World) : Prop := mkQuiet {
  quiet_cache : contentCache w' = contentCache w;
  quiet_clock : now w <= now w';
  quiet_fetches : (fetches w <= fetches w')%nat;
  quiet_trace : exists evs, trace w' = (trace w ++ evs)%list /\ Forall quiet_event evs
}.

(** A computation all of whose steps are quiet. *)
Definition runs_quietly {A} (m : M A) : Prop :=
  forall w, quiet w (snd (m w)).

(** A property of every value a computation can return. *)
Definition yields {A} (m : M A) (Q : A -> Prop) : Prop :=
  forall w a w', m w = (Ok a, w') -> Q a.

(** The content cache holds entries for truthy names only. *)
Definition cache_keys_truthy (w : World) : Prop :=
  forall namespace project e,
    contentCache w !! (namespace, project) = Some e ->
    truthy namespace = true /\ truthy project = true.


(** Every strategy of the cascade fails, one after the other: the branch is
    resolved, no static path has content, the search for [llms.txt] finds
    nothing, the blob store has no entry, and no README matches. *)
Definition exhausted (P : Platform) (env : CloudflareEnvironment)
    (namespace project : string) (w : World) : Prop :=
  exists docsBranch w1 results w2 w3 blob w4 w5,
    getRepoBranch P namespace project env w = (Ok docsBranch, w1)
    /\ static_probe P namespace project docsBranch env w1 = (Ok results, w2)
    /\ Forall (fun r => truthy_opt (probe_content r) = false) results
    /\ searchGitLabRepo P namespace project "llms.txt" docsBranch env w2 = (Ok None, w3)
    /\ fetchFileFromR2 namespace project "llms.txt" env w3 = (Ok blob, w4)
    /\ truthy_opt blob = false
    /\ searchGitLabRepo P namespace project "README+path:/" docsBranch env w4
       = (Ok None, w5).

(** The sentinel of total exhaustion. *)
Definition sentinel : list TextContent :=
  [ {| type_ := "text"; text := "No documentation found." |} ].

(** The content-cache writes of a list of events: the results written. *)
Definition cache_writes (evs : list Event) : list FetchDocumentationResult :=
  omap (fun e => match e with
                 | EvContentCachePut _ _ result _ => Some result
                 | _ => None
                 end) evs.

Definition gitlab_repo (namespace project host : string) : RepoData :=
  {| namespace := Some namespace; project := Some project; host := host;
     urlType := gitlab |}.

(** *** The concurrent probe

    [Promise.all] resolves to an array that holds each value at the index
    of its promise.  [settled] lists the promises as they settle: the index
    of each and its value, in the order of completion. *)
Definition gather {A} (n : nat) (settled : list (nat * A)) : list (option A) :=
  List.fold_left (fun arr iv => <[fst iv := Some (snd iv)]> arr) settled
    (replicate n None).

(** The array once every promise has settled. *)
Definition gathered {A} (n : nat) (settled : list (nat * A)) : list A :=
  omap id (gather n settled).

(** The objects the probe builds, one per candidate, from the contents the
    fetches resolve to. *)
Definition probe_results (branch : string) (contents : list (option string))
  : list ProbeResult :=
  zip_with (fun location content =>
              {| probe_content := content; probe_location := location;
                 probe_branch := branch |})
    possibleLocations contents.

(** Each promise with its index in the array. *)
Definition indexed {A} (l : list A) : list (nat * A) := imap (fun i a => (i, a)) l.

(** The selection in the words of the specification: the first entry, in
    list order, whose content is non-empty. *)
Definition first_nonempty (results : list ProbeResult) : option ProbeResult :=
  List.find (fun r => truthy_opt (probe_content r)) results.

(** The first entry, in list order, whose content is not [null]. *)
Definition first_found (results : list ProbeResult) : option ProbeResult :=
  List.find (fun r => match probe_content r with Some _ => true | None => false end)
    results.

(** The rate tracker's [shouldThrottle()], in the words of the
    specification: [remaining < 5] and [resetTime] is set and in the
    future. *)
Definition shouldThrottle (w : World) : bool :=
  jnum_lt (remaining (apiRateLimit w)) (Num 5)
  && match resetTime (apiRateLimit w) with
     | Some reset => jnum_gt (jnum_sub reset (Num (now w))) (Num 0)
     | None => false
     end.

(** [observe] in the words of the specification: each field is updated
    from its header when the header is present, and kept otherwise. *)
Definition observe_present (headers : Headers) (rl : RateLimitInfo) : RateLimitInfo :=
  {| remaining :=
       match headers_get headers "ratelimit-remaining" with
       | Some v => parseInt v
       | None => remaining rl
       end;
     resetTime :=
       match headers_get headers "ratelimit-reset" with
       | Some v => Some (Date_of (jnum_mul (parseInt v) (Num 1000)))
       | None => resetTime rl
       end;
     limit :=
       match headers_get headers "ratelimit-limit" with
       | Some v => parseInt v
       | None => limit rl
       end |}.

(** The value a field takes from the header [name]: parsed from it when the
    header is present with a non-empty value, the old one otherwise. *)
Definition updated_from {A} (headers : Headers) (name : string)
    (parse : string -> A) (old : A) : A :=
  match headers_get headers name with
  | Some v => if truthy v then parse v else old
  | None => old
  end.

(** The requests of a trace, oldest first. *)
Definition fetched (t : list Event) : list Request :=
  omap (fun e => match e with EvFetch req => Some req | _ => None end) t.

(** ** Sample platforms and worlds *)

Definition world_init : World :=
  {| now := 1700000000000; apiRateLimit := apiRateLimit_init; fetches := 0;
     contentCache := ∅; trace := [] |}.

Definition sample_env : CloudflareEnvironment :=
  {| GITLAB_TOKEN := Some "glpat-secret"; GITLAB_API_BASE_URL := None;
     CLOUDFLARE_ANALYTICS := false; MY_QUEUE := Some true;
     DOCS_BUCKET := Some (fun _ => R2Missing) |}.

Definition response_of (st : Z) (text : string) (j : option Json) : Response :=
  {| status := st; statusText := ""; resp_headers := []; body := Some text; json := j |}.

Definition platform_of (net : nat -> Request -> FetchOutcome) : Platform :=
  {| network := net;
     latency := fun _ => 0%nat;
     encodeURIComponent := fun s => s;
     extractRepoContextFromUrl := fun _ => "unknown/unknown";
     htmlToMd := Some;
     fetchFileWithRobotsTxtCheck :=
       fun _ => Some {| robots_content := None; blockedByRobots := false |};
     getCachedFilePath := fun _ _ _ => None;
     Headers_accepts := fun _ => true;
     String_trim := trim_ascii |}.

(** Throttled on the first fetch, served on the second. *)
Definition throttled_once : Platform :=
  platform_of (fun k _ => if (k =? 0)%nat
                          then Responded (response_of 429 "Retry later" None)
                          else Responded (response_of 200 "# docs" None)).

(** No response to the first fetch, served on the second. *)
Definition fails_once : Platform :=
  platform_of (fun k _ => if (k =? 0)%nat
                          then NetworkError "fetch failed"
                          else Responded (response_of 200 "# docs" None)).

Definition always_throttled : Platform :=
  platform_of (fun _ _ => Responded (response_of 429 "Retry later" None)).


Definition not_found : Platform :=
  platform_of (fun _ _ => Responded (response_of 404 "Not Found" None)).

Definition raw_url : string := "https://gitlab.com/acme/widgets/-/raw/main/llms.txt".

(** Quota nearly used up, and a reset time one second in the past. *)
Definition stale_world : World :=
  set_apiRateLimit
    {| remaining := Num 3; resetTime := Some (Num 1699999999000); limit := Num 2000 |}
    world_init.

(** A blob search that answers with one exact hit and two near misses. *)
Definition search_hits : list SearchItem :=
  [ {| item_filename := Some "docs/llms.txt.bak"; item_path := Some "docs/llms.txt.bak";
       item_project_id := Some 7; item_ref := Some "main" |};
    {| item_filename := None; item_path := Some "docs/llms.txt";
       item_project_id := Some 7; item_ref := None |};
    {| item_filename := Some "my-llms.txt"; item_path := Some "my-llms.txt";
       item_project_id := Some 7; item_ref := Some "main" |} ].

Definition searchable : Platform :=
  platform_of (fun _ _ => Responded (response_of 200 "" (Some (JItems search_hits)))).

(** A repository whose root [llms.txt] exists on [main]; every other
    request is answered 404. *)
Definition documented : Platform :=
  platform_of (fun _ req => if String.eqb (req_url req) raw_url
                            then Responded (response_of 200 "# Widgets" None)
                            else Responded (response_of 404 "Not Found" None)).

(** A repository with an empty [docs/docs/llms.txt] and a real [llms.txt]
    at its root; every other request is answered 404. *)
Definition empty_shadow : Platform :=
  platform_of
    (fun _ req =>
       if String.eqb (req_url req)
            "https://gitlab.com/acme/widgets/-/raw/main/docs/docs/llms.txt"
       then Responded (response_of 200 "" None)
       else if String.eqb (req_url req) raw_url
       then Responded (response_of 200 "# Widgets" None)
       else Responded (response_of 404 "Not Found" None)).



(** ** Further notions *)

(** The content cache holds documents only: every value is one text part
    with non-empty text. *)
Definition cache_holds_documents (w : World) : Prop :=
  forall key e,
    contentCache w !! key = Some e ->
    exists fileUsed text, value e = text_result fileUsed text /\ truthy text = true.

(** A computation that makes at most [n] fetches. *)
Definition fetches_within {A} (n : nat) (m : M A) : Prop :=
  forall w, (fetches w <= fetches (snd (m w)) <= fetches w + n)%nat.

(** A computation whose new events all satisfy [Q]. *)
Definition emits {A} (Q : Event -> Prop) (m : M A) : Prop :=
  forall w, exists evs, trace (snd (m w)) = (trace w ++ evs)%list /\ Forall Q evs.

(** [Q] admits what every call of the client does besides fetching: timers
    and analytics points. *)
Definition allows_timers (Q : Event -> Prop) : Prop :=
  (forall ms, Q (EvSleep ms)) /\ (forall index blobs doubles, Q (EvAnalytics index blobs doubles)).

(** What every request of a call [gitlabApiRequest(url, options, ...)]
    has in common. *)
Definition request_for (url : string) (options : RequestInit)
    (env : CloudflareEnvironment) (req : Request) : Prop :=
  req_url req = url
  /\ req_method req = ri_method options
  /\ headers_get (req_headers req) "Accept" = Some "application/json"
  /\ headers_get (req_headers req) "User-Agent" = Some USER_AGENT
  /\ (truthy_opt (GITLAB_TOKEN env) = false ->
      headers_get (req_headers req) "PRIVATE-TOKEN"
      = headers_get (default [] (ri_headers options)) "PRIVATE-TOKEN").

(** The URLs through which a resolver reads the repository
    [namespace/project]: raw files of the repository, and the project's
    endpoints of the API, both on the configured instance. *)
Definition repo_url (P : Platform) (env : CloudflareEnvironment)
    (namespace project url : string) : bool :=
  is_prefix (getGitLabBaseUrl env +:+ "/" +:+ namespace +:+ "/" +:+ project
             +:+ "/-/raw/") url
  || is_prefix (getGitLabApiBaseUrl env +:+ "/projects/"
                +:+ encodeProjectPath P namespace project) url.

(** The path-cache writes of a list of events. *)
Definition path_writes (evs : list Event)
  : list (string * string * string * string * string) :=
  omap (fun e => match e with
                 | EvPathCachePut namespace project filename filePath branch =>
                     Some (namespace, project, filename, filePath, branch)
                 | _ => None
                 end) evs.

(** The queue messages of a list of events. *)
Definition queue_sends (evs : list Event) : list QueueMessage :=
  omap (fun e => match e with EvQueueSend msg => Some msg | _ => None end) evs.

(** A platform whose path cache already holds the path of [llms.txt] for
    every repository, and on which only that file exists. *)
Definition path_cached : Platform :=
  {| network := fun _ req => if String.eqb (req_url req) raw_url
                             then Responded (response_of 200 "# Widgets" None)
                             else Responded (response_of 404 "Not Found" None);
     latency := fun _ => 0%nat;
     encodeURIComponent := fun s => s;
     extractRepoContextFromUrl := fun _ => "unknown/unknown";
     htmlToMd := Some;
     fetchFileWithRobotsTxtCheck :=
       fun _ => Some {| robots_content := None; blockedByRobots := false |};
     getCachedFilePath :=
       fun _ _ _ => Some {| cp_path := "llms.txt"; cp_branch := "main" |};
     Headers_accepts := fun _ => true;
     String_trim := trim_ascii |}.

(** The URL of one page of the blob search. *)
Definition code_search_url (P : Platform) (env : CloudflareEnvironment)
    (query namespace project : string) (page perPage : JNum) : string :=
  getGitLabApiBaseUrl env +:+ "/projects/" +:+ encodeProjectPath P namespace project
  +:+ "/search?scope=blobs&search=" +:+ encodeURIComponent P query
  +:+ "&page=" +:+ number_to_string page
  +:+ "&per_page=" +:+ number_to_string perPage.


(** Every character of the string passes the test. *)
Fixpoint all_chars (f : ascii -> bool) (s : string) : bool :=
  match s with
  | EmptyString => true
  | String c rest => f c && all_chars f rest
  end.

(** The characters of a tool name. *)
Definition tool_name_char (c : ascii) : bool := is_alphanumeric c || Ascii.eqb c "_".

(** The string holds no [sep]. *)
Definition lacks (sep : ascii) (s : string) : bool :=
  all_chars (fun c => negb (Ascii.eqb c sep)) s.

(** The shorter suffix that [enforceToolNameLengthLimit] falls back to. *)
Definition shorter (suffix : string) : string :=
  if String.eqb suffix "_documentation" then "_docs" else suffix.

(** The hosts on which a path names a GitLab repository. *)
Definition gitlab_host (requestHost : string) : bool :=
  String.eqb requestHost "gitmcp.io"
  || String.eqb requestHost HOST_TEMP_URL
  || String.eqb requestHost "git-mcp.idosalomon.workers.dev"
  || String.eqb requestHost "git.esempla.systems"
  || includes "localhost" requestHost.

(** A server name made of the project and a fixed ending, and a URL parser
    for paths without query, used to run the code on examples. *)
Definition sample_server_name (project : string) : Res string := Ok (project +:+ " Docs").

Fixpoint skip_to_slash (s : string) : string :=
  match s with
  | String c rest => if Ascii.eqb c "/" then s else skip_to_slash rest
  | EmptyString => "/"
  end.

Definition sample_pathname (url : string) : option string :=
  if is_prefix "https://" url then Some (skip_to_slash (drop_chars 8 url))
  else if is_prefix "http://" url then Some (skip_to_slash (drop_chars 7 url))
  else None.

(** The non-empty segments of a path. *)
Definition segments (pathname : string) : list string :=
  List.filter truthy (split_on "/" pathname).

Definition sample_request : RequestData :=
  {| requestHost := "gitmcp.io"; requestUrl := Some "/acme/tools//widgets/" |}.

(** Does the hit belong to the repository. *)
Definition in_repo (namespace project : string) (item : AutoRagItem) : bool :=
  is_prefix (namespace +:+ "/" +:+ project +:+ "/") (ar_filename item).

(** The request that [searchRepositoryDocumentationAutoRag] sends. *)
Definition autorag_request (repoData : RepoData) (query : string) : AutoRagRequest :=
  let repoPrefix := default "" (namespace repoData) +:+ "/"
                    +:+ default "" (project repoData) +:+ "/" in
  {| rq_query := query; rq_folder_gte := repoPrefix; rq_folder_lte := repoPrefix +:+ "~" |}.

(** An index that answers every search with one hit of [acme/widgets] and
    one of another repository; and a site that serves one HTML page. *)
Definition sample_index : AutoRag :=
  fun _ _ =>
    Some {| ans_search_query := None;
            ans_data := [ {| ar_filename := "acme/widgets/docs/setup.md";
                             ar_score := "0.87";
                             ar_content := [Some "Run the installer."; None] |};
                          {| ar_filename := "acme/widgets-pro/README.md";
                             ar_score := "0.91";
                             ar_content := [Some "Licensed edition."] |} ] |}.

Definition indexed_env : CloudflareEnvironment :=
  {| GITLAB_TOKEN := None; GITLAB_API_BASE_URL := None;
     CLOUDFLARE_ANALYTICS := false; MY_QUEUE := None;
     DOCS_BUCKET := Some (fun _ => R2Object "# Widgets") |}.

(** The URLs that were fetched under the robots.txt check. *)
Definition robots_fetches (evs : list Event) : list string :=
  omap (fun e => match e with EvRobotsFetch url => Some url | _ => None end) evs.

(** The base URL of the Pages site of a repository. *)
Definition pages_base (repoData : RepoData) : string :=
  "https://" +:+ (template_null (namespace repoData) +:+ ".gitlab.io")
  +:+ (if truthy_opt (project repoData) then "/" +:+ default "" (project repoData) else "")
  +:+ "/".

Definition robots_notice : FetchDocumentationResult :=
  text_result "robots.txt restriction"
    "Access to this GitLab Pages site is restricted by robots.txt. GitMCP respects robots.txt directives.".

(** The fetch was answered, and the answer was that robots.txt forbids it. *)
Definition blocked_at (P : Platform) (url : string) : Prop :=
  exists r, fetchFileWithRobotsTxtCheck P url = Some r /\ blockedByRobots r = true.

(** A Pages site without [llms.txt] whose landing page is closed to robots. *)
Definition closed_pages : Platform :=
  {| network := fun _ _ => NetworkError "offline";
     latency := fun _ => 0%nat;
     encodeURIComponent := fun s => s;
     extractRepoContextFromUrl := fun _ => "unknown/unknown";
     htmlToMd := Some;
     fetchFileWithRobotsTxtCheck :=
       fun url => if String.eqb url "https://acme.gitlab.io/widgets/"
                  then Some {| robots_content := None; blockedByRobots := true |}
                  else Some {| robots_content := None; blockedByRobots := false |};
     getCachedFilePath := fun _ _ _ => None;
     Headers_accepts := fun _ => true;
     String_trim := trim_ascii |}.

Definition pages_site : RepoData :=
  {| namespace := Some "acme"; project := Some "widgets";
     host := "acme.gitmcp.io"; urlType := subdomain |}.

(** The keys that were read from the bucket. *)
Definition r2_reads (evs : list Event) : list string :=
  omap (fun e => match e with EvR2Get key => Some key | _ => None end) evs.

(** An event that asks nothing of GitLab, the bucket or the path cache. *)
Definition asks_nothing (e : Event) : Prop :=
  match e with
  | EvFetch _ | EvR2Get _ | EvPathCachePut _ _ _ _ _ | EvRobotsFetch _ => False
  | _ => True
  end.

(** [response.text()] rejects. *)
Definition unreadable (r : Response) : bool :=
  match body r with
  | Some _ => false
  | None => true
  end.

(** How the last attempt of a call decides what is returned; [retries] is
    the number of attempts before it. *)
Definition decided_by (res : option Response) (last : FetchOutcome)
    (retryCount retries : nat) : Prop :=
  match last with
  | NetworkError _ => res = None /\ (3 <= retryCount + retries)%nat
  | Responded r =>
      if (status r =? 429) && unreadable r
      then res = None /\ (3 <= retryCount + retries)%nat
      else res = Some r /\ (status r = 429 -> (3 <= retryCount + retries)%nat)
  end.

(** Throttled at every fetch, with a body that cannot be read. *)
Definition throttled_unreadable : Platform :=
  platform_of (fun _ _ => Responded {| status := 429; statusText := "Too Many Requests";
                                       resp_headers := []; body := None;
                                       json := None |}).

(** The sample environment with a queue whose [send] rejects. *)
Definition rejecting_queue_env : CloudflareEnvironment :=
  {| GITLAB_TOKEN := Some "glpat-secret"; GITLAB_API_BASE_URL := None;
     CLOUDFLARE_ANALYTICS := false; MY_QUEUE := Some false;
     DOCS_BUCKET := Some (fun _ => R2Missing) |}.

(** *** The name of a search hit

    [name] is the last segment of the path [p]: it holds no slash, and [p]
    is [name] or ends with a slash followed by [name]. *)
Definition last_segment_is (name p : string) : Prop :=
  has_slash name = false /\ (p = name \/ exists dir, p = dir +:+ "/" +:+ name).

(** The hit is named [name]: its [filename], when it has a non-empty one,
    is [name]; otherwise [name] is the last segment of its [path]. *)
Definition named_exactly (name : string) (item : SearchItem) : Prop :=
  match item_filename item with
  | Some (String c f) => String c f = name
  | _ => exists p, item_path item = Some p /\ last_segment_is name p
  end.

(** A repository whose root [llms.txt] is answered 200 with a body that
    cannot be read (the connection is lost while the body streams); every
    other request is answered 404. *)
Definition interrupted_docs : Platform :=
  platform_of (fun _ req => if String.eqb (req_url req) raw_url
                            then Responded {| status := 200; statusText := "OK";
                                              resp_headers := []; body := None;
                                              json := None |}
                            else Responded (response_of 404 "Not Found" None)).

(** The events a resolution may log, by branch: a request of the governed
    client in the GitLab branch only, a robots-checked fetch in the Pages
    branch only. *)
Definition of_branch (t : UrlType) (e : Event) : Prop :=
  match e with
  | EvFetch _ => t = gitlab
  | EvRobotsFetch _ => t = subdomain
  | _ => True
  end.

(** The events that follow the cascade. *)
Definition after_cascade (e : Event) : Prop :=
  match e with
  | EvQueueSend _ | EvContentCachePut _ _ _ _ => True
  | _ => False
  end.

(** * Properties *)

Example parseInt_ex1 : parseInt "42" = Num 42.
Proof. reflexivity. Qed.
Example parseInt_ex2 : parseInt "  -17abc" = Num (-17).
Proof. reflexivity. Qed.
Example parseInt_ex3 : parseInt "abc" = NaN.
Proof. reflexivity. Qed.
Example parseInt_ex4 : parseInt "" = NaN.
Proof. reflexivity. Qed.
Example split_pop_ex1 : split_pop "docs/a/llms.txt" = "llms.txt".
Proof. reflexivity. Qed.
Example split_pop_ex2 : split_pop "docs/" = "".
Proof. reflexivity. Qed.
Example replace_first_ex : replace_first "/api/v4" "" "https://gitlab.com/api/v4" = "https://gitlab.com".
Proof. reflexivity. Qed.

(** ** Reasoning about computations *)

Lemma bind_ok {A B} (m : M A) (k : A -> M B) w a w1 :
  m w = (Ok a, w1) -> bind m k w = k a w1.
Proof. intros H. unfold bind. now rewrite H. Qed.

Lemma bind_throw {A B} (m : M A) (k : A -> M B) w e w1 :
  m w = (Throw e, w1) -> bind m k w = (Throw e, w1).
Proof. intros H. unfold bind. now rewrite H. Qed.

Lemma try_catch_ok {A} (m : M A) h w a w1 :
  m w = (Ok a, w1) -> try_catch m h w = (Ok a, w1).
Proof. intros H. unfold try_catch. now rewrite H. Qed.

Lemma try_catch_throw {A} (m : M A) h w e w1 :
  m w = (Throw e, w1) -> try_catch m h w = h e w1.
Proof. intros H. unfold try_catch. now rewrite H. Qed.

Lemma safe_ret {A} (a : A) : safe (ret a).
Proof. intros w. now exists a, w. Qed.

Lemma safe_bind {A B} (m : M A) (k : A -> M B) :
  safe m -> (forall a, safe (k a)) -> safe (bind m k).
Proof.
  intros Hm Hk w. destruct (Hm w) as (a & w1 & E).
  rewrite (bind_ok _ _ _ _ _ E). apply Hk.
Qed.

Lemma safe_try_catch {A} (m : M A) h :
  (forall e, safe (h e)) -> safe (try_catch m h).
Proof.
  intros Hh w. unfold try_catch.
  destruct (m w) as [[a|e] w1]; [now exists a, w1 | apply Hh].
Qed.

Lemma safe_emit e : safe (emit e).
Proof. intros w. now eexists _, _. Qed.

Lemma safe_sleep ms : safe (sleep ms).
Proof. intros w. now eexists _, _. Qed.

Lemma safe_when b m : safe m -> safe (when b m).
Proof. intros H. destruct b; [exact H | apply safe_ret]. Qed.

Lemma safe_Date_now : safe Date_now.
Proof. intros w. now eexists _, _. Qed.

Lemma safe_get_apiRateLimit : safe get_apiRateLimit.
Proof. intros w. now eexists _, _. Qed.

Lemma safe_observe_headers h : safe (observe_headers h).
Proof. intros w. now eexists _, _. Qed.

Create HintDb safe_db.
#[local] Hint Resolve safe_ret safe_emit safe_sleep safe_when safe_Date_now
  safe_get_apiRateLimit safe_observe_headers : safe_db.

(** Decompose a goal [safe m] along the syntax of [m]. *)
Ltac safe_step :=
  lazymatch goal with
  | |- safe (bind _ _) => apply safe_bind; [| intros ?]
  | |- safe (try_catch _ _) => apply safe_try_catch; intros ?
  | |- safe (if ?b then _ else _) => destruct b eqn:?
  | |- safe (match ?x with _ => _ end) => destruct x eqn:?
  | |- _ => solve [auto with safe_db]
  end.
Ltac safe_tac := cbv zeta; repeat safe_step.

Lemma quiet_refl w : quiet w w.
Proof.
  split; try reflexivity; try lia.
  exists []. split; [now rewrite app_nil_r | constructor].
Qed.

Lemma quiet_trans w1 w2 w3 : quiet w1 w2 -> quiet w2 w3 -> quiet w1 w3.
Proof.
  intros [c1 t1 f1 (e1 & E1 & F1)] [c2 t2 f2 (e2 & E2 & F2)]. split.
  - congruence.
  - lia.
  - lia.
  - exists (e1 ++ e2)%list. split.
    + rewrite E2, E1. now rewrite app_assoc.
    + now apply Forall_app.
Qed.

Lemma quietly_ret {A} (a : A) : runs_quietly (ret a).
Proof. intros w. apply quiet_refl. Qed.

Lemma quietly_throw {A} e : runs_quietly (@throw A e).
Proof. intros w. apply quiet_refl. Qed.

Lemma quietly_bind {A B} (m : M A) (k : A -> M B) :
  runs_quietly m -> (forall a, runs_quietly (k a)) -> runs_quietly (bind m k).
Proof.
  intros Hm Hk w. specialize (Hm w). unfold bind.
  destruct (m w) as [[a|e] w1]; cbn in *; [| exact Hm].
  eapply quiet_trans; [exact Hm | apply Hk].
Qed.

Lemma quietly_try_catch {A} (m : M A) h :
  runs_quietly m -> (forall e, runs_quietly (h e)) -> runs_quietly (try_catch m h).
Proof.
  intros Hm Hh w. specialize (Hm w). unfold try_catch.
  destruct (m w) as [[a|e] w1]; cbn in *; [exact Hm |].
  eapply quiet_trans; [exact Hm | apply Hh].
Qed.

Lemma quiet_log_event e w : quiet_event e -> quiet w (log_event e w).
Proof.
  intros He. split; cbn; try reflexivity; try lia.
  exists [e]. split; [reflexivity | now repeat constructor].
Qed.

Lemma quietly_emit e : quiet_event e -> runs_quietly (emit e).
Proof. intros He w. now apply quiet_log_event. Qed.

Lemma quietly_sleep ms : runs_quietly (sleep ms).
Proof.
  intros w. cbn. split; cbn; try reflexivity; try lia.
  - destruct ms; cbn; lia.
  - exists [EvSleep ms]. split; [reflexivity | now repeat constructor].
Qed.

Lemma quietly_fetch P req : runs_quietly (fetch P req).
Proof.
  intros w. unfold fetch.
  assert (quiet w (set_now (now w + Z.of_nat (latency P (fetches w)))
                     (set_fetches (S (fetches w)) (log_event (EvFetch req) w)))).
  { split; cbn; try reflexivity; try lia.
    exists [EvFetch req]. split; [reflexivity | now repeat constructor]. }
  destruct (network P (fetches w) req); exact H.
Qed.

Lemma quietly_when b m : runs_quietly m -> runs_quietly (when b m).
Proof. intros H. destruct b; [exact H | apply quietly_ret]. Qed.

Lemma quietly_Date_now : runs_quietly Date_now.
Proof. intros w. apply quiet_refl. Qed.

Lemma quietly_get_apiRateLimit : runs_quietly get_apiRateLimit.
Proof. intros w. apply quiet_refl. Qed.

Lemma quietly_observe_headers h : runs_quietly (observe_headers h).
Proof.
  intros w. cbn. split; cbn; try reflexivity; try lia.
  exists []. split; [now rewrite app_nil_r | constructor].
Qed.

Lemma quietly_response_text r : runs_quietly (response_text r).
Proof. unfold response_text. destruct (body r); intros w; apply quiet_refl. Qed.

Create HintDb quiet_db.
#[local] Hint Resolve quietly_ret quietly_throw quietly_sleep quietly_fetch
  quietly_when quietly_Date_now quietly_get_apiRateLimit quietly_observe_headers
  quietly_response_text : quiet_db.
#[local] Hint Extern 1 (runs_quietly (emit _)) =>
  (apply quietly_emit; exact I) : quiet_db.

Ltac quiet_step :=
  lazymatch goal with
  | |- runs_quietly (bind _ _) => apply quietly_bind; [| intros ?]
  | |- runs_quietly (try_catch _ _) => apply quietly_try_catch; [| intros ?]
  | |- runs_quietly (if ?b then _ else _) => destruct b eqn:?
  | |- runs_quietly (match ?x with _ => _ end) => destruct x eqn:?
  | |- _ => solve [auto with quiet_db]
  end.
Ltac quiet_tac := cbv zeta; repeat quiet_step.

Lemma yields_ret {A} (a : A) (Q : A -> Prop) : Q a -> yields (ret a) Q.
Proof. intros H w a' w' E. inversion E. now subst. Qed.

Lemma yields_throw {A} e (Q : A -> Prop) : yields (throw e) Q.
Proof. intros w a' w' E. inversion E. Qed.

Lemma yields_bind {A B} (m : M A) (k : A -> M B) (R : A -> Prop) (Q : B -> Prop) :
  yields m R -> (forall a, R a -> yields (k a) Q) -> yields (bind m k) Q.
Proof.
  intros Hm Hk w b w' E. unfold bind in E.
  destruct (m w) as [[a|e] w1] eqn:Em; [| discriminate].
  eapply Hk; [eapply Hm; exact Em | exact E].
Qed.

Lemma yields_try_catch {A} (m : M A) h (Q : A -> Prop) :
  yields m Q -> (forall e, yields (h e) Q) -> yields (try_catch m h) Q.
Proof.
  intros Hm Hh w a w' E. unfold try_catch in E.
  destruct (m w) as [[a1|e] w1] eqn:Em.
  - inversion E. subst. eapply Hm. exact Em.
  - eapply Hh. exact E.
Qed.

Lemma yields_True {A} (m : M A) : yields m (fun _ => True).
Proof. intros w a w' _. exact I. Qed.

(** ** The governed HTTP client never throws and writes no cache entry *)

Lemma safe_respectRateLimits : safe respectRateLimits.
Proof. unfold respectRateLimits. safe_tac. Qed.

Lemma quietly_respectRateLimits : runs_quietly respectRateLimits.
Proof. unfold respectRateLimits. quiet_tac. Qed.

#[local] Hint Resolve safe_respectRateLimits : safe_db.
#[local] Hint Resolve quietly_respectRateLimits : quiet_db.

Lemma safe_gitlabApiRequest_body P self url options env retryCount useAuth :
  (forall u o e r a, safe (self u o e r a)) ->
  safe (gitlabApiRequest_body P self url options env retryCount useAuth).
Proof. intros Hself. unfold gitlabApiRequest_body. safe_tac. Qed.

Lemma quietly_gitlabApiRequest_body P self url options env retryCount useAuth :
  (forall u o e r a, runs_quietly (self u o e r a)) ->
  runs_quietly (gitlabApiRequest_body P self url options env retryCount useAuth).
Proof. intros Hself. unfold gitlabApiRequest_body. quiet_tac. Qed.

Lemma safe_gitlabApiRequest_aux P budget :
  forall url options env retryCount useAuth,
    safe (gitlabApiRequest_aux P budget url options env retryCount useAuth).
Proof.
  induction budget as [|b IH]; intros; cbn [gitlabApiRequest_aux];
    apply safe_gitlabApiRequest_body; intros; auto with safe_db.
Qed.

Lemma quietly_gitlabApiRequest_aux P budget :
  forall url options env retryCount useAuth,
    runs_quietly (gitlabApiRequest_aux P budget url options env retryCount useAuth).
Proof.
  induction budget as [|b IH]; intros; cbn [gitlabApiRequest_aux];
    apply quietly_gitlabApiRequest_body; intros; auto with quiet_db.
Qed.

Lemma gitlabApiRequest_safe P url options env retryCount useAuth :
  safe (gitlabApiRequest P url options env retryCount useAuth).
Proof. apply safe_gitlabApiRequest_aux. Qed.

Lemma gitlabApiRequest_quiet P url options env retryCount useAuth :
  runs_quietly (gitlabApiRequest P url options env retryCount useAuth).
Proof. apply quietly_gitlabApiRequest_aux. Qed.

#[local] Hint Resolve gitlabApiRequest_safe : safe_db.
#[local] Hint Resolve gitlabApiRequest_quiet : quiet_db.

(** ** The recursion of [gitlabApiRequest] *)

Lemma bind_ext {A B} (m : M A) (k1 k2 : A -> M B) w :
  (forall a w', k1 a w' = k2 a w') -> bind m k1 w = bind m k2 w.
Proof. intros H. unfold bind. destruct (m w) as [[a|e] w1]; [apply H | reflexivity]. Qed.

Lemma try_catch_ext {A} (m1 m2 : M A) h1 h2 w :
  (forall w', m1 w' = m2 w') -> (forall e w', h1 e w' = h2 e w') ->
  try_catch m1 h1 w = try_catch m2 h2 w.
Proof.
  intros Hm Hh. unfold try_catch. rewrite Hm.
  destruct (m2 w) as [[a|e] w1]; [reflexivity | apply Hh].
Qed.

(** The body calls [self] only for a retry: with the same [url], [options]
    and [env], the next counter, and [useAuth = true]. *)
Lemma gitlabApiRequest_body_ext P self1 self2 url options env retryCount useAuth w :
  ((retryCount < MAX_RETRIES)%nat ->
   forall w', self1 url options env (retryCount + 1)%nat true w'
              = self2 url options env (retryCount + 1)%nat true w') ->
  gitlabApiRequest_body P self1 url options env retryCount useAuth w
  = gitlabApiRequest_body P self2 url options env retryCount useAuth w.
Proof.
  intros H. unfold gitlabApiRequest_body. apply try_catch_ext.
  - intros w0. cbv zeta. repeat (apply bind_ext; intros).
    destruct (status _ =? 429); [| reflexivity].
    repeat (apply bind_ext; intros).
    destruct (Nat.ltb_spec retryCount MAX_RETRIES); [| reflexivity].
    repeat (apply bind_ext; intros). now apply H.
  - intros e w0.
    destruct (Nat.ltb_spec retryCount MAX_RETRIES); [| reflexivity].
    apply bind_ext; intros. now apply H.
Qed.

(** The function satisfies the equation of its source text. *)
Lemma gitlabApiRequest_unfold P url options env retryCount useAuth w :
  gitlabApiRequest P url options env retryCount useAuth w
  = gitlabApiRequest_body P (gitlabApiRequest P) url options env retryCount useAuth w.
Proof.
  unfold gitlabApiRequest at 1.
  destruct (MAX_RETRIES - retryCount)%nat as [|b] eqn:E; cbn [gitlabApiRequest_aux];
    apply gitlabApiRequest_body_ext; intros Hlt w'.
  - unfold MAX_RETRIES in *. lia.
  - unfold gitlabApiRequest.
    replace (MAX_RETRIES - (retryCount + 1))%nat with b
      by (unfold MAX_RETRIES in *; lia).
    reflexivity.
Qed.

Lemma fetch_cases P req w :
  (exists e, network P (fetches w) req = NetworkError e
             /\ fetch P req w = (Throw e, snd (fetch P req w)))
  \/ (exists r, network P (fetches w) req = Responded r
              /\ fetch P req w = (Ok r, snd (fetch P req w))).
Proof.
  unfold fetch. destruct (network P (fetches w) req) as [e|r]; [left | right];
    eexists; split; reflexivity.
Qed.

Lemma fetches_after_fetch P req w : fetches (snd (fetch P req w)) = S (fetches w).
Proof. unfold fetch. destruct (network P (fetches w) req); reflexivity. Qed.

Lemma unreadable_text r w :
  response_text r w
  = if unreadable r then (Throw "TypeError: the body could not be read", w)
    else (Ok (default "" (body r)), w).
Proof. unfold response_text, unreadable. now destruct (body r). Qed.

(** One attempt.  [w0] is the world in which the headers are built and the
    request is sent.  An exception in the [try] (the headers are rejected,
    [fetch] gets no response, the body of a 429 cannot be read) ends in the
    [catch]: 2000 ms and a retry, or [null]. *)
Lemma gitlabApiRequest_body_step P self url options env retryCount useAuth w :
  (forall u o e r a, safe (self u o e r a)) ->
  exists w0,
    fetches w0 = fetches w /\ quiet w w0 /\
    let req := request_of url options env useAuth in
    let w1 := snd (fetch P req w0) in
    let caught := fun ws =>
      if (retryCount <? MAX_RETRIES)%nat
      then self url options env (retryCount + 1)%nat true (snd (sleep (Num 2000) ws))
      else (Ok None, ws) in
    if headers_rejected P options then
      gitlabApiRequest_body P self url options env retryCount useAuth w = caught w0
    else
      match network P (fetches w) req with
      | NetworkError _ =>
          gitlabApiRequest_body P self url options env retryCount useAuth w = caught w1
      | Responded r =>
          if status r =? 429 then
            if unreadable r then
              gitlabApiRequest_body P self url options env retryCount useAuth w
              = caught (snd (observe_headers (resp_headers r) w1))
            else
              exists w3,
                quiet w1 w3 /\ fetches w3 = fetches w1 /\ now w3 = now w1 /\
                apiRateLimit w3
                = updateRateLimitFromHeaders (resp_headers r) (apiRateLimit w1) /\
                gitlabApiRequest_body P self url options env retryCount useAuth w
                = if (retryCount <? MAX_RETRIES)%nat
                  then self url options env (retryCount + 1)%nat true
                         (snd (sleep (backoff_429 w3) w3))
                  else (Ok (Some r), w3)
          else
            gitlabApiRequest_body P self url options env retryCount useAuth w
            = (Ok (Some r), snd (observe_headers (resp_headers r) w1))
      end.
Proof.
  intros Hself.
  set (pre := when (CLOUDFLARE_ANALYTICS env && (retryCount =? 0)%nat)
                (emit (EvAnalytics "gitlab_api_request"
                         [url; extractRepoContextFromUrl P url] [1]))).
  assert (Hpre : exists wa, pre w = (Ok tt, wa) /\ fetches wa = fetches w /\ quiet w wa).
  { unfold pre. destruct (CLOUDFLARE_ANALYTICS env && (retryCount =? 0)%nat); cbn.
    - eexists. split; [reflexivity |]. split; [reflexivity |].
      now apply quiet_log_event.
    - exists w. split; [reflexivity |]. split; [reflexivity | apply quiet_refl]. }
  destruct Hpre as (wa & Ea & Fa & Qa).
  assert (Hr : exists w0, respectRateLimits wa = (Ok tt, w0)
                          /\ fetches w0 = fetches wa /\ quiet wa w0).
  { pose proof (quietly_respectRateLimits wa) as Q.
    destruct (safe_respectRateLimits wa) as ([] & w0 & E0). rewrite E0 in Q. cbn in Q.
    exists w0. split; [exact E0 |]. split; [| exact Q].
    revert E0. unfold respectRateLimits, bind, get_apiRateLimit, Date_now, sleep, ret.
    destruct (jnum_lt _ _); [destruct (resetTime _); [destruct (jnum_gt _ _) |] |];
      intros E0; inversion E0; reflexivity. }
  destruct Hr as (w0 & E0 & F0 & Q0).
  exists w0. split; [congruence |]. split; [eapply quiet_trans; eassumption |].
  cbv zeta. set (req := request_of url options env useAuth).
  replace (fetches w) with (fetches w0) by congruence.
  unfold gitlabApiRequest_body. fold pre. fold req. unfold try_catch.
  rewrite (bind_ok _ _ _ _ _ Ea), (bind_ok _ _ _ _ _ E0).
  destruct (headers_rejected P options).
  { rewrite (bind_throw _ _ _ _ _
               (eq_refl : throw "TypeError: Invalid header" w0 = (Throw _, w0))).
    destruct (retryCount <? MAX_RETRIES)%nat; reflexivity. }
  rewrite (bind_ok _ _ _ _ _ (eq_refl : ret tt w0 = (Ok tt, w0))).
  destruct (fetch_cases P req w0) as [(msg & En & Ef) | (r & En & Ef)];
    rewrite En; set (w1 := snd (fetch P req w0)) in *.
  - rewrite (bind_throw _ _ _ _ _ Ef).
    destruct (retryCount <? MAX_RETRIES)%nat; reflexivity.
  - rewrite (bind_ok _ _ _ _ _ Ef).
    rewrite (bind_ok _ _ _ _ _ (eq_refl : observe_headers (resp_headers r) w1 = _)).
    destruct (status r =? 429) eqn:E429; [| reflexivity].
    cbn [snd]. set (w2 := set_apiRateLimit _ w1).
    pose proof (unreadable_text r w2) as Et.
    destruct (unreadable r).
    { rewrite (bind_throw _ _ _ _ _ Et).
      destruct (retryCount <? MAX_RETRIES)%nat; reflexivity. }
    rewrite (bind_ok _ _ _ _ _ Et).
    set (lim := when (CLOUDFLARE_ANALYTICS env) _).
    assert (Hlim : exists w3, lim w2 = (Ok tt, w3) /\ quiet w2 w3
                              /\ fetches w3 = fetches w2 /\ now w3 = now w2
                              /\ apiRateLimit w3 = apiRateLimit w2).
    { unfold lim. destruct (CLOUDFLARE_ANALYTICS env); cbn.
      - eexists. split; [reflexivity |]. split; [now apply quiet_log_event |].
        repeat split.
      - exists w2. split; [reflexivity |]. split; [apply quiet_refl |]. repeat split. }
    destruct Hlim as (w3 & E3 & Q3 & F3 & N3 & R3).
    exists w3. split.
    { eapply quiet_trans; [| exact Q3]. apply (quietly_observe_headers (resp_headers r) w1). }
    split; [exact F3 |]. split; [exact N3 |]. split; [exact R3 |].
    rewrite (bind_ok _ _ _ _ _ E3).
    destruct (retryCount <? MAX_RETRIES)%nat; [| reflexivity].
    unfold bind at 1, get_apiRateLimit. unfold bind at 1, Date_now.
    fold (backoff_429 w3).
    unfold bind at 1. cbn [sleep snd].
    match goal with
    | |- context [self ?u ?o ?e ?rc ?a ?ww] =>
        destruct (Hself u o e rc a ww) as (v & w5 & E5); rewrite E5
    end.
    reflexivity.
Qed.

(** A call whose headers are rejected sends nothing and returns [null]. *)
Lemma gitlabApiRequest_rejected_headers P url options env :
  headers_rejected P options = true ->
  forall n retryCount useAuth w,
    (MAX_RETRIES - retryCount)%nat = n ->
    exists w',
      gitlabApiRequest P url options env retryCount useAuth w = (Ok None, w')
      /\ fetches w' = fetches w /\ quiet w w'.
Proof.
  intros Hrej.
  induction n as [|n IH]; intros retryCount useAuth w Hn;
    rewrite gitlabApiRequest_unfold;
    destruct (gitlabApiRequest_body_step P (gitlabApiRequest P) url options env
                retryCount useAuth w (gitlabApiRequest_safe P))
      as (w0 & F0 & Q0 & Hstep); cbv zeta in Hstep; rewrite Hrej in Hstep;
    rewrite Hstep.
  - replace (retryCount <? MAX_RETRIES)%nat with false
      by (symmetry; apply Nat.ltb_ge; unfold MAX_RETRIES in *; lia).
    now exists w0.
  - replace (retryCount <? MAX_RETRIES)%nat with true
      by (symmetry; apply Nat.ltb_lt; unfold MAX_RETRIES in *; lia).
    destruct (IH (retryCount + 1)%nat true (snd (sleep (Num 2000) w0)))
      as (w' & E & F & Q); [lia |].
    exists w'. split; [exact E |]. split; [rewrite F; cbn; exact F0 |].
    eapply quiet_trans; [exact Q0 |].
    eapply quiet_trans; [apply (quietly_sleep (Num 2000) w0) | exact Q].
Qed.

(** One call whose headers are accepted, from its first attempt to its
    return.  It makes [k] fetches, one per attempt, and what it returns is
    decided by the last of them. *)
Lemma gitlabApiRequest_run P url options env :
  headers_rejected P options = false ->
  forall n retryCount useAuth w,
    (MAX_RETRIES - retryCount)%nat = n ->
    exists res w' k,
      gitlabApiRequest P url options env retryCount useAuth w = (Ok res, w')
      /\ fetches w' = (fetches w + k)%nat
      /\ (1 <= k <= n + 1)%nat
      /\ quiet w w'
      /\ decided_by res
           (network P (fetches w + k - 1)%nat
              (request_of url options env (if (k =? 1)%nat then useAuth else true)))
           retryCount (k - 1).
Proof.
  intros Hacc.
  induction n as [|n IH]; intros retryCount useAuth w Hn;
    rewrite gitlabApiRequest_unfold;
    destruct (gitlabApiRequest_body_step P (gitlabApiRequest P) url options env
                retryCount useAuth w (gitlabApiRequest_safe P))
      as (w0 & F0 & Q0 & Hstep); cbv zeta in Hstep; rewrite Hacc in Hstep;
    pose proof (quietly_fetch P (request_of url options env useAuth) w0) as Qf;
    assert (Ff : fetches (snd (fetch P (request_of url options env useAuth) w0))
                 = S (fetches w))
      by (rewrite <- F0; apply fetches_after_fetch);
    set (w1 := snd (fetch P (request_of url options env useAuth) w0)) in *;
    assert (Q1 : quiet w w1) by (eapply quiet_trans; eassumption).
  - (* no retry remains *)
    assert (Hge : (retryCount <? MAX_RETRIES)%nat = false)
      by (apply Nat.ltb_ge; unfold MAX_RETRIES in *; lia).
    assert (Hmax : (3 <= retryCount + (1 - 1))%nat)
      by (unfold MAX_RETRIES in *; lia).
    rewrite Hge in Hstep.
    assert (Hone : forall res w',
               gitlabApiRequest_body P (gitlabApiRequest P) url options env retryCount
                 useAuth w = (Ok res, w') ->
               fetches w' = S (fetches w) -> quiet w w' ->
               decided_by res (network P (fetches w)
                                 (request_of url options env useAuth)) retryCount 0 ->
               exists res w' k,
                 gitlabApiRequest_body P (gitlabApiRequest P) url options env retryCount
                   useAuth w = (Ok res, w')
                 /\ fetches w' = (fetches w + k)%nat
                 /\ (1 <= k <= 0 + 1)%nat
                 /\ quiet w w'
                 /\ decided_by res
                      (network P (fetches w + k - 1)%nat
                         (request_of url options env
                            (if (k =? 1)%nat then useAuth else true)))
                      retryCount (k - 1)).
    { intros res w' E F Q D. exists res, w', 1%nat.
      replace (fetches w + 1 - 1)%nat with (fetches w) by lia. cbn [Nat.eqb Nat.sub].
      split; [exact E |]. split; [lia |]. split; [lia |]. now split. }
    destruct (network P (fetches w) (request_of url options env useAuth))
      as [msg|r] eqn:En.
    + apply (Hone None w1); [exact Hstep | exact Ff | exact Q1 |].
      cbn. split; [reflexivity | lia].
    + unfold decided_by in Hone. destruct (status r =? 429) eqn:E429.
      * destruct (unreadable r).
        -- eapply (Hone None); [exact Hstep | exact Ff | | cbn; split; [reflexivity | lia]].
           eapply quiet_trans; [exact Q1 |].
           apply (quietly_observe_headers (resp_headers r) w1).
        -- destruct Hstep as (w3 & Q3 & F3 & _ & _ & Hstep).
           apply (Hone (Some r) w3); [exact Hstep | congruence | |].
           ++ eapply quiet_trans; eassumption.
           ++ cbn. split; [reflexivity | intros _; lia].
      * eapply (Hone (Some r)); [exact Hstep | exact Ff | |].
        -- eapply quiet_trans; [exact Q1 |].
           apply (quietly_observe_headers (resp_headers r) w1).
        -- cbn. split; [reflexivity |]. intros H429.
           rewrite H429 in E429. discriminate.
  - (* a retry remains *)
    assert (Hlt : (retryCount <? MAX_RETRIES)%nat = true)
      by (apply Nat.ltb_lt; unfold MAX_RETRIES in *; lia).
    assert (Hn' : (MAX_RETRIES - (retryCount + 1))%nat = n) by lia.
    rewrite Hlt in Hstep.
    assert (Hretry : forall ws, quiet w1 ws -> fetches ws = fetches w1 ->
      exists res w' k,
        gitlabApiRequest P url options env (retryCount + 1) true ws = (Ok res, w')
        /\ fetches w' = (fetches w + k)%nat
        /\ (1 <= k <= S n + 1)%nat
        /\ quiet w w'
        /\ decided_by res
             (network P (fetches w + k - 1)%nat
                (request_of url options env (if (k =? 1)%nat then useAuth else true)))
             retryCount (k - 1)).
    { intros ws Qs Fs.
      destruct (IH (retryCount + 1)%nat true ws Hn')
        as (res & w' & k & E & Fk & Hk & Qk & Hlast).
      exists res, w', (S k). split; [exact E |].
      split; [lia |]. split; [lia |].
      split.
      { eapply quiet_trans; [exact Q1 |]. eapply quiet_trans; eassumption. }
      replace (fetches w + S k - 1)%nat with (fetches ws + k - 1)%nat by lia.
      replace (S k =? 1)%nat with false by (symmetry; apply Nat.eqb_neq; lia).
      replace (if (k =? 1)%nat then true else true) with true in Hlast
        by (destruct (k =? 1)%nat; reflexivity).
      unfold decided_by in *.
      destruct (network P (fetches ws + k - 1)%nat (request_of url options env true))
        as [msg|r]; [destruct Hlast; split; [assumption | lia] |].
      destruct ((status r =? 429) && unreadable r);
        [destruct Hlast; split; [assumption | lia]
        | destruct Hlast as [? H429]; split;
          [assumption | intros H4; specialize (H429 H4); lia]]. }
    destruct (network P (fetches w) (request_of url options env useAuth))
      as [msg|r] eqn:En.
    + rewrite Hstep. apply Hretry.
      * apply (quietly_sleep (Num 2000) w1).
      * reflexivity.
    + destruct (status r =? 429) eqn:E429.
      * destruct (unreadable r).
        -- rewrite Hstep. apply Hretry.
           ++ eapply quiet_trans;
                [apply (quietly_observe_headers (resp_headers r) w1) |].
              apply (quietly_sleep (Num 2000)).
           ++ reflexivity.
        -- destruct Hstep as (w3 & Q3 & F3 & _ & _ & Hstep).
           rewrite Hstep. apply Hretry.
           ++ eapply quiet_trans; [exact Q3 |].
              apply (quietly_sleep (backoff_429 w3) w3).
           ++ cbn. exact F3.
      * eexists (Some r), _, 1%nat. rewrite Hstep.
        replace (fetches w + 1 - 1)%nat with (fetches w) by lia. cbn [Nat.eqb Nat.sub].
        rewrite En.
        split; [reflexivity |]. split; [cbn; lia |]. split; [lia |].
        split.
        -- eapply quiet_trans; [exact Q1 |].
           apply (quietly_observe_headers (resp_headers r) w1).
        -- unfold decided_by. rewrite E429. cbn [andb]. split; [reflexivity |].
           intros H429. rewrite H429 in E429. discriminate.
Qed.

(** ** The retries of the governed HTTP client *)

(** A retried attempt calls the function again with the same [url],
    [options] and [env] and the next counter, and with [useAuth = true]
    whatever the caller passed. *)
Lemma gitlabApiRequest_retry_call P url options env retryCount useAuth w :
  (retryCount < MAX_RETRIES)%nat ->
  match network P (fetches w) (request_of url options env useAuth) with
  | NetworkError _ => True
  | Responded r => status r = 429
  end ->
  exists w',
    gitlabApiRequest P url options env retryCount useAuth w
    = gitlabApiRequest P url options env (retryCount + 1) true w'.
Proof.
  intros Hlt Hout. apply Nat.ltb_lt in Hlt.
  rewrite gitlabApiRequest_unfold.
  destruct (gitlabApiRequest_body_step P (gitlabApiRequest P) url options env
              retryCount useAuth w (gitlabApiRequest_safe P))
    as (w0 & _ & _ & Hstep). cbv zeta in Hstep. rewrite Hlt in Hstep.
  destruct (headers_rejected P options); [eexists; exact Hstep |].
  destruct (network P (fetches w) (request_of url options env useAuth)) as [msg|r].
  - eexists. exact Hstep.
  - rewrite Hout in Hstep. cbn in Hstep.
    destruct (unreadable r); [eexists; exact Hstep |].
    destruct Hstep as (w3 & _ & _ & _ & _ & Hstep). eexists. exact Hstep.
Qed.

(** C1 (the code departs from the claim).  A call with [useAuth = false]
    whose first attempt is answered 429, and one whose first attempt gets no
    response: in both the retry is made with the same URL and method, but
    its request carries the [PRIVATE-TOKEN] header that the first request,
    as asked, did not carry.  The retry was called with [useAuth = true]. *)
Theorem gitlabApiRequest_retry_forgets_useAuth :
  let token_of req :=
    (req_url req, req_method req, headers_get (req_headers req) "PRIVATE-TOKEN") in
  let throttled := gitlabApiRequest throttled_once raw_url no_options sample_env 0 false
                     world_init in
  let failed := gitlabApiRequest fails_once raw_url no_options sample_env 0 false
                  world_init in
  fst throttled = Ok (Some (response_of 200 "# docs" None))
  /\ List.map token_of (fetched (trace (snd throttled)))
     = [ (raw_url, None, None); (raw_url, None, Some "glpat-secret") ]
  /\ fst failed = Ok (Some (response_of 200 "# docs" None))
  /\ List.map token_of (fetched (trace (snd failed)))
     = [ (raw_url, None, None); (raw_url, None, Some "glpat-secret") ].
Proof. vm_compute. repeat split; reflexivity. Qed.

(** C4, as stated: false for a 429 response whose body cannot be read.  The
    body is awaited inside the [try], so its rejection ends in the [catch],
    which returns [null] once the retries are exhausted. *)
Lemma gitlabApiRequest_unreadable_429_counterexample :
  let r := {| status := 429; statusText := "Too Many Requests"; resp_headers := [];
              body := None; json := None |} in
  network throttled_unreadable (fetches world_init)
    (request_of raw_url no_options sample_env true) = Responded r
  /\ status r = 429
  /\ fst (gitlabApiRequest throttled_unreadable raw_url no_options sample_env 3 true
            world_init) = Ok None.
Proof. vm_compute. repeat split; reflexivity. Qed.

(** C4 (amended).  A request whose retries are exhausted (the counter is at
    least 3) and that is answered with status 429 makes no further attempt.
    It returns that very response when the body of the response can be
    read: not [null], and nothing is thrown.  When the body cannot be read
    it returns [null]. *)
Theorem gitlabApiRequest_exhausted_429_returns_response
    P url options env retryCount useAuth w r :
  (3 <= retryCount)%nat ->
  headers_rejected P options = false ->
  network P (fetches w) (request_of url options env useAuth) = Responded r ->
  status r = 429 ->
  exists w',
    gitlabApiRequest P url options env retryCount useAuth w
    = (Ok (if unreadable r then None else Some r), w')
    /\ fetches w' = S (fetches w).
Proof.
  intros Hge Hacc Hnet H429.
  assert (Hge' : (retryCount <? MAX_RETRIES)%nat = false)
    by (apply Nat.ltb_ge; unfold MAX_RETRIES; lia).
  rewrite gitlabApiRequest_unfold.
  destruct (gitlabApiRequest_body_step P (gitlabApiRequest P) url options env
              retryCount useAuth w (gitlabApiRequest_safe P))
    as (w0 & F0 & _ & Hstep). cbv zeta in Hstep.
  rewrite Hacc, Hnet, H429, Hge' in Hstep. cbn [Z.eqb Pos.eqb] in Hstep.
  pose proof (fetches_after_fetch P (request_of url options env useAuth) w0) as Ff.
  destruct (unreadable r).
  - eexists. split; [exact Hstep |]. cbn. congruence.
  - destruct Hstep as (w3 & _ & F3 & _ & _ & Hstep). exists w3.
    split; [exact Hstep | congruence].
Qed.

Lemma gitlabApiRequest_exhausted_429_returns_response_witness :
  exists w',
    gitlabApiRequest always_throttled raw_url no_options sample_env 3 true world_init
    = (Ok (Some (response_of 429 "Retry later" None)), w')
    /\ fetches w' = 1%nat.
Proof.
  exact (gitlabApiRequest_exhausted_429_returns_response always_throttled raw_url
           no_options sample_env 3 true world_init
           (response_of 429 "Retry later" None)
           (le_n 3) eq_refl eq_refl eq_refl).
Defined.

(** Throttled at every attempt from the first call on, with bodies that can
    be read: four fetches, the last three with [useAuth = true], and the
    fourth 429 response comes back. *)
Lemma gitlabApiRequest_throttled_four_times P url options env useAuth w :
  headers_rejected P options = false ->
  (forall k req, exists r, network P k req = Responded r /\ status r = 429
                           /\ unreadable r = false) ->
  exists r w',
    gitlabApiRequest P url options env 0 useAuth w = (Ok (Some r), w')
    /\ status r = 429
    /\ fetches w' = (fetches w + 4)%nat
    /\ network P (fetches w + 3)%nat (request_of url options env true) = Responded r.
Proof.
  intros Hacc Hall.
  destruct (gitlabApiRequest_run P url options env Hacc _ 0%nat useAuth w eq_refl)
    as (res & w' & k & E & Fk & Hk & _ & Hlast).
  destruct (Hall (fetches w + k - 1)%nat
              (request_of url options env (if (k =? 1)%nat then useAuth else true)))
    as (r & Er & H429 & Hread).
  unfold decided_by in Hlast. rewrite Er, Hread, andb_false_r in Hlast.
  destruct Hlast as [-> Hmax]. specialize (Hmax H429).
  assert (k = 4%nat) by (unfold MAX_RETRIES in *; cbn in Hk; lia). subst k.
  exists r, w'. split; [exact E |]. split; [exact H429 |]. split; [exact Fk |].
  cbn [Nat.eqb] in Er. replace (fetches w + 3)%nat with (fetches w + 4 - 1)%nat by lia.
  exact Er.
Qed.



(** ** The delay before a request *)

Lemma respectRateLimits_throttled w :
  shouldThrottle w = true ->
  exists reset,
    resetTime (apiRateLimit w) = Some reset
    /\ respectRateLimits w
       = sleep (Math_min (jnum_add (jnum_sub reset (Num (now w))) (Num 1000))
                  (Num 60000)) w.
Proof.
  unfold shouldThrottle, respectRateLimits, bind, get_apiRateLimit, Date_now.
  destruct (jnum_lt _ _); [| discriminate].
  destruct (resetTime _) as [reset|]; [| discriminate]. cbn.
  intros ->. now exists reset.
Qed.

Lemma respectRateLimits_default w :
  jnum_lt (remaining (apiRateLimit w)) (Num 5) = false
  \/ resetTime (apiRateLimit w) = None ->
  respectRateLimits w = sleep (Num DEFAULT_DELAY) w.
Proof.
  unfold respectRateLimits, bind, get_apiRateLimit.
  intros [-> | ->]; [reflexivity |]. now destruct (jnum_lt _ _).
Qed.

(** C6 (the code departs from the claim).  With fewer than 5 requests
    remaining and a reset time that is set but not in the future, no timer
    is started at all: the call resolves in the same world, whereas the
    claim has it suspend for the fixed delay of 1000 ms. *)
Theorem respectRateLimits_no_delay_after_reset w reset :
  jnum_lt (remaining (apiRateLimit w)) (Num 5) = true ->
  resetTime (apiRateLimit w) = Some reset ->
  jnum_gt (jnum_sub reset (Num (now w))) (Num 0) = false ->
  shouldThrottle w = false /\ respectRateLimits w = (Ok tt, w).
Proof.
  intros Hlow Hreset Hpast.
  unfold shouldThrottle, respectRateLimits, bind, get_apiRateLimit, Date_now.
  now rewrite Hlow, Hreset, Hpast.
Qed.

Lemma respectRateLimits_no_delay_after_reset_witness :
  jnum_lt (remaining (apiRateLimit stale_world)) (Num 5) = true
  /\ resetTime (apiRateLimit stale_world) = Some (Num 1699999999000)
  /\ jnum_gt (jnum_sub (Num 1699999999000) (Num (now stale_world))) (Num 0) = false
  /\ shouldThrottle stale_world = false
  /\ respectRateLimits stale_world = (Ok tt, stale_world).
Proof.
  split; [reflexivity |]. split; [reflexivity |]. split; [reflexivity |].
  apply (respectRateLimits_no_delay_after_reset stale_world (Num 1699999999000));
    reflexivity.
Defined.

(** ** The rate tracker *)

(** C7, as stated: false for a header that is present with an empty value.
    [headers.get] returns the empty string, which is falsy, so the field
    keeps its value instead of taking the one parsed from the header. *)
Lemma updateRateLimitFromHeaders_empty_header_counterexample :
  let headers := [("ratelimit-remaining", "")] in
  headers_get headers "ratelimit-remaining" = Some ""
  /\ remaining (updateRateLimitFromHeaders headers apiRateLimit_init) = Num 2000
  /\ remaining (observe_present headers apiRateLimit_init) = NaN
  /\ updateRateLimitFromHeaders headers apiRateLimit_init
     <> observe_present headers apiRateLimit_init.
Proof.
  cbv zeta. split; [reflexivity |]. split; [reflexivity |]. split; [reflexivity |].
  intros H. apply (f_equal remaining) in H. discriminate H.
Qed.

(** C7, amended.  Each of the three fields is updated exactly when its
    header is present with a non-empty value, and is otherwise unchanged;
    observing the same headers a second time changes nothing. *)
Theorem updateRateLimitFromHeaders_fields headers rl :
  let rl' := updateRateLimitFromHeaders headers rl in
  remaining rl'
  = updated_from headers "ratelimit-remaining" parseInt (remaining rl)
  /\ resetTime rl'
     = updated_from headers "ratelimit-reset"
         (fun v => Some (Date_of (jnum_mul (parseInt v) (Num 1000)))) (resetTime rl)
  /\ limit rl' = updated_from headers "ratelimit-limit" parseInt (limit rl)
  /\ updateRateLimitFromHeaders headers rl' = rl'.
Proof.
  unfold updateRateLimitFromHeaders, updated_from. destruct rl as [rem rst lim].
  destruct (headers_get headers "ratelimit-remaining") as [v1|];
    destruct (headers_get headers "ratelimit-reset") as [v2|];
    destruct (headers_get headers "ratelimit-limit") as [v3|];
    cbn [truthy_opt default];
    repeat match goal with
           | |- context [truthy ?v] => destruct (truthy v)
           end;
    cbn; repeat split; reflexivity.
Qed.

(** On headers that are absent or non-empty, the code is the function of
    the specification. *)
Lemma updateRateLimitFromHeaders_observe_present headers rl :
  headers_get headers "ratelimit-remaining" <> Some "" ->
  headers_get headers "ratelimit-reset" <> Some "" ->
  headers_get headers "ratelimit-limit" <> Some "" ->
  updateRateLimitFromHeaders headers rl = observe_present headers rl.
Proof.
  unfold updateRateLimitFromHeaders, observe_present. destruct rl as [rem rst lim].
  destruct (headers_get headers "ratelimit-remaining") as [[|c1 v1]|];
    destruct (headers_get headers "ratelimit-reset") as [[|c2 v2]|];
    destruct (headers_get headers "ratelimit-limit") as [[|c3 v3]|];
    intros H1 H2 H3; try congruence; reflexivity.
Qed.

(** ** The last segment of a path *)

Lemma string_app_cons (x : ascii) (a b : string) :
  String x a +:+ b = String x (a +:+ b).
Proof. reflexivity. Qed.

Lemma string_app_assoc (a b c : string) : (a +:+ b) +:+ c = a +:+ (b +:+ c).
Proof.
  induction a as [|x a IH]; [reflexivity |].
  rewrite !string_app_cons. now rewrite IH.
Qed.

Lemma string_app_nil_r (a : string) : a +:+ "" = a.
Proof.
  induction a as [|x a IH]; [reflexivity |].
  rewrite string_app_cons. now rewrite IH.
Qed.

Lemma has_slash_app (a b : string) : has_slash (a +:+ b) = has_slash a || has_slash b.
Proof.
  induction a as [|x a IH]; [reflexivity |].
  change (Ascii.eqb x "/" || has_slash (a +:+ b)
          = (Ascii.eqb x "/" || has_slash a) || has_slash b).
  rewrite IH. now rewrite orb_assoc.
Qed.

Lemma last_segment_from_spec (s : string) :
  forall cur, has_slash cur = false ->
    has_slash (last_segment_from cur s) = false
    /\ ((has_slash s = false /\ last_segment_from cur s = cur +:+ s)
        \/ exists pre, s = pre +:+ "/" +:+ last_segment_from cur s).
Proof.
  induction s as [|c s IH]; intros cur Hcur; cbn [last_segment_from].
  - split; [exact Hcur |]. left. split; [reflexivity |]. now rewrite string_app_nil_r.
  - destruct (Ascii.eqb c "/") eqn:Ec.
    + apply Ascii.eqb_eq in Ec. subst c.
      destruct (IH "" eq_refl) as [Hs [[_ Hr] | (pre & Hr)]]; split; try exact Hs; right.
      * exists "". change ("" +:+ s) with s in Hr. now rewrite Hr.
      * exists (String "/" pre). rewrite string_app_cons. now rewrite <- Hr.
    + assert (Hc : has_slash (cur +:+ String c "") = false)
        by (rewrite has_slash_app, Hcur; cbn [has_slash orb]; now rewrite Ec).
      destruct (IH _ Hc) as [Hs [[Hn Hr] | (pre & Hr)]]; split; try exact Hs.
      * left. split; [cbn [has_slash]; now rewrite Ec, Hn |]. rewrite Hr.
        now rewrite string_app_assoc.
      * right. exists (String c pre). rewrite string_app_cons. now rewrite <- Hr.
Qed.

(** [split_pop s] has no slash; it is [s] itself when [s] has none, and
    otherwise what follows the last slash of [s]. *)
Lemma split_pop_spec (s : string) :
  has_slash (split_pop s) = false
  /\ ((has_slash s = false /\ split_pop s = s)
      \/ exists pre, s = pre +:+ "/" +:+ split_pop s).
Proof. exact (last_segment_from_spec s "" eq_refl). Qed.

Lemma last_segment_from_no_slash (s : string) :
  has_slash s = false -> forall cur, last_segment_from cur s = cur +:+ s.
Proof.
  induction s as [|c s IH]; intros Hs cur; cbn [last_segment_from].
  - now rewrite string_app_nil_r.
  - cbn [has_slash] in Hs. apply orb_false_iff in Hs as [Ec Hs]. rewrite Ec.
    rewrite (IH Hs). now rewrite string_app_assoc.
Qed.

Lemma last_segment_from_after_slash (dir name : string) :
  forall cur, last_segment_from cur (dir +:+ "/" +:+ name) = last_segment_from "" name.
Proof.
  induction dir as [|c dir IH]; intros cur.
  - reflexivity.
  - rewrite string_app_cons. cbn [last_segment_from].
    destruct (Ascii.eqb c "/"); apply IH.
Qed.

(** The last segment, told without the function that computes it. *)
Lemma split_pop_last_segment (name p : string) :
  split_pop p = name <-> last_segment_is name p.
Proof.
  unfold last_segment_is. split.
  - intros <-. destruct (split_pop_spec p) as [Hs [[_ Hr] | (pre & Hr)]].
    + split; [exact Hs |]. left. now rewrite Hr.
    + split; [exact Hs |]. right. now exists pre.
  - intros [Hs [-> | (dir & ->)]]; unfold split_pop.
    + now rewrite (last_segment_from_no_slash name Hs).
    + rewrite last_segment_from_after_slash.
      now rewrite (last_segment_from_no_slash name Hs).
Qed.

(** ** Search by file name *)

Lemma strict_eq_true o s : strict_eq o s = true <-> o = Some s.
Proof.
  destruct o as [x|]; cbn; [| split; discriminate].
  rewrite String.eqb_eq. split; [now intros -> | now inversion 1].
Qed.

(** What [exact_match] tests: the hit's [filename] when it is truthy, else
    the last segment of its [path], is the requested name. *)
Lemma exact_match_iff filename item :
  exact_match filename item = true
  <-> (truthy_opt (item_filename item) = true /\ item_filename item = Some filename)
      \/ (truthy_opt (item_filename item) = false
          /\ exists p, item_path item = Some p /\ split_pop p = filename).
Proof.
  unfold exact_match, itemFilename, js_or. rewrite strict_eq_true.
  destruct (truthy_opt (item_filename item)) eqn:T.
  - split; [intros H; left; now split | intros [[_ H] | [H _]]; [exact H | discriminate]].
  - split.
    + intros H. right. split; [reflexivity |].
      destruct (item_path item) as [p|]; [| discriminate].
      exists p. split; [reflexivity |]. now inversion H.
    + intros [[H _] | [_ (p & -> & <-)]]; [discriminate | reflexivity].
Qed.

(** What a successful search was computed from. *)
Lemma searchFileByName_inv P filename namespace project env w res w' :
  searchFileByName P filename namespace project env w = (Ok (Some res), w') ->
  exists r raw,
    gitlabApiRequest P
      (getGitLabApiBaseUrl env +:+ "/projects/" +:+ encodeProjectPath P namespace project
       +:+ "/search?scope=blobs&search=" +:+ encodeURIComponent P filename)
      no_options env 0 true w = (Ok (Some r), w')
    /\ ok r = true
    /\ json r = Some (JItems raw)
    /\ res = {| total_count := length (List.filter (exact_match filename) raw);
                items := List.map (to_result_item env namespace project)
                           (List.filter (exact_match filename) raw) |}.
Proof.
  unfold searchFileByName. cbv zeta. intros H.
  match type of H with
  | bind ?m _ _ = _ => destruct (m w) as [[[r|]|e] w1] eqn:Em
  end.
  - rewrite (bind_ok _ _ _ _ _ Em) in H.
    destruct (ok r) eqn:Eok; [| discriminate]. cbn [negb] in H.
    unfold response_json in H. destruct (json r) as [[raw| |]|] eqn:Ej;
      cbn in H; try discriminate.
    inversion H; subst. exists r, raw. now repeat split.
  - rewrite (bind_ok _ _ _ _ _ Em) in H. discriminate.
  - rewrite (bind_throw _ _ _ _ _ Em) in H. discriminate.
Qed.

Lemma sublist_List_filter {A} (f : A -> bool) (l : list A) :
  sublist (List.filter f l) l.
Proof.
  induction l as [|a l IH]; cbn; [constructor |].
  destruct (f a); now constructor.
Qed.

(** [exact_match] keeps the hits that are named as requested, and no
    other. *)
Lemma exact_match_named filename item :
  exact_match filename item = true <-> named_exactly filename item.
Proof.
  rewrite exact_match_iff. unfold named_exactly.
  destruct (item_filename item) as [[|c f]|]; cbn [truthy_opt truthy].
  - split.
    + intros [[H _] | [_ (p & Hp & Hs)]]; [discriminate |].
      exists p. split; [exact Hp | now apply split_pop_last_segment].
    + intros (p & Hp & Hs). right. split; [reflexivity |].
      exists p. split; [exact Hp | now apply split_pop_last_segment].
  - split.
    + intros [[_ H] | [H _]]; [now inversion H | discriminate].
    + intros ->. now left.
  - split.
    + intros [[H _] | [_ (p & Hp & Hs)]]; [discriminate |].
      exists p. split; [exact Hp | now apply split_pop_last_segment].
    + intros (p & Hp & Hs). right. split; [reflexivity |].
      exists p. split; [exact Hp | now apply split_pop_last_segment].
Qed.

(** C10.  When [searchFileByName] returns a result, the response it got
    from the API held an array [raw], and both [items] and [total_count]
    are computed from the list [kept] of the hits of [raw], in their order,
    that are named exactly as requested: the [filename] of the hit, or when
    it has none the last segment of its [path] (what follows the last
    slash, or the whole path when it has no slash), is the requested name.
    No other hit is kept, and none that is so named is left out. *)
Theorem searchFileByName_only_exact_matches
    P filename namespace project env w res w' :
  searchFileByName P filename namespace project env w = (Ok (Some res), w') ->
  exists r raw kept,
    gitlabApiRequest P
      (getGitLabApiBaseUrl env +:+ "/projects/" +:+ encodeProjectPath P namespace project
       +:+ "/search?scope=blobs&search=" +:+ encodeURIComponent P filename)
      no_options env 0 true w = (Ok (Some r), w')
    /\ json r = Some (JItems raw)
    /\ sublist kept raw
    /\ (forall item, In item kept <-> In item raw /\ named_exactly filename item)
    /\ items res = List.map (to_result_item env namespace project) kept
    /\ total_count res = length kept.
Proof.
  intros H. apply searchFileByName_inv in H as (r & raw & Em & _ & Ej & ->).
  exists r, raw, (List.filter (exact_match filename) raw). cbn [items total_count].
  split; [exact Em |]. split; [exact Ej |].
  split; [apply sublist_List_filter |].
  split; [| now split].
  intros item. rewrite List.filter_In. now rewrite exact_match_named.
Qed.

Lemma searchFileByName_only_exact_matches_witness :
  let run := searchFileByName searchable "llms.txt" "acme" "widgets" sample_env
               world_init in
  exists res r raw kept,
    run = (Ok (Some res), snd run)
    /\ gitlabApiRequest searchable
         (getGitLabApiBaseUrl sample_env +:+ "/projects/"
          +:+ encodeProjectPath searchable "acme" "widgets"
          +:+ "/search?scope=blobs&search=" +:+ encodeURIComponent searchable "llms.txt")
         no_options sample_env 0 true world_init = (Ok (Some r), snd run)
    /\ json r = Some (JItems raw)
    /\ sublist kept raw
    /\ (forall item, In item kept <-> In item raw /\ named_exactly "llms.txt" item)
    /\ items res = List.map (to_result_item sample_env "acme" "widgets") kept
    /\ total_count res = length kept.
Proof.
  cbv zeta.
  assert (E : searchFileByName searchable "llms.txt" "acme" "widgets" sample_env
                world_init
              = (Ok (Some {| total_count := 1;
                             items := [to_result_item sample_env "acme" "widgets"
                                         {| item_filename := None;
                                            item_path := Some "docs/llms.txt";
                                            item_project_id := Some 7;
                                            item_ref := None |}] |}),
                 snd (searchFileByName searchable "llms.txt" "acme" "widgets"
                        sample_env world_init)))
    by (vm_compute; reflexivity).
  destruct (searchFileByName_only_exact_matches searchable "llms.txt" "acme" "widgets"
              sample_env world_init _ _ E) as (r & raw & kept & H).
  eexists _, r, raw, kept. split; [exact E | exact H].
Defined.

(** ** The static-path probe *)

(** The array [Promise.all] resolves to does not depend on the order in
    which the promises settle. *)
Lemma fold_gather_permutation {A} (l l' : list (nat * A)) :
  Permutation l l' -> NoDup (List.map fst l) ->
  forall acc : list (option A),
    List.fold_left (fun arr iv => <[fst iv := Some (snd iv)]> arr) l acc
    = List.fold_left (fun arr iv => <[fst iv := Some (snd iv)]> arr) l' acc.
Proof.
  induction 1 as [| x l l' Hp IH | x y l | l l' l'' Hp1 IH1 Hp2 IH2];
    intros Hnd acc; cbn.
  - reflexivity.
  - apply IH. cbn in Hnd. now apply NoDup_cons_1_2 in Hnd.
  - f_equal. cbn in Hnd. apply NoDup_cons in Hnd as [Hx _].
    apply list_insert_insert_ne. intros Heq. apply Hx. rewrite Heq. now left.
  - rewrite IH1 by assumption. apply IH2.
    assert (Hm : Permutation (List.map fst l) (List.map fst l'))
      by now apply Permutation_map.
    now rewrite <- Hm.
Qed.

Lemma gather_permutation {A} n (l l' : list (nat * A)) :
  Permutation l l' -> NoDup (List.map fst l) -> gather n l = gather n l'.
Proof. intros Hp Hnd. unfold gather. now apply fold_gather_permutation. Qed.

Lemma Promise_all_yields {A} (promises : list (M A)) (Qs : list (A -> Prop)) :
  Forall2 (fun p Q => yields p Q) promises Qs ->
  yields (Promise_all promises) (fun l => Forall2 (fun a Q => Q a) l Qs).
Proof.
  induction 1 as [| p Q ps Qs' Hp _ IH]; cbn [Promise_all].
  - apply yields_ret. constructor.
  - intros w l w' E.
    destruct (p w) as [[a|e] w1] eqn:Ep;
      destruct (Promise_all ps w1) as [[l'|e'] w2] eqn:El; inversion E; subst.
    constructor; [eapply Hp; exact Ep | eapply IH; exact El].
Qed.

(** The probe returns one object per candidate, in the order of the list. *)
Lemma static_probe_results P namespace project docsBranch env w results w' :
  static_probe P namespace project docsBranch env w = (Ok results, w') ->
  exists c0 c1 c2, results = probe_results docsBranch [c0; c1; c2].
Proof.
  intros H.
  assert (Hy : yields (static_probe P namespace project docsBranch env)
                 (fun l => Forall2 (fun a Q => Q a) l
                    (List.map (fun location (r : ProbeResult) =>
                                 exists c, r = {| probe_content := c;
                                                  probe_location := location;
                                                  probe_branch := docsBranch |})
                       possibleLocations))).
  { apply Promise_all_yields. cbn.
    repeat (constructor;
            [eapply yields_bind; [apply yields_True |];
             intros c _; apply yields_ret; now exists c |]).
    constructor. }
  specialize (Hy _ _ _ H). cbn in Hy.
  repeat match goal with
         | H : Forall2 _ _ (_ :: _) |- _ => inversion_clear H
         | H : Forall2 _ _ [] |- _ => inversion_clear H
         | H : exists c, _ = _ |- _ => destruct H as [? ->]
         end.
  now eexists _, _, _.
Qed.

(** The order of the array is one of the completion orders. *)
Lemma gathered_in_order branch c0 c1 c2 :
  gathered 3 (indexed (probe_results branch [c0; c1; c2]))
  = probe_results branch [c0; c1; c2].
Proof. reflexivity. Qed.

(** Whatever the three fetches resolve to and in whatever order they
    settle, the loop selects the first entry of the ordered list whose
    content is not [null]. *)
Lemma select_static_first_in_list_order branch c0 c1 c2 settled :
  Permutation settled (indexed (probe_results branch [c0; c1; c2])) ->
  select_static possibleLocations (gathered 3 settled)
  = first_found (probe_results branch [c0; c1; c2]).
Proof.
  intros Hp. unfold gathered.
  rewrite (gather_permutation 3 _ _ Hp).
  - destruct c0, c1, c2; reflexivity.
  - assert (Hm : Permutation (List.map fst settled)
                   (List.map fst (indexed (probe_results branch [c0; c1; c2]))))
      by now apply Permutation_map.
    rewrite Hm. cbn. apply (bool_decide_unpack _). reflexivity.
Qed.

(** What the loop selects from the results of the probe: the first
    candidate, in list order, whose content is not [null].  That is the
    first candidate with non-empty content unless a file was fetched as the
    empty string. *)
Lemma static_probe_selection P namespace project docsBranch env w results w' :
  static_probe P namespace project docsBranch env w = (Ok results, w') ->
  select_static possibleLocations results = first_found results
  /\ (Forall (fun r => probe_content r <> Some "") results ->
      select_static possibleLocations results = first_nonempty results).
Proof.
  intros H. apply static_probe_results in H as (c0 & c1 & c2 & ->).
  split; [destruct c0, c1, c2; reflexivity |].
  intros Hne. cbn in Hne.
  repeat match goal with
         | H : Forall _ (_ :: _) |- _ => apply Forall_cons in H as [? H]
         end.
  cbn [probe_content] in *.
  destruct c0 as [[|a0 s0]|], c1 as [[|a1 s1]|], c2 as [[|a2 s2]|];
    try congruence; reflexivity.
Qed.

(** C2 (the code departs from the claim).  A repository whose
    [docs/docs/llms.txt] is an empty file and whose root [llms.txt] has
    content: the probe fetches the three candidates, the loop selects the
    empty [docs/docs/llms.txt] (its content is not [null]) and stops,
    although [llms.txt] is the first entry with non-empty content; the
    later strategies find nothing, and the resolution ends with "No
    documentation found." reported for [llms.txt], the root file with
    content never being used. *)
Theorem static_probe_selects_empty_file :
  let repoData := gitlab_repo "acme" "widgets" "gitmcp.io" in
  let w1 := snd (getRepoBranch empty_shadow "acme" "widgets" sample_env world_init) in
  let results := probe_results "main" [Some ""; Some "# Widgets"; None] in
  fst (getRepoBranch empty_shadow "acme" "widgets" sample_env world_init) = Ok "main"
  /\ fst (static_probe empty_shadow "acme" "widgets" "main" sample_env w1) = Ok results
  /\ (probe_location <$> select_static possibleLocations results)
     = Some "docs/docs/llms.txt"
  /\ (probe_location <$> first_nonempty results) = Some "llms.txt"
  /\ select_static possibleLocations results <> first_nonempty results
  /\ fst (fetchDocumentation empty_shadow repoData sample_env world_init)
     = Ok (text_result "llms.txt" "No documentation found.").
Proof.
  cbv zeta. split; [vm_compute; reflexivity |]. split; [vm_compute; reflexivity |].
  split; [reflexivity |]. split; [reflexivity |]. split; [discriminate |].
  vm_compute. reflexivity.
Qed.

(** ** The helpers of the resolver *)

Lemma safe_bind_yields {A B} (m : M A) (k : A -> M B) (R : A -> Prop) :
  safe m -> yields m R -> (forall a, R a -> safe (k a)) -> safe (bind m k).
Proof.
  intros Hm Hy Hk w. destruct (Hm w) as (a & w1 & E).
  rewrite (bind_ok _ _ _ _ _ E). apply Hk. eapply Hy. exact E.
Qed.

Lemma quietly_fetchRawFile P namespace project branch path env useAuth :
  runs_quietly (fetchRawFile P namespace project branch path env useAuth).
Proof. unfold fetchRawFile. quiet_tac. Qed.

Lemma quietly_fetchFileFromGitLab P namespace project branch path env useAuth :
  runs_quietly (fetchFileFromGitLab P namespace project branch path env useAuth).
Proof. apply quietly_fetchRawFile. Qed.

#[local] Hint Resolve quietly_fetchFileFromGitLab : quiet_db.

Lemma quietly_response_json r : runs_quietly (response_json r).
Proof. unfold response_json. quiet_tac. Qed.

#[local] Hint Resolve quietly_response_json : quiet_db.

Lemma quietly_searchFileByName P filename namespace project env :
  runs_quietly (searchFileByName P filename namespace project env).
Proof. unfold searchFileByName. quiet_tac. Qed.

#[local] Hint Resolve quietly_searchFileByName : quiet_db.

Lemma quietly_read_path_cache P namespace project :
  runs_quietly (fun w => (Ok (getCachedFilePath P namespace project w), w)).
Proof. intros w. apply quiet_refl. Qed.

#[local] Hint Resolve quietly_read_path_cache : quiet_db.

Lemma safe_searchGitLabRepo P namespace project filename branch env :
  safe (searchGitLabRepo P namespace project filename branch env).
Proof. unfold searchGitLabRepo. safe_tac. Qed.

Lemma quietly_searchGitLabRepo P namespace project filename branch env :
  runs_quietly (searchGitLabRepo P namespace project filename branch env).
Proof. unfold searchGitLabRepo, cacheFilePath. quiet_tac. Qed.

Lemma safe_getRepoBranch P namespace project env :
  safe (getRepoBranch P namespace project env).
Proof. unfold getRepoBranch. safe_tac. Qed.

Lemma quietly_getRepoBranch P namespace project env :
  runs_quietly (getRepoBranch P namespace project env).
Proof. unfold getRepoBranch. quiet_tac. Qed.

Lemma safe_fetchFileFromR2 namespace project filename env :
  safe (fetchFileFromR2 namespace project filename env).
Proof. unfold fetchFileFromR2. safe_tac. Qed.

Lemma quietly_fetchFileFromR2 namespace project filename env :
  runs_quietly (fetchFileFromR2 namespace project filename env).
Proof. unfold fetchFileFromR2. quiet_tac. Qed.

Lemma safe_enqueueDocumentationProcessing namespace project content fileUsed docsPath
    docsBranch env :
  safe (enqueueDocumentationProcessing namespace project content fileUsed docsPath
          docsBranch env).
Proof. unfold enqueueDocumentationProcessing. safe_tac. Qed.

Lemma quietly_enqueueDocumentationProcessing namespace project content fileUsed docsPath
    docsBranch env :
  runs_quietly (enqueueDocumentationProcessing namespace project content fileUsed
                  docsPath docsBranch env).
Proof. unfold enqueueDocumentationProcessing. quiet_tac. Qed.

#[local] Hint Resolve safe_searchGitLabRepo safe_getRepoBranch safe_fetchFileFromR2
  safe_enqueueDocumentationProcessing : safe_db.
#[local] Hint Resolve quietly_searchGitLabRepo quietly_getRepoBranch
  quietly_fetchFileFromR2 quietly_enqueueDocumentationProcessing : quiet_db.

Lemma quietly_Promise_all {A} (promises : list (M A)) :
  Forall runs_quietly promises -> runs_quietly (Promise_all promises).
Proof.
  induction 1 as [| p ps Hp _ IH]; cbn [Promise_all]; [apply quietly_ret |].
  intros w. specialize (Hp w). destruct (p w) as [a w1]. cbn in Hp.
  specialize (IH w1). destruct (Promise_all ps w1) as [l w2]. cbn in IH |- *.
  now apply quiet_trans with w1.
Qed.

Lemma quietly_static_probe P namespace project docsBranch env :
  runs_quietly (static_probe P namespace project docsBranch env).
Proof.
  unfold static_probe. apply quietly_Promise_all. cbn.
  repeat (constructor; [quiet_tac |]). constructor.
Qed.

#[local] Hint Resolve quietly_static_probe : quiet_db.

(** The branch that [getRepoBranch] returns is never the empty string. *)
Lemma getRepoBranch_truthy P namespace project env :
  yields (getRepoBranch P namespace project env) (fun b => truthy b = true).
Proof.
  unfold getRepoBranch. apply yields_try_catch; [| intros; now apply yields_ret].
  cbv zeta. eapply yields_bind; [apply yields_True |]. intros response _.
  eapply yields_bind with (R := fun found => forall b, found = Some b -> truthy b = true).
  - destruct response as [r|]; [| apply yields_ret; discriminate].
    destruct (ok r); [| apply yields_ret; discriminate].
    eapply yields_bind; [apply yields_True |]. intros data _.
    destruct data as [| [b|] |]; try (apply yields_ret; discriminate).
    destruct (truthy b) eqn:T; apply yields_ret; [| discriminate].
    intros b' Hb. now inversion Hb; subst.
  - intros [b|] Hb; [apply yields_ret; now apply Hb |].
    eapply yields_bind; [apply yields_True |]. intros mainResponse _.
    destruct (negb (failed mainResponse)); [now apply yields_ret |].
    eapply yields_bind; [apply yields_True |]. intros masterResponse _.
    destruct (negb (failed masterResponse)); [now apply yields_ret | apply yields_throw].
Qed.

(** A hit that matches a non-empty name has a path. *)
Lemma exact_match_path_defined filename item :
  truthy filename = true -> exact_match filename item = true ->
  exists p, js_or (item_path item) (item_filename item) = Some p.
Proof.
  intros Hf Hm. apply exact_match_iff in Hm. unfold js_or.
  destruct Hm as [[Ht Hn] | [Ht (p & Hp & Hs)]].
  - destruct (truthy_opt (item_path item)) eqn:Tp.
    + destruct (item_path item) as [p|]; [now exists p | discriminate].
    + now exists filename.
  - rewrite Hp. cbn. destruct p as [|c p]; [subst; discriminate |].
    cbn. now eexists.
Qed.

Lemma searchFileByName_paths_defined P filename namespace project env :
  truthy filename = true ->
  yields (searchFileByName P filename namespace project env)
    (fun data => forall d, data = Some d ->
                           Forall (fun x => exists p, res_path x = Some p) (items d)).
Proof.
  intros Hf w data w' H d ->.
  apply searchFileByName_inv in H as (r & raw & _ & _ & _ & ->). cbn [items].
  apply List.Forall_forall. intros x Hx. apply List.in_map_iff in Hx.
  destruct Hx as (item & <- & Hin). apply List.filter_In in Hin.
  cbn. now apply (exact_match_path_defined filename).
Qed.

(** A file found for a non-empty name always has its path. *)
Lemma searchGitLabRepo_path_defined P namespace project filename branch env :
  truthy filename = true ->
  yields (searchGitLabRepo P namespace project filename branch env)
    (fun o => forall f, o = Some f -> exists p, file_path f = Some p).
Proof.
  intros Hf. unfold searchGitLabRepo.
  apply yields_try_catch; [| intros; apply yields_ret; discriminate].
  eapply yields_bind; [apply yields_True |]. intros cachedFile _. cbv zeta.
  eapply yields_bind
    with (R := fun found => forall fp, found = Some fp -> exists p, fp = Some p).
  - destruct (truthy_opt (js_or (cp_path <$> cachedFile) (Some ""))) eqn:T; cbn [negb].
    + apply yields_ret. intros fp Hfp. inversion Hfp; subst.
      destruct (js_or _ _) as [p|]; [now exists p | discriminate].
    + eapply yields_bind; [now apply searchFileByName_paths_defined |].
      intros [d|] Hd; [| apply yields_ret; discriminate].
      specialize (Hd d eq_refl).
      destruct ((total_count d =? 0)%nat || (length (items d) =? 0)%nat) eqn:C;
        apply yields_ret; [discriminate |].
      intros fp Hfp. inversion Hfp; subst.
      destruct (items d) as [|x xs]; cbn.
      * cbn in C. now rewrite orb_true_r in C.
      * now inversion Hd.
  - intros [filePath|] Hfound; [| apply yields_ret; discriminate].
    eapply yields_bind; [apply yields_True |]. intros content _.
    destruct (truthy_opt content); [| apply yields_ret; discriminate].
    eapply yields_bind; [apply yields_True |]. intros _ _.
    apply yields_ret. intros f Heq. inversion Heq; subst. cbn. now apply Hfound.
Qed.

(** ** The strategies of the cascade: all but the static probe catch what
    they raise, and all are quiet *)

Lemma safe_search_fallback P namespace project env l :
  safe (search_fallback P namespace project env l).
Proof. unfold search_fallback. safe_tac. Qed.

Lemma quietly_search_fallback P namespace project env l :
  runs_quietly (search_fallback P namespace project env l).
Proof. unfold search_fallback. quiet_tac. Qed.

Lemma safe_r2_fallback namespace project env l :
  safe (r2_fallback namespace project env l).
Proof. unfold r2_fallback. safe_tac. Qed.

Lemma quietly_r2_fallback namespace project env l :
  runs_quietly (r2_fallback namespace project env l).
Proof. unfold r2_fallback. quiet_tac. Qed.

Lemma safe_readme_fallback P namespace project env l :
  safe (readme_fallback P namespace project env l).
Proof.
  unfold readme_fallback.
  destruct (negb (truthy_opt (l_content l))); [| apply safe_ret].
  apply safe_bind; [safe_tac |]. intros l'.
  eapply safe_bind_yields.
  - apply safe_searchGitLabRepo.
  - now apply searchGitLabRepo_path_defined.
  - intros [f|] Hf; [| apply safe_ret].
    destruct (Hf f eq_refl) as (p & ->). apply safe_ret.
Qed.

Lemma quietly_readme_fallback P namespace project env l :
  runs_quietly (readme_fallback P namespace project env l).
Proof. unfold readme_fallback. quiet_tac. Qed.

#[local] Hint Resolve safe_search_fallback safe_r2_fallback safe_readme_fallback
  : safe_db.
#[local] Hint Resolve quietly_search_fallback quietly_r2_fallback
  quietly_readme_fallback : quiet_db.

(** The strategies that follow the static probe never throw. *)
Lemma safe_after_probe P namespace project env l :
  safe (l <- search_fallback P namespace project env l ;;
        l <- r2_fallback namespace project env l ;;
        readme_fallback P namespace project env l).
Proof. safe_tac. Qed.

(** The resolver of a GitLab repository throws exactly when the static
    probe does: the branch lookup before it and every strategy after it
    catch what they raise. *)
Lemma resolve_gitlab_cases P namespace project env l w :
  exists docsBranch w1,
    getRepoBranch P namespace project env w = (Ok docsBranch, w1)
    /\ match static_probe P namespace project docsBranch env w1 with
       | (Ok results, w2) =>
           exists l' w3, resolve_gitlab P namespace project env l w = (Ok l', w3)
       | (Throw e, w2) => resolve_gitlab P namespace project env l w = (Throw e, w2)
       end.
Proof.
  destruct (safe_getRepoBranch P namespace project env w) as (b & w1 & Eb).
  exists b, w1. split; [exact Eb |]. unfold resolve_gitlab.
  rewrite (bind_ok _ _ _ _ _ Eb). cbv zeta.
  destruct (static_probe P namespace project b env w1) as [[results|e] w2] eqn:Es.
  - rewrite (bind_ok _ _ _ _ _ Es).
    destruct (safe_after_probe P namespace project env
                (apply_static namespace project env results (set_docsBranch b l)) w2)
      as (l' & w3 & E).
    now exists l', w3.
  - now rewrite (bind_throw _ _ _ _ _ Es).
Qed.

Lemma quietly_resolve_gitlab P namespace project env l :
  runs_quietly (resolve_gitlab P namespace project env l).
Proof. unfold resolve_gitlab. quiet_tac. Qed.

Lemma quietly_robots_fetch P url : runs_quietly (robots_fetch P url).
Proof. unfold robots_fetch. quiet_tac. Qed.

#[local] Hint Resolve quietly_robots_fetch : quiet_db.

Lemma quietly_resolve_subdomain P namespace project l :
  runs_quietly (resolve_subdomain P namespace project l).
Proof. unfold resolve_subdomain. quiet_tac. Qed.

Lemma quietly_cascade P repoData env : runs_quietly (cascade P repoData env).
Proof.
  unfold cascade. destruct (urlType repoData).
  - apply quietly_resolve_subdomain.
  - destruct (_ && _); [apply quietly_resolve_gitlab | apply quietly_ret].
  - apply quietly_ret.
Qed.

Lemma safe_getCachedFetchDocResult namespace project :
  safe (getCachedFetchDocResult namespace project).
Proof.
  intros w. unfold getCachedFetchDocResult.
  destruct (contentCache w !! (namespace, project)) as [e|];
    [destruct (now w <=? expiresAt e) |]; now eexists _, _.
Qed.

Lemma getCachedFetchDocResult_world namespace project w :
  snd (getCachedFetchDocResult namespace project w) = w.
Proof.
  unfold getCachedFetchDocResult.
  destruct (contentCache w !! (namespace, project)) as [e|];
    [destruct (now w <=? expiresAt e) |]; reflexivity.
Qed.

Lemma check_cache_cases repoData w :
  (exists r, check_cache repoData w = (Ok (Some r), w))
  \/ check_cache repoData w = (Ok None, w).
Proof.
  unfold check_cache, getCachedFetchDocResult.
  destruct (known repoData); [| now right].
  destruct (contentCache w !! _) as [e|]; [| now right].
  destruct (now w <=? expiresAt e); [left; now eexists | now right].
Qed.

(** ** [fetchDocumentation] *)

(** The function after a cache miss and a cascade that returned [l]: the
    job is enqueued (a quiet step to [w2]), then either the sentinel is
    returned, or the result is returned and, for a known repository,
    written to the content cache. *)
Lemma fetchDocumentation_miss P repoData env w l w1 :
  check_cache repoData w = (Ok None, w) ->
  cascade P repoData env w = (Ok l, w1) ->
  exists w2,
    quiet w1 w2
    /\ fetchDocumentation P repoData env w
       = if truthy_opt (l_content l) then
           let result := text_result (l_fileUsed l) (default "" (l_content l)) in
           (Ok result,
            if known repoData
            then snd (cacheFetchDocResult (default "" (namespace repoData))
                        (default "" (project repoData)) result cacheTTL w2)
            else w2)
         else (Ok (text_result (l_fileUsed l) "No documentation found."), w2).
Proof.
  intros Hmiss Hcas. unfold fetchDocumentation. cbv zeta.
  rewrite (bind_ok _ _ _ _ _ Hmiss), (bind_ok _ _ _ _ _ Hcas).
  set (enq := if known repoData then _ else ret tt).
  assert (He : exists w2, enq w1 = (Ok tt, w2) /\ quiet w1 w2).
  { assert (Hs : safe enq) by (unfold enq; safe_tac).
    assert (Hq : runs_quietly enq) by (unfold enq; quiet_tac).
    destruct (Hs w1) as ([] & w2 & E). specialize (Hq w1). rewrite E in Hq.
    now exists w2. }
  destruct He as (w2 & Ee & Qe). exists w2. split; [exact Qe |].
  rewrite (bind_ok _ _ _ _ _ Ee).
  destruct (truthy_opt (l_content l)); cbn [negb]; [| reflexivity].
  destruct (known repoData); reflexivity.
Qed.

Lemma select_static_in locations results r :
  select_static locations results = Some r -> In r results.
Proof.
  induction locations as [|location rest IH]; cbn; [discriminate |].
  unfold find_result. destruct (List.find _ results) as [r'|] eqn:E.
  - intros H. inversion H; subst. now apply List.find_some in E.
  - exact IH.
Qed.

(** When every strategy fails, the cascade ends with empty content. *)
Lemma exhausted_cascade P env namespace project host w :
  truthy namespace = true -> truthy project = true ->
  exhausted P env namespace project w ->
  exists l w1,
    cascade P (gitlab_repo namespace project host) env w = (Ok l, w1)
    /\ truthy_opt (l_content l) = false
    /\ (l_fileUsed l = "unknown" \/ l_fileUsed l = "llms.txt").
Proof.
  intros Hn Hp (b & w1 & results & w2 & w3 & blob & w4 & w5
                & Hb & Hs & Hall & Hsearch & Hr2 & Hblob & Hreadme).
  assert (Hbt : truthy b = true) by (eapply getRepoBranch_truthy; exact Hb).
  unfold cascade, gitlab_repo. cbn. rewrite Hn, Hp. cbn.
  unfold resolve_gitlab.
  rewrite (bind_ok _ _ _ _ _ Hb), (bind_ok _ _ _ _ _ Hs).
  set (l1 := apply_static namespace project env results _).
  assert (H1 : truthy_opt (l_content l1) = false /\ l_docsBranch l1 = b
               /\ (l_fileUsed l1 = "unknown" \/ l_fileUsed l1 = "llms.txt")).
  { unfold l1, apply_static.
    destruct (select_static possibleLocations results) as [r|] eqn:E; cbn.
    - apply select_static_in in E. rewrite List.Forall_forall in Hall.
      split; [now apply Hall |]. split; [reflexivity | now right].
    - split; [reflexivity |]. split; [reflexivity | now left]. }
  destruct H1 as (C1 & B1 & F1).
  assert (E1 : search_fallback P namespace project env l1 w2 = (Ok l1, w3)).
  { unfold search_fallback. rewrite C1, B1. cbn [negb].
    now rewrite (bind_ok _ _ _ _ _ Hsearch). }
  rewrite (bind_ok _ _ _ _ _ E1).
  set (l2 := set_found blob (l_fileUsed l1) l1).
  assert (E2 : r2_fallback namespace project env l1 w3 = (Ok l2, w4)).
  { unfold r2_fallback. rewrite C1. cbn [negb].
    rewrite (bind_ok _ _ _ _ _ Hr2). now rewrite Hblob. }
  rewrite (bind_ok _ _ _ _ _ E2).
  assert (E3 : readme_fallback P namespace project env l2 w4 = (Ok l2, w5)).
  { unfold readme_fallback. unfold l2 at 1. cbn [l_content set_found].
    rewrite Hblob. cbn [negb].
    replace (l_docsBranch l2) with b by (unfold l2; cbn; congruence).
    rewrite Hbt. cbn [negb].
    rewrite (bind_ok _ _ _ _ _ (eq_refl : ret l2 w4 = (Ok l2, w4))).
    replace (l_docsBranch l2) with b by (unfold l2; cbn; congruence).
    now rewrite (bind_ok _ _ _ _ _ Hreadme). }
  exists l2, w5. split; [exact E3 |]. split; [exact Hblob | exact F1].
Qed.

(** Where every strategy returns and none finds anything, the sentinel is
    returned. *)
Lemma fetchDocumentation_exhausted_returns_sentinel
    P env namespace project host w :
  truthy namespace = true -> truthy project = true ->
  check_cache (gitlab_repo namespace project host) w = (Ok None, w) ->
  exhausted P env namespace project w ->
  exists r w',
    fetchDocumentation P (gitlab_repo namespace project host) env w = (Ok r, w')
    /\ content r = sentinel.
Proof.
  intros Hn Hp Hmiss Hex.
  destruct (exhausted_cascade P env namespace project host w Hn Hp Hex)
    as (l & w1 & Hcas & Hempty & _).
  destruct (fetchDocumentation_miss P _ env w l w1 Hmiss Hcas) as (w2 & _ & E).
  rewrite Hempty in E. eexists _, w2. split; [exact E | reflexivity].
Qed.

Lemma not_found_exhausted : exhausted not_found sample_env "acme" "widgets" world_init.
Proof.
  unfold exhausted. do 8 eexists.
  split; [vm_compute; reflexivity |].
  split; [vm_compute; reflexivity |].
  split; [repeat constructor |].
  split; [vm_compute; reflexivity |].
  split; [vm_compute; reflexivity |].
  split; [reflexivity |].
  vm_compute; reflexivity.
Qed.

(** For a GitLab repository with both names and no live cache entry, the
    resolution throws exactly when the static probe does, with the error of
    the probe; whenever the probe returns, so does the resolution. *)
Lemma fetchDocumentation_throws_with_probe P env namespace project host w :
  truthy namespace = true -> truthy project = true ->
  check_cache (gitlab_repo namespace project host) w = (Ok None, w) ->
  exists docsBranch w1,
    getRepoBranch P namespace project env w = (Ok docsBranch, w1)
    /\ match static_probe P namespace project docsBranch env w1 with
       | (Ok results, w2) =>
           exists r w3,
             fetchDocumentation P (gitlab_repo namespace project host) env w
             = (Ok r, w3)
       | (Throw e, w2) =>
           fetchDocumentation P (gitlab_repo namespace project host) env w
           = (Throw e, w2)
       end.
Proof.
  intros Hn Hp Hmiss.
  destruct (resolve_gitlab_cases P namespace project env locals_init w)
    as (b & w1 & Eb & H).
  exists b, w1. split; [exact Eb |].
  assert (Hc : cascade P (gitlab_repo namespace project host) env w
               = resolve_gitlab P namespace project env locals_init w).
  { unfold cascade, gitlab_repo. cbn. now rewrite Hn, Hp. }
  destruct (static_probe P namespace project b env w1) as [[results|e] w2].
  - destruct H as (l & w3 & E). rewrite <- Hc in E.
    destruct (fetchDocumentation_miss P _ env w l w3 Hmiss E) as (w4 & _ & E').
    cbv zeta in E'. destruct (truthy_opt (l_content l)); eexists _, _; exact E'.
  - rewrite <- Hc in H. unfold fetchDocumentation. cbv zeta.
    now rewrite (bind_ok _ _ _ _ _ Hmiss), (bind_throw _ _ _ _ _ H).
Qed.

(** C8 (the code departs from the claim).  For a repository where no
    strategy finds documentation (the root [llms.txt] is answered 200 but
    its body cannot be read, the other static paths, the search and the
    README search are answered 404 and the blob store has no entry),
    [fetchDocumentation] does not return the sentinel: the rejection of
    [response.text()] in [fetchRawFile] passes through the static probe,
    which has no handler, and is thrown to the caller. *)
Theorem fetchDocumentation_unreadable_file_throws :
  let repoData := gitlab_repo "acme" "widgets" "gitmcp.io" in
  check_cache repoData world_init = (Ok None, world_init)
  /\ fst (fetchFileFromGitLab interrupted_docs "acme" "widgets" "main" "llms.txt"
            sample_env false world_init)
     = Throw "TypeError: the body could not be read"
  /\ fst (searchGitLabRepo interrupted_docs "acme" "widgets" "llms.txt" "main"
            sample_env world_init) = Ok None
  /\ fst (fetchFileFromR2 "acme" "widgets" "llms.txt" sample_env world_init) = Ok None
  /\ fst (searchGitLabRepo interrupted_docs "acme" "widgets" "README+path:/" "main"
            sample_env world_init) = Ok None
  /\ fst (fetchDocumentation interrupted_docs repoData sample_env world_init)
     = Throw "TypeError: the body could not be read".
Proof.
  cbv zeta. repeat split; vm_compute; reflexivity.
Qed.

(** C9.  After a cache miss and a cascade that ended with the locals [l]:
    when the content is empty, the sentinel is returned, the content cache
    is the one before the call, and the events of the call hold no
    content-cache write; a write is made only on the other path, where the
    content is non-empty, and it stores the returned result. *)
Theorem fetchDocumentation_caches_only_content P repoData env w l w1 :
  check_cache repoData w = (Ok None, w) ->
  cascade P repoData env w = (Ok l, w1) ->
  exists r w' evs,
    fetchDocumentation P repoData env w = (Ok r, w')
    /\ trace w' = (trace w ++ evs)%list
    /\ if truthy_opt (l_content l)
       then r = text_result (l_fileUsed l) (default "" (l_content l))
            /\ cache_writes evs = if known repoData then [r] else []
       else r = text_result (l_fileUsed l) "No documentation found."
            /\ cache_writes evs = []
            /\ contentCache w' = contentCache w.
Proof.
  intros Hmiss Hcas.
  destruct (fetchDocumentation_miss P repoData env w l w1 Hmiss Hcas) as (w2 & Q2 & E).
  pose proof (quietly_cascade P repoData env w) as Q1. rewrite Hcas in Q1. cbn in Q1.
  pose proof (quiet_trans _ _ _ Q1 Q2) as [Hc _ _ (evs & Ht & Hq)].
  assert (Hw : cache_writes evs = []).
  { clear Ht. induction Hq as [| e evs He _ IH]; [reflexivity |].
    destruct e; cbn in *; try exact IH. contradiction. }
  destruct (truthy_opt (l_content l)).
  - cbv zeta in E. destruct (known repoData).
    + eexists _, _, (evs ++ [EvContentCachePut _ _ _ _])%list.
      split; [exact E |]. split.
      * cbn. rewrite Ht. now rewrite app_assoc.
      * split; [reflexivity |]. unfold cache_writes in *.
        rewrite omap_app, Hw. reflexivity.
    + eexists _, w2, evs. split; [exact E |]. split; [exact Ht |]. now split.
  - eexists _, w2, evs. split; [exact E |]. split; [exact Ht |].
    split; [reflexivity |]. now split.
Qed.

Lemma fetchDocumentation_caches_only_content_witness :
  let repoData := gitlab_repo "acme" "widgets" "gitmcp.io" in
  let l := {| l_fileUsed := "unknown"; l_content := None; l_docsPath := Some "";
              l_docsBranch := "main"; l_blockedByRobots := false |} in
  cascade not_found repoData sample_env world_init
  = (Ok l, snd (cascade not_found repoData sample_env world_init))
  /\ exists r w' evs,
       fetchDocumentation not_found repoData sample_env world_init = (Ok r, w')
       /\ trace w' = (trace world_init ++ evs)%list
       /\ r = text_result "unknown" "No documentation found."
       /\ cache_writes evs = []
       /\ contentCache w' = contentCache world_init.
Proof.
  cbv zeta.
  assert (Hcas : cascade not_found (gitlab_repo "acme" "widgets" "gitmcp.io") sample_env
                   world_init
                 = (Ok {| l_fileUsed := "unknown"; l_content := None;
                          l_docsPath := Some ""; l_docsBranch := "main";
                          l_blockedByRobots := false |},
                    snd (cascade not_found (gitlab_repo "acme" "widgets" "gitmcp.io")
                           sample_env world_init)))
    by (vm_compute; reflexivity).
  split; [exact Hcas |].
  exact (fetchDocumentation_caches_only_content not_found
           (gitlab_repo "acme" "widgets" "gitmcp.io") sample_env world_init _ _
           eq_refl Hcas).
Defined.

(** *** The content cache *)



(** The cache only ever receives entries for truthy names. *)
Lemma fetchDocumentation_keeps_cache_keys_truthy P repoData env w :
  cache_keys_truthy w -> cache_keys_truthy (snd (fetchDocumentation P repoData env w)).
Proof.
  intros Hwf.
  destruct (check_cache_cases repoData w) as [[r Hhit] | Hmiss].
  - unfold fetchDocumentation. cbv zeta. now rewrite (bind_ok _ _ _ _ _ Hhit).
  - pose proof (quietly_cascade P repoData env w) as Q1.
    destruct (cascade P repoData env w) as [[l|err] wc] eqn:Hcas; cbn in Q1.
    + destruct (fetchDocumentation_miss P repoData env w l wc Hmiss Hcas)
        as (w2 & Q2 & E).
      pose proof (quiet_trans _ _ _ Q1 Q2) as [Hc _ _ _]. rewrite E.
      assert (Hwf2 : cache_keys_truthy w2)
        by (intros n p e He; rewrite Hc in He; now apply (Hwf n p e)).
      destruct (truthy_opt (l_content l)); [| exact Hwf2].
      cbv zeta. cbn [snd]. destruct (known repoData) eqn:Hk; [| exact Hwf2].
      intros n p e He. cbn in He.
      destruct (decide ((default "" (namespace repoData),
                         default "" (project repoData)) = (n, p))) as [Heq|Hne].
      * inversion Heq; subst. unfold known in Hk. apply andb_true_iff in Hk.
        destruct (namespace repoData), (project repoData); cbn in *;
          destruct Hk; try discriminate. now split.
      * rewrite lookup_insert_ne in He by exact Hne. now apply (Hwf2 n p e).
    + unfold fetchDocumentation. cbv zeta.
      rewrite (bind_ok _ _ _ _ _ Hmiss), (bind_throw _ _ _ _ _ Hcas). cbn.
      destruct Q1 as [Hc _ _ _]. intros n p e He. rewrite Hc in He.
      now apply (Hwf n p e).
Qed.

Lemma world_init_cache_keys_truthy : cache_keys_truthy world_init.
Proof. intros n p e H. cbn in H. now rewrite lookup_empty in H. Qed.




(** Two resolutions in a row on a repository that has its [llms.txt]: the
    first fetches and writes the cache, the second returns the same result
    and issues no request. *)
Example fetchDocumentation_twice :
  let repoData := gitlab_repo "acme" "widgets" "gitmcp.io" in
  let first := fetchDocumentation documented repoData sample_env world_init in
  let second := fetchDocumentation documented repoData sample_env (snd first) in
  fst first = Ok (text_result "llms.txt" "# Widgets")
  /\ fst second = fst first
  /\ fetches (snd first) = 6%nat
  /\ snd second = snd first
  /\ cache_writes (trace (snd first)) = [text_result "llms.txt" "# Widgets"].
Proof. vm_compute. repeat split; reflexivity. Qed.

(** * Further properties *)

(** ** The delay before a request is bounded *)

(** X1.  [respectRateLimits] always resolves, and either starts no timer or
    exactly one, of at least 1000 ms and at most 60000 ms. *)
Theorem respectRateLimits_delay_bounds w :
  exists w',
    respectRateLimits w = (Ok tt, w')
    /\ (w' = w
        \/ exists d, 1000 <= d <= 60000 /\ w' = snd (sleep (Num d) w)).
Proof.
  unfold respectRateLimits, bind, get_apiRateLimit, Date_now.
  destruct (jnum_lt (remaining (apiRateLimit w)) (Num 5)).
  - destruct (resetTime (apiRateLimit w)) as [[|r]|].
    + eexists. split; [reflexivity | now left].
    + cbn. destruct (0 <? r - now w) eqn:E.
      * eexists. split; [reflexivity |]. right.
        exists (Z.min (r - now w + 1000) 60000). apply Z.ltb_lt in E.
        split; [lia | reflexivity].
      * eexists. split; [reflexivity | now left].
    + eexists. split; [reflexivity |]. right. exists 1000.
      split; [lia | reflexivity].
  - eexists. split; [reflexivity |]. right. exists 1000. split; [lia | reflexivity].
Qed.

(** ** The default branch *)

Lemma response_json_yields r :
  yields (response_json r) (fun j => json r = Some j).
Proof.
  unfold response_json. destruct (json r) as [j|];
    [now apply yields_ret | apply yields_throw].
Qed.

(** X2.  [getRepoBranch] never throws.  The branch it returns is ["main"],
    ["master"], or the non-empty [default_branch] of a successful answer of
    the project endpoint. *)
Theorem getRepoBranch_result P namespace project env w :
  exists b w',
    getRepoBranch P namespace project env w = (Ok b, w')
    /\ truthy b = true
    /\ (b = "main" \/ b = "master"
        \/ exists r w1,
             gitlabApiRequest P
               (getGitLabApiBaseUrl env +:+ "/projects/"
                +:+ encodeProjectPath P namespace project)
               no_options env 0 true w = (Ok (Some r), w1)
             /\ ok r = true /\ json r = Some (JProject (Some b))).
Proof.
  destruct (safe_getRepoBranch P namespace project env w) as (b & w' & E).
  exists b, w'. split; [exact E |].
  split; [eapply getRepoBranch_truthy; exact E |].
  revert E. unfold getRepoBranch. cbv zeta. unfold try_catch.
  destruct (gitlabApiRequest_safe P
              (getGitLabApiBaseUrl env +:+ "/projects/"
               +:+ encodeProjectPath P namespace project) no_options env 0 true w)
    as (response & w1 & E1).
  rewrite (bind_ok _ _ _ _ _ E1).
  match goal with
  | |- match ?m w1 with _ => _ end = _ -> _ =>
      assert (Hy : yields m
                (fun b' => b' = "main" \/ b' = "master"
                           \/ exists r, response = Some r /\ ok r = true
                                        /\ json r = Some (JProject (Some b'))));
      [| destruct (m w1) as [[b'|e] w2] eqn:Em]
  end.
  - eapply yields_bind
      with (R := fun found => forall b', found = Some b' ->
                   exists r, response = Some r /\ ok r = true
                             /\ json r = Some (JProject (Some b'))).
    + destruct response as [r|]; [| apply yields_ret; discriminate].
      destruct (ok r) eqn:Eok; [| apply yields_ret; discriminate].
      eapply yields_bind; [apply response_json_yields |]. intros data Hd.
      destruct data as [| [db|] |]; try (apply yields_ret; discriminate).
      destruct (truthy db); apply yields_ret; [| discriminate].
      intros b' Hb'. inversion Hb'; subst. exists r. now repeat split.
    + intros [b'|] Hb.
      * apply yields_ret. right. right. now apply Hb.
      * eapply yields_bind; [apply yields_True |]. intros mainResponse _.
        destruct (negb (failed mainResponse)); [apply yields_ret; now left |].
        eapply yields_bind; [apply yields_True |]. intros masterResponse _.
        destruct (negb (failed masterResponse));
          [apply yields_ret; right; now left | apply yields_throw].
  - intros H. inversion H; subst.
    destruct (Hy _ _ _ Em) as [-> | [-> | (r & -> & Hok & Hj)]];
      [now left | right; now left |].
    right. right. exists r, w1. now repeat split.
  - intros H. inversion H; subst. now left.
Qed.

(** ** The content cache holds documents only *)

Lemma check_cache_hit_inv repoData w r :
  check_cache repoData w = (Ok (Some r), w) ->
  exists key e, contentCache w !! key = Some e /\ value e = r.
Proof.
  unfold check_cache, getCachedFetchDocResult.
  destruct (known repoData); [| discriminate].
  destruct (contentCache w !! _) as [e|] eqn:E; [| discriminate].
  destruct (now w <=? expiresAt e); [| discriminate].
  intros H. inversion H. eexists _, e. split; [exact E | reflexivity].
Qed.

(** X3.  If every entry of the content cache is a document (one text part,
    non-empty), then so is every entry after a call of [fetchDocumentation],
    and so is the result the call returns. *)
Theorem fetchDocumentation_keeps_cache_documents P repoData env w :
  cache_holds_documents w ->
  cache_holds_documents (snd (fetchDocumentation P repoData env w))
  /\ forall r, fst (fetchDocumentation P repoData env w) = Ok r ->
               exists fileUsed text,
                 r = text_result fileUsed text /\ truthy text = true.
Proof.
  intros Hwf.
  destruct (check_cache_cases repoData w) as [[r Hhit] | Hmiss].
  - unfold fetchDocumentation. cbv zeta. rewrite (bind_ok _ _ _ _ _ Hhit). cbn.
    split; [exact Hwf |]. intros r' Hr. inversion Hr; subst.
    apply check_cache_hit_inv in Hhit as (key & e & He & <-). now apply (Hwf key).
  - pose proof (quietly_cascade P repoData env w) as Q1.
    destruct (cascade P repoData env w) as [[l|err] wc] eqn:Hcas; cbn in Q1.
    + destruct (fetchDocumentation_miss P repoData env w l wc Hmiss Hcas)
        as (w2 & Q2 & E).
      pose proof (quiet_trans _ _ _ Q1 Q2) as [Hc _ _ _]. rewrite E.
      assert (Hwf2 : cache_holds_documents w2)
        by (intros k e He; rewrite Hc in He; now apply (Hwf k)).
      destruct (truthy_opt (l_content l)) eqn:Tc.
      * cbv zeta. cbn [fst snd].
        assert (Ht : truthy (default "" (l_content l)) = true)
          by (destruct (l_content l); [exact Tc | discriminate]).
        split.
        -- destruct (known repoData); [| exact Hwf2].
           intros k e He. cbn in He.
           destruct (decide ((default "" (namespace repoData),
                              default "" (project repoData)) = k)) as [<-|Hne].
           ++ rewrite lookup_insert_eq in He. inversion He; subst. cbn.
              now eexists _, _.
           ++ rewrite lookup_insert_ne in He by exact Hne. now apply (Hwf2 k).
        -- intros r Hr. inversion Hr; subst. now eexists _, _.
      * cbn [fst snd]. split; [exact Hwf2 |].
        intros r Hr. inversion Hr; subst. now eexists _, _.
    + unfold fetchDocumentation. cbv zeta.
      rewrite (bind_ok _ _ _ _ _ Hmiss), (bind_throw _ _ _ _ _ Hcas). cbn.
      split; [| discriminate].
      destruct Q1 as [Hc _ _ _]. intros k e He. rewrite Hc in He. now apply (Hwf k).
Qed.

Lemma world_init_holds_documents : cache_holds_documents world_init.
Proof. intros k e H. cbn in H. now rewrite lookup_empty in H. Qed.

Lemma fetchDocumentation_keeps_cache_documents_witness :
  let run := fetchDocumentation documented (gitlab_repo "acme" "widgets" "gitmcp.io")
               sample_env world_init in
  cache_holds_documents (snd run)
  /\ forall r, fst run = Ok r ->
               exists fileUsed text,
                 r = text_result fileUsed text /\ truthy text = true.
Proof.
  exact (fetchDocumentation_keeps_cache_documents documented
           (gitlab_repo "acme" "widgets" "gitmcp.io") sample_env world_init
           world_init_holds_documents).
Defined.

(** ** The number of requests of a resolution *)

Lemma within_ret {A} (a : A) : fetches_within 0 (ret a).
Proof. intros w. cbn. lia. Qed.

Lemma within_throw {A} e : fetches_within 0 (@throw A e).
Proof. intros w. cbn. lia. Qed.

Lemma within_le {A} (m : M A) n n' :
  (n <= n')%nat -> fetches_within n m -> fetches_within n' m.
Proof. intros Hle H w. specialize (H w). lia. Qed.

Lemma within_bind {A B} (m : M A) (k : A -> M B) n1 n2 :
  fetches_within n1 m -> (forall a, fetches_within n2 (k a)) ->
  fetches_within (n1 + n2) (bind m k).
Proof.
  intros Hm Hk w. specialize (Hm w). unfold bind.
  destruct (m w) as [[a|e] w1]; cbn in *; [| lia].
  specialize (Hk a w1). lia.
Qed.

Lemma within_bind_yields {A B} (m : M A) (k : A -> M B) (R : A -> Prop) n1 n2 :
  fetches_within n1 m -> yields m R -> (forall a, R a -> fetches_within n2 (k a)) ->
  fetches_within (n1 + n2) (bind m k).
Proof.
  intros Hm Hy Hk w. specialize (Hm w). unfold bind.
  destruct (m w) as [[a|e] w1] eqn:E; cbn in *; [| lia].
  specialize (Hk a (Hy _ _ _ E) w1). lia.
Qed.

Lemma within_try_catch {A} (m : M A) h n1 n2 :
  fetches_within n1 m -> (forall e, fetches_within n2 (h e)) ->
  fetches_within (n1 + n2) (try_catch m h).
Proof.
  intros Hm Hh w. specialize (Hm w). unfold try_catch.
  destruct (m w) as [[a|e] w1]; cbn in *; [lia |].
  specialize (Hh e w1). lia.
Qed.

Lemma within_emit e : fetches_within 0 (emit e).
Proof. intros w. cbn. lia. Qed.

Lemma within_gitlabApiRequest P url options env retryCount useAuth :
  fetches_within 4 (gitlabApiRequest P url options env retryCount useAuth).
Proof.
  intros w. destruct (headers_rejected P options) eqn:Hr.
  - destruct (gitlabApiRequest_rejected_headers P url options env Hr _ retryCount
                useAuth w eq_refl) as (w' & E & F & _).
    rewrite E. cbn. lia.
  - destruct (gitlabApiRequest_run P url options env Hr _ retryCount useAuth w eq_refl)
      as (res & w' & k & E & Fk & Hk & _). rewrite E. cbn.
    unfold MAX_RETRIES in Hk. lia.
Qed.

Lemma within_response_text r : fetches_within 0 (response_text r).
Proof. unfold response_text. destruct (body r); [apply within_ret | apply within_throw]. Qed.

Lemma within_fetchFileFromGitLab P namespace project branch path env useAuth :
  fetches_within 4 (fetchFileFromGitLab P namespace project branch path env useAuth).
Proof.
  unfold fetchFileFromGitLab, fetchRawFile. cbv zeta.
  apply (within_bind _ _ 4 0); [apply within_gitlabApiRequest |].
  intros [r|]; [destruct (negb (ok r)) |]; try apply within_ret.
  apply (within_bind _ _ 0 0); [apply within_response_text | intros; apply within_ret].
Qed.

Lemma within_searchFileByName P filename namespace project env :
  fetches_within 4 (searchFileByName P filename namespace project env).
Proof.
  unfold searchFileByName. cbv zeta.
  apply (within_bind _ _ 4 0); [apply within_gitlabApiRequest |].
  intros [r|]; [| apply within_ret].
  destruct (negb (ok r)); [apply within_ret |].
  apply (within_bind _ _ 0 0).
  - unfold response_json. destruct (json r); [apply within_ret | apply within_throw].
  - intros [| |]; first [apply within_ret | apply within_throw].
Qed.

Lemma within_searchGitLabRepo P namespace project filename branch env :
  fetches_within 8 (searchGitLabRepo P namespace project filename branch env).
Proof.
  unfold searchGitLabRepo.
  apply (within_try_catch _ _ 8 0); [| intros; apply within_ret].
  apply (within_bind _ _ 0 8); [intros w; cbn; lia |]. intros cachedFile. cbv zeta.
  apply (within_bind _ _ 4 4).
  - destruct (negb (truthy_opt _)); [| apply (within_le _ 0); [lia | apply within_ret]].
    apply (within_bind _ _ 4 0); [apply within_searchFileByName |].
    intros [d|]; [destruct (_ || _) |]; apply within_ret.
  - intros [filePath|]; [| apply (within_le _ 0); [lia | apply within_ret]].
    apply (within_bind _ _ 4 0); [apply within_fetchFileFromGitLab |].
    intros content. destruct (truthy_opt content); [| apply within_ret].
    apply (within_bind _ _ 0 0); [apply within_emit | intros; apply within_ret].
Qed.

Lemma within_getRepoBranch P namespace project env :
  fetches_within 12 (getRepoBranch P namespace project env).
Proof.
  unfold getRepoBranch.
  apply (within_try_catch _ _ 12 0); [| intros; apply within_ret]. cbv zeta.
  apply (within_bind _ _ 4 8); [apply within_gitlabApiRequest |]. intros response.
  apply (within_bind _ _ 0 8).
  - destruct response as [r|]; [| apply within_ret].
    destruct (ok r); [| apply within_ret].
    apply (within_bind _ _ 0 0).
    + unfold response_json. destruct (json r); [apply within_ret | apply within_throw].
    + intros [| [b|] |]; try apply within_ret. destruct (truthy b); apply within_ret.
  - intros [b|]; [apply (within_le _ 0); [lia | apply within_ret] |].
    apply (within_bind _ _ 4 4); [apply within_gitlabApiRequest |]. intros r1.
    destruct (negb (failed r1)); [apply (within_le _ 0); [lia | apply within_ret] |].
    apply (within_bind _ _ 4 0); [apply within_gitlabApiRequest |]. intros r2.
    destruct (negb (failed r2)); [apply within_ret | apply within_throw].
Qed.

Lemma within_Promise_all {A} (promises : list (M A)) n :
  Forall (fetches_within n) promises ->
  fetches_within (n * length promises) (Promise_all promises).
Proof.
  induction 1 as [| p ps Hp _ IH]; cbn [Promise_all length].
  - apply (within_le _ 0); [lia | apply within_ret].
  - intros w. specialize (Hp w). destruct (p w) as [a w1]. cbn in Hp.
    specialize (IH w1). destruct (Promise_all ps w1) as [l w2]. cbn in IH |- *. lia.
Qed.

Lemma within_static_probe P namespace project docsBranch env :
  fetches_within 12 (static_probe P namespace project docsBranch env).
Proof.
  unfold static_probe. cbn [List.map possibleLocations].
  apply (within_le _ (4 * 3)); [lia |].
  match goal with
  | |- fetches_within _ (Promise_all ?ps) => apply (within_Promise_all ps 4)
  end.
  repeat (constructor;
          [apply (within_bind _ _ 4 0);
           [apply within_fetchFileFromGitLab | intros; apply within_ret] |]).
  constructor.
Qed.

Lemma search_fallback_keeps_branch P namespace project env l :
  yields (search_fallback P namespace project env l)
    (fun l' => l_docsBranch l' = l_docsBranch l).
Proof.
  unfold search_fallback. destruct (negb _); [| now apply yields_ret].
  eapply yields_bind; [apply yields_True |].
  intros [f|] _; now apply yields_ret.
Qed.

Lemma r2_fallback_keeps_branch namespace project env l :
  yields (r2_fallback namespace project env l)
    (fun l' => l_docsBranch l' = l_docsBranch l).
Proof.
  unfold r2_fallback. destruct (negb _); [| now apply yields_ret].
  eapply yields_bind; [apply yields_True |].
  intros c _. destruct (truthy_opt c); now apply yields_ret.
Qed.

Lemma within_search_fallback P namespace project env l :
  fetches_within 8 (search_fallback P namespace project env l).
Proof.
  unfold search_fallback.
  destruct (negb _); [| apply (within_le _ 0); [lia | apply within_ret]].
  apply (within_bind _ _ 8 0); [apply within_searchGitLabRepo |].
  intros [f|]; apply within_ret.
Qed.

Lemma within_r2_fallback namespace project env l :
  fetches_within 0 (r2_fallback namespace project env l).
Proof.
  unfold r2_fallback. destruct (negb _); [| apply within_ret].
  apply (within_bind _ _ 0 0).
  - unfold fetchFileFromR2. destruct (_ && _); [| apply within_ret].
    destruct (DOCS_BUCKET env) as [bucket|]; [| apply within_ret].
    apply (within_try_catch _ _ 0 0); [| intros; apply within_ret]. cbv zeta.
    apply (within_bind _ _ 0 0); [apply within_emit |]. intros _.
    destruct (bucket _); first [apply within_ret | apply within_throw].
  - intros c. destruct (truthy_opt c); apply within_ret.
Qed.

(** With a branch in hand, the README fallback does not ask for it again. *)
Lemma within_readme_fallback P namespace project env l :
  truthy (l_docsBranch l) = true ->
  fetches_within 8 (readme_fallback P namespace project env l).
Proof.
  intros Hb. unfold readme_fallback. rewrite Hb. cbn [negb].
  destruct (negb _); [| apply (within_le _ 0); [lia | apply within_ret]].
  apply (within_bind _ _ 0 8); [apply within_ret |]. intros l'.
  apply (within_bind _ _ 8 0); [apply within_searchGitLabRepo |].
  intros [f|]; [| apply within_ret].
  destruct (file_path f); [apply within_ret | apply within_throw].
Qed.

Lemma within_resolve_gitlab P namespace project env l :
  fetches_within 40 (resolve_gitlab P namespace project env l).
Proof.
  unfold resolve_gitlab.
  apply (within_bind_yields _ _ (fun b => truthy b = true) 12 28);
    [apply within_getRepoBranch | apply getRepoBranch_truthy |].
  intros b Hb. cbv zeta.
  apply (within_bind _ _ 12 16); [apply within_static_probe |]. intros results.
  set (l1 := apply_static namespace project env results (set_docsBranch b l)).
  assert (H1 : l_docsBranch l1 = b).
  { unfold l1, apply_static. now destruct (select_static _ _). }
  eapply (within_bind_yields _ _ _ 8 8);
    [apply within_search_fallback | apply search_fallback_keeps_branch |].
  intros l2 H2.
  eapply (within_bind_yields _ _ _ 0 8);
    [apply within_r2_fallback | apply r2_fallback_keeps_branch |].
  intros l3 H3. apply within_readme_fallback. congruence.
Qed.

Lemma within_cascade P repoData env :
  fetches_within 40 (cascade P repoData env)
  /\ (urlType repoData <> gitlab -> fetches_within 0 (cascade P repoData env)).
Proof.
  assert (Hsub : fetches_within 0
                   (resolve_subdomain P (namespace repoData) (project repoData)
                      locals_init)).
  { unfold resolve_subdomain, robots_fetch. cbv zeta.
    repeat first
      [ apply within_ret | apply within_throw | apply within_emit
      | apply (within_bind _ _ 0 0); [| intros ?]
      | match goal with
        | |- fetches_within _ (if ?b then _ else _) => destruct b
        | |- fetches_within _ (match ?x with _ => _ end) => destruct x
        end ]. }
  unfold cascade. split.
  - destruct (urlType repoData).
    + apply (within_le _ 0); [lia | exact Hsub].
    + destruct (_ && _); [apply within_resolve_gitlab |].
      apply (within_le _ 0); [lia | apply within_ret].
    + apply (within_le _ 0); [lia | apply within_ret].
  - intros Hu. destruct (urlType repoData); [exact Hsub | congruence | apply within_ret].
Qed.

Lemma within_check_cache repoData : fetches_within 0 (check_cache repoData).
Proof.
  intros w. destruct (check_cache_cases repoData w) as [[r E] | E]; rewrite E; cbn; lia.
Qed.

Lemma within_fetchDocumentation P repoData env n :
  fetches_within n (cascade P repoData env) ->
  fetches_within n (fetchDocumentation P repoData env).
Proof.
  intros Hcas. unfold fetchDocumentation. cbv zeta.
  apply (within_bind _ _ 0 n); [apply within_check_cache |].
  intros [cached|]; [apply (within_le _ 0); [lia | apply within_ret] |].
  apply (within_le _ (n + 0)); [lia |].
  apply within_bind; [exact Hcas |]. intros l.
  apply (within_bind _ _ 0 0).
  - destruct (known repoData); [| apply within_ret].
    unfold enqueueDocumentationProcessing.
    apply (within_try_catch _ _ 0 0); [| intros; apply within_ret].
    destruct (MY_QUEUE env) as [[|]|]; cbv zeta;
      first [apply within_emit | apply within_throw | apply within_ret].
  - intros _. destruct (negb _); [apply within_ret |].
    apply (within_bind _ _ 0 0); [| intros; apply within_ret].
    destruct (known repoData); [| apply within_ret].
    apply (within_try_catch _ _ 0 0); [| intros; apply within_ret].
    intros w0. cbn. lia.
Qed.

(** ** What a computation emits *)

Lemma emits_same {A} Q (m : M A) :
  (forall w, trace (snd (m w)) = trace w) -> emits Q m.
Proof.
  intros H w. exists []. split; [rewrite H; now rewrite app_nil_r | constructor].
Qed.

Lemma emits_ret {A} Q (a : A) : emits Q (ret a).
Proof. now apply emits_same. Qed.

Lemma emits_throw {A} Q e : emits Q (@throw A e).
Proof. now apply emits_same. Qed.

Lemma emits_bind {A B} Q (m : M A) (k : A -> M B) :
  emits Q m -> (forall a, emits Q (k a)) -> emits Q (bind m k).
Proof.
  intros Hm Hk w. destruct (Hm w) as (e1 & E1 & F1). unfold bind.
  destruct (m w) as [[a|e] w1]; cbn in *; [| now exists e1].
  destruct (Hk a w1) as (e2 & E2 & F2). exists (e1 ++ e2)%list.
  split; [rewrite E2, E1; now rewrite app_assoc | now apply Forall_app].
Qed.

Lemma emits_try_catch {A} Q (m : M A) h :
  emits Q m -> (forall e, emits Q (h e)) -> emits Q (try_catch m h).
Proof.
  intros Hm Hh w. destruct (Hm w) as (e1 & E1 & F1). unfold try_catch.
  destruct (m w) as [[a|e] w1]; cbn in *; [now exists e1 |].
  destruct (Hh e w1) as (e2 & E2 & F2). exists (e1 ++ e2)%list.
  split; [rewrite E2, E1; now rewrite app_assoc | now apply Forall_app].
Qed.

Lemma emits_mono {A} (Q Q' : Event -> Prop) (m : M A) :
  (forall e, Q e -> Q' e) -> emits Q m -> emits Q' m.
Proof.
  intros HQ Hm w. destruct (Hm w) as (evs & E & F). exists evs.
  split; [exact E |]. eapply Forall_impl; [exact F | exact HQ].
Qed.

Lemma emits_emit Q e : Q e -> emits Q (emit e).
Proof. intros He w. exists [e]. split; [reflexivity | now repeat constructor]. Qed.

Lemma emits_sleep Q ms : Q (EvSleep ms) -> emits Q (sleep ms).
Proof. intros He w. exists [EvSleep ms]. split; [reflexivity | now repeat constructor]. Qed.

Lemma emits_fetch Q P req : Q (EvFetch req) -> emits Q (fetch P req).
Proof.
  intros He w. exists [EvFetch req]. split; [| now repeat constructor].
  unfold fetch. now destruct (network P (fetches w) req).
Qed.

Lemma emits_when Q b m : emits Q m -> emits Q (when b m).
Proof. intros H. destruct b; [exact H | apply emits_ret]. Qed.

Lemma emits_Date_now Q : emits Q Date_now.
Proof. now apply emits_same. Qed.

Lemma emits_get_apiRateLimit Q : emits Q get_apiRateLimit.
Proof. now apply emits_same. Qed.

Lemma emits_observe_headers Q h : emits Q (observe_headers h).
Proof. now apply emits_same. Qed.

Lemma emits_response_json Q r : emits Q (response_json r).
Proof. unfold response_json. destruct (json r); [apply emits_ret | apply emits_throw]. Qed.

Lemma emits_response_text Q r : emits Q (response_text r).
Proof. unfold response_text. destruct (body r); [apply emits_ret | apply emits_throw]. Qed.

Create HintDb emits_db.
#[local] Hint Resolve emits_ret emits_throw emits_when emits_Date_now
  emits_get_apiRateLimit emits_observe_headers emits_response_json
  emits_response_text : emits_db.
#[local] Hint Extern 2 (emits _ (emit _)) => (apply emits_emit) : emits_db.
#[local] Hint Extern 2 (emits _ (sleep _)) => (apply emits_sleep) : emits_db.
#[local] Hint Extern 2 (emits _ (fetch _ _)) => (apply emits_fetch) : emits_db.

Ltac emits_step :=
  lazymatch goal with
  | |- emits _ (bind _ _) => apply emits_bind; [| intros ?]
  | |- emits _ (try_catch _ _) => apply emits_try_catch; [| intros ?]
  | |- emits _ (if ?b then _ else _) => destruct b eqn:?
  | |- emits _ (match ?x with _ => _ end) => destruct x eqn:?
  | |- _ => solve [auto with emits_db]
  end.
Ltac emits_tac := cbv zeta; repeat emits_step.

Lemma emits_respectRateLimits Q : allows_timers Q -> emits Q respectRateLimits.
Proof. intros [Hs Ha]. unfold respectRateLimits. emits_tac. Qed.

Lemma emits_gitlabApiRequest_body Q P self url options env retryCount useAuth :
  allows_timers Q ->
  (forall a, Q (EvFetch (request_of url options env a))) ->
  (forall r a, emits Q (self url options env r a)) ->
  emits Q (gitlabApiRequest_body P self url options env retryCount useAuth).
Proof.
  intros HT Hf Hself. pose proof (emits_respectRateLimits Q HT) as Hr.
  destruct HT as [Hs Ha]. unfold gitlabApiRequest_body. emits_tac.
Qed.

Lemma emits_gitlabApiRequest Q P url options env retryCount useAuth :
  allows_timers Q ->
  (forall a, Q (EvFetch (request_of url options env a))) ->
  emits Q (gitlabApiRequest P url options env retryCount useAuth).
Proof.
  intros HT Hf. unfold gitlabApiRequest. generalize (MAX_RETRIES - retryCount)%nat.
  intros budget. revert retryCount useAuth.
  induction budget as [|b IH]; intros; cbn [gitlabApiRequest_aux];
    apply emits_gitlabApiRequest_body; auto with emits_db.
Qed.

(** *** Request headers *)

Lemma headers_get_app h1 h2 name :
  headers_get (h1 ++ h2)%list name
  = match headers_get h1 name with
    | Some v => Some v
    | None => headers_get h2 name
    end.
Proof.
  induction h1 as [|[k v] h1 IH]; cbn; [reflexivity |].
  destruct (String.eqb k name); [reflexivity | exact IH].
Qed.

Lemma headers_get_filter_eq (h : list (string * string)) name :
  headers_get (filter (fun kv => negb (String.eqb (fst kv) name)) h) name = None.
Proof.
  induction h as [|[k v] h IH]; [reflexivity |].
  rewrite filter_cons. cbn [fst]. destruct (decide _) as [Hd|Hd].
  - cbn. destruct (String.eqb k name) eqn:E; [now cbn in Hd | exact IH].
  - exact IH.
Qed.

Lemma headers_get_filter_ne (h : list (string * string)) name name' :
  name <> name' ->
  headers_get (filter (fun kv => negb (String.eqb (fst kv) name)) h) name'
  = headers_get h name'.
Proof.
  intros Hne. induction h as [|[k v] h IH]; [reflexivity |].
  rewrite filter_cons. cbn [fst]. destruct (decide _) as [Hd|Hd].
  - cbn. destruct (String.eqb k name'); [reflexivity | exact IH].
  - cbn. destruct (String.eqb k name') eqn:E; [| exact IH].
    apply String.eqb_eq in E. subst k. exfalso. apply Hd.
    destruct (String.eqb name' name) eqn:E'; [| exact I].
    apply String.eqb_eq in E'. congruence.
Qed.

(** What was set is read back, and other names are not disturbed. *)
Lemma headers_get_set_eq h name v :
  headers_get (headers_set h name v) name = Some v.
Proof.
  unfold headers_set. rewrite headers_get_app, headers_get_filter_eq. cbn.
  now rewrite String.eqb_refl.
Qed.

Lemma headers_get_set_ne h name v name' :
  name <> name' ->
  headers_get (headers_set h name v) name' = headers_get h name'.
Proof.
  intros Hne. unfold headers_set. rewrite headers_get_app.
  rewrite (headers_get_filter_ne _ _ _ Hne). destruct (headers_get h name'); [reflexivity |].
  cbn. destruct (String.eqb name name') eqn:E; [| reflexivity].
  apply String.eqb_eq in E. congruence.
Qed.

Lemma request_of_request_for url options env a :
  request_for url options env (request_of url options env a).
Proof.
  unfold request_for, request_of. cbn [req_url req_method req_headers].
  split; [reflexivity |]. split; [reflexivity |].
  destruct (a && truthy_opt (GITLAB_TOKEN env)) eqn:E.
  - split; [| split].
    + rewrite headers_get_set_ne by discriminate.
      rewrite headers_get_set_ne by discriminate. apply headers_get_set_eq.
    + rewrite headers_get_set_ne by discriminate. apply headers_get_set_eq.
    + intros Hno. rewrite Hno, andb_false_r in E. discriminate.
  - split; [| split].
    + rewrite headers_get_set_ne by discriminate. apply headers_get_set_eq.
    + apply headers_get_set_eq.
    + intros _. now rewrite !headers_get_set_ne by discriminate.
Qed.

(** X5.  Every request made by one call of [gitlabApiRequest], first
    attempt and retries alike, goes to the [url] of the call with the method
    of [options], carries the [Accept] and [User-Agent] headers, and, when no
    token is configured, carries no [PRIVATE-TOKEN] header of the client's
    own. *)
Theorem gitlabApiRequest_requests P url options env retryCount useAuth w :
  exists evs,
    trace (snd (gitlabApiRequest P url options env retryCount useAuth w))
    = (trace w ++ evs)%list
    /\ Forall (request_for url options env) (fetched evs).
Proof.
  destruct (emits_gitlabApiRequest
              (fun e => match e with
                        | EvFetch req => request_for url options env req
                        | _ => True
                        end)
              P url options env retryCount useAuth) with (w := w)
    as (evs & E & F).
  - split; intros; exact I.
  - intros a. apply request_of_request_for.
  - exists evs. split; [exact E |]. clear E.
    induction F as [| e evs He _ IH]; [constructor |].
    destruct e; cbn; try exact IH. now constructor.
Qed.

(** ** The events of the cascade *)

Lemma is_prefix_app (a b : string) : is_prefix a (a +:+ b) = true.
Proof.
  induction a as [|x a IH]; [reflexivity |].
  rewrite string_app_cons. cbn [is_prefix]. now rewrite Ascii.eqb_refl, IH.
Qed.

Lemma repo_url_raw P env namespace project branch path :
  repo_url P env namespace project
    (constructGitlabUrl namespace project branch path env) = true.
Proof.
  unfold repo_url, constructGitlabUrl. cbv zeta. apply orb_true_iff. left.
  replace (getGitLabBaseUrl env +:+ "/" +:+ namespace +:+ "/" +:+ project
           +:+ "/-/raw/" +:+ branch +:+ "/" +:+ path)
    with ((getGitLabBaseUrl env +:+ "/" +:+ namespace +:+ "/" +:+ project
           +:+ "/-/raw/") +:+ branch +:+ "/" +:+ path)
    by (now rewrite !string_app_assoc).
  apply is_prefix_app.
Qed.

Lemma repo_url_api P env namespace project rest :
  repo_url P env namespace project
    (getGitLabApiBaseUrl env +:+ "/projects/"
     +:+ encodeProjectPath P namespace project +:+ rest) = true.
Proof.
  unfold repo_url. apply orb_true_iff. right.
  replace (getGitLabApiBaseUrl env +:+ "/projects/"
           +:+ encodeProjectPath P namespace project +:+ rest)
    with ((getGitLabApiBaseUrl env +:+ "/projects/"
           +:+ encodeProjectPath P namespace project) +:+ rest)
    by (now rewrite !string_app_assoc).
  apply is_prefix_app.
Qed.

Section CascadeEvents.

Variable Q : Event -> Prop.
Variable P : Platform.
Variable env : CloudflareEnvironment.
Variables namespace project : string.

Hypothesis HT : allows_timers Q.
Hypothesis HF :
  forall url options a,
    repo_url P env namespace project url = true ->
    Q (EvFetch (request_of url options env a)).
Hypothesis HP :
  forall filename filePath branch,
    Q (EvPathCachePut namespace project filename filePath branch).
Hypothesis HR : forall key, Q (EvR2Get key).

Lemma emits_fetchFileFromGitLab branch path useAuth :
  emits Q (fetchFileFromGitLab P namespace project branch path env useAuth).
Proof.
  unfold fetchFileFromGitLab, fetchRawFile. cbv zeta.
  apply emits_bind; [| intros; emits_tac].
  apply emits_gitlabApiRequest; [exact HT |]. intros a. apply HF, repo_url_raw.
Qed.

Lemma emits_searchFileByName filename :
  emits Q (searchFileByName P filename namespace project env).
Proof.
  unfold searchFileByName. cbv zeta.
  apply emits_bind; [| intros; emits_tac].
  apply emits_gitlabApiRequest; [exact HT |]. intros a. apply HF, repo_url_api.
Qed.

Lemma emits_searchGitLabRepo filename branch :
  emits Q (searchGitLabRepo P namespace project filename branch env).
Proof.
  pose proof emits_fetchFileFromGitLab as H1.
  pose proof emits_searchFileByName as H2.
  assert (H3 : emits Q (fun w => (Ok (getCachedFilePath P namespace project w), w)))
    by now apply emits_same.
  unfold searchGitLabRepo, cacheFilePath. emits_tac.
Qed.

Lemma emits_getRepoBranch : emits Q (getRepoBranch P namespace project env).
Proof.
  assert (H1 : forall r a,
    emits Q (gitlabApiRequest P
               (getGitLabApiBaseUrl env +:+ "/projects/"
                +:+ encodeProjectPath P namespace project) no_options env r a)).
  { intros. apply emits_gitlabApiRequest; [exact HT |]. intros a'. apply HF.
    rewrite <- (string_app_nil_r (encodeProjectPath P namespace project)).
    apply repo_url_api. }
  assert (H2 : forall branch path o r a,
    emits Q (gitlabApiRequest P (constructGitlabUrl namespace project branch path env)
               o env r a)).
  { intros. apply emits_gitlabApiRequest; [exact HT |]. intros a'.
    apply HF, repo_url_raw. }
  unfold getRepoBranch. emits_tac.
Qed.

Lemma emits_Promise_all {A} (promises : list (M A)) :
  Forall (emits Q) promises -> emits Q (Promise_all promises).
Proof.
  induction 1 as [| p ps Hp _ IH]; cbn [Promise_all]; [apply emits_ret |].
  intros w. destruct (Hp w) as (e1 & E1 & F1). destruct (p w) as [a w1]. cbn in E1.
  destruct (IH w1) as (e2 & E2 & F2). destruct (Promise_all ps w1) as [l w2].
  cbn in E2 |- *. exists (e1 ++ e2)%list.
  split; [rewrite E2, E1; now rewrite app_assoc | now apply Forall_app].
Qed.

Lemma emits_static_probe docsBranch :
  emits Q (static_probe P namespace project docsBranch env).
Proof.
  unfold static_probe. apply emits_Promise_all. cbn.
  repeat (constructor;
          [apply emits_bind; [apply emits_fetchFileFromGitLab | intros; apply emits_ret]
          |]).
  constructor.
Qed.

Lemma emits_fetchFileFromR2 filename :
  emits Q (fetchFileFromR2 namespace project filename env).
Proof. unfold fetchFileFromR2. emits_tac. Qed.

Lemma emits_resolve_gitlab l : emits Q (resolve_gitlab P namespace project env l).
Proof.
  pose proof emits_getRepoBranch as H1.
  pose proof emits_static_probe as H2.
  pose proof emits_searchGitLabRepo as H3.
  pose proof emits_fetchFileFromR2 as H4.
  unfold resolve_gitlab, search_fallback, r2_fallback, readme_fallback. emits_tac.
Qed.

End CascadeEvents.

Lemma emits_resolve_subdomain Q P namespace project l :
  (forall url, Q (EvRobotsFetch url)) ->
  emits Q (resolve_subdomain P namespace project l).
Proof. intros HQ. unfold resolve_subdomain, robots_fetch. emits_tac. Qed.

Lemma emits_cascade Q P repoData env :
  allows_timers Q ->
  (forall req, Q (EvFetch req)) ->
  (forall namespace project filename filePath branch,
     Q (EvPathCachePut namespace project filename filePath branch)) ->
  (forall key, Q (EvR2Get key)) ->
  (forall url, Q (EvRobotsFetch url)) ->
  emits Q (cascade P repoData env).
Proof.
  intros HT HF HP HR HB. unfold cascade. destruct (urlType repoData).
  - now apply emits_resolve_subdomain.
  - destruct (_ && _); [| apply emits_ret].
    apply emits_resolve_gitlab; auto.
  - apply emits_ret.
Qed.

Lemma path_writes_app evs1 evs2 :
  path_writes (evs1 ++ evs2) = (path_writes evs1 ++ path_writes evs2)%list.
Proof. apply omap_app. Qed.

Lemma queue_sends_app evs1 evs2 :
  queue_sends (evs1 ++ evs2) = (queue_sends evs1 ++ queue_sends evs2)%list.
Proof. apply omap_app. Qed.

Lemma path_writes_none evs :
  Forall (fun e => match e with EvPathCachePut _ _ _ _ _ => False | _ => True end) evs ->
  path_writes evs = [].
Proof.
  induction 1 as [| e evs He _ IH]; [reflexivity |].
  destruct e; cbn in *; try exact IH. contradiction.
Qed.

Lemma queue_sends_none evs :
  Forall (fun e => match e with EvQueueSend _ => False | _ => True end) evs ->
  queue_sends evs = [].
Proof.
  induction 1 as [| e evs He _ IH]; [reflexivity |].
  destruct e; cbn in *; try exact IH. contradiction.
Qed.

Lemma fetched_Forall (U : Request -> Prop) evs :
  Forall (fun e => match e with EvFetch req => U req | _ => True end) evs ->
  Forall U (fetched evs).
Proof.
  induction 1 as [| e evs He _ IH]; [constructor |].
  destruct e; cbn; try exact IH. now constructor.
Qed.

(** ** The path cache *)

(** X6.  [searchGitLabRepo] never throws.  When it returns a file, the
    content of the file is non-empty and exactly one path-cache write was
    made, for the file name searched and the path returned; when it returns
    [null], nothing was written to the path cache. *)
Theorem searchGitLabRepo_path_cache P namespace project filename branch env w :
  exists res w' evs,
    searchGitLabRepo P namespace project filename branch env w = (Ok res, w')
    /\ trace w' = (trace w ++ evs)%list
    /\ match res with
       | Some f =>
           truthy (file_content f) = true
           /\ path_writes evs
              = [(namespace, project, filename, template (file_path f), branch)]
       | None => path_writes evs = []
       end.
Proof.
  set (Qnp := fun e => match e with EvPathCachePut _ _ _ _ _ => False | _ => True end).
  assert (HT : allows_timers Qnp) by (split; intros; exact I).
  assert (HF : forall url options a,
             repo_url P env namespace project url = true ->
             Qnp (EvFetch (request_of url options env a))) by (intros; exact I).
  unfold searchGitLabRepo. unfold try_catch, bind at 1. cbv zeta.
  set (found_step :=
         if negb (truthy_opt (js_or (cp_path <$> getCachedFilePath P namespace project w)
                                (Some "")))
         then _ else _).
  assert (H1 : emits Qnp found_step).
  { unfold found_step. destruct (negb _); [| apply emits_ret].
    apply emits_bind; [now apply emits_searchFileByName |].
    intros [d|]; [destruct (_ || _) |]; apply emits_ret. }
  destruct (H1 w) as (evs1 & E1 & F1). apply path_writes_none in F1.
  unfold bind at 1. destruct (found_step w) as [[[filePath|]|e] w1]; cbn [snd] in E1.
  - (* a path to fetch *)
    destruct (emits_fetchFileFromGitLab Qnp P env namespace project HT HF branch
                (template filePath) false w1) as (evs2 & E2 & F2).
    apply path_writes_none in F2.
    destruct (fetchFileFromGitLab P namespace project branch (template filePath)
                env false w1) as [[content|err] w2] eqn:Ef; cbn [snd] in E2.
    + rewrite (bind_ok _ _ _ _ _ Ef).
      destruct (truthy_opt content) eqn:Tc.
      * eexists _, _, (evs1 ++ evs2 ++ [EvPathCachePut _ _ _ _ _])%list.
        split; [reflexivity |]. split.
        -- cbn. rewrite E2, E1. now rewrite !app_assoc.
        -- split; [destruct content; [exact Tc | discriminate] |].
           rewrite !path_writes_app, F1, F2. reflexivity.
      * exists None, w2, (evs1 ++ evs2)%list. split; [reflexivity |].
        split; [rewrite E2, E1; now rewrite app_assoc |].
        now rewrite path_writes_app, F1, F2.
    + (* the body could not be read: caught *)
      rewrite (bind_throw _ _ _ _ _ Ef).
      exists None, w2, (evs1 ++ evs2)%list. split; [reflexivity |].
      split; [rewrite E2, E1; now rewrite app_assoc |].
      now rewrite path_writes_app, F1, F2.
  - exists None, w1, evs1. now repeat split.
  - exists None, w1, evs1. now repeat split.
Qed.

(** ** The queue *)

(** X7.  After a cache miss, a resolution of a known repository whose
    cascade returned calls [send] on the queue exactly once when a queue is
    bound, whether the queue accepts the message or rejects it, and also
    when nothing was found (then without a content length); with no queue
    nothing is sent.  In each case the call returns. *)
Theorem fetchDocumentation_enqueues_once P repoData env w l w1 :
  check_cache repoData w = (Ok None, w) ->
  cascade P repoData env w = (Ok l, w1) ->
  known repoData = true ->
  exists r w' evs,
    fetchDocumentation P repoData env w = (Ok r, w')
    /\ trace w' = (trace w ++ evs)%list
    /\ queue_sends evs
       = match MY_QUEUE env with
         | Some _ =>
             [ {| msg_namespace := default "" (namespace repoData);
                  msg_project := default "" (project repoData);
                  msg_repo_url := "https://gitlab.com/"
                                  +:+ default "" (namespace repoData) +:+ "/"
                                  +:+ default "" (project repoData);
                  msg_file_url := template (l_docsPath l);
                  msg_content_length := String.length <$> l_content l;
                  msg_file_used := l_fileUsed l;
                  msg_docs_branch := l_docsBranch l |} ]
         | None => []
         end.
Proof.
  intros Hmiss Hcas Hk.
  set (Qnq := fun e => match e with EvQueueSend _ => False | _ => True end).
  destruct (emits_cascade Qnq P repoData env) with (w := w) as (evs1 & E1 & F1);
    try (intros; exact I); [split; intros; exact I |].
  rewrite Hcas in E1. cbn [snd] in E1. apply queue_sends_none in F1.
  unfold fetchDocumentation. cbv zeta.
  rewrite (bind_ok _ _ _ _ _ Hmiss), (bind_ok _ _ _ _ _ Hcas). rewrite Hk.
  unfold enqueueDocumentationProcessing. cbv zeta.
  destruct (MY_QUEUE env) as [sendResolves|].
  - unfold bind at 1, try_catch, bind at 1, emit.
    destruct sendResolves; unfold ret at 1 || unfold throw at 1;
      (destruct (truthy_opt (l_content l)); cbn [negb];
       [ eexists _, _, (evs1 ++ [EvQueueSend _; EvContentCachePut _ _ _ _])%list
       | eexists _, _, (evs1 ++ [EvQueueSend _])%list ];
       (split; [reflexivity |]);
       (split; [cbn; rewrite E1; rewrite <- ?app_assoc; reflexivity |]);
       rewrite queue_sends_app, F1; reflexivity).
  - unfold bind at 1, try_catch.
    destruct (truthy_opt (l_content l)); cbn [negb].
    + eexists _, _, (evs1 ++ [EvContentCachePut _ _ _ _])%list.
      split; [reflexivity |]. split; [cbn; rewrite E1; rewrite <- ?app_assoc; reflexivity |].
      rewrite queue_sends_app, F1. reflexivity.
    + eexists _, _, evs1. split; [reflexivity |]. split; [exact E1 | exact F1].
Qed.

Lemma fetchDocumentation_enqueues_once_witness :
  let repoData := gitlab_repo "acme" "widgets" "gitmcp.io" in
  exists r w' evs,
    fetchDocumentation not_found repoData rejecting_queue_env world_init = (Ok r, w')
    /\ trace w' = (trace world_init ++ evs)%list
    /\ queue_sends evs
       = [ {| msg_namespace := "acme"; msg_project := "widgets";
              msg_repo_url := "https://gitlab.com/acme/widgets";
              msg_file_url := ""; msg_content_length := None;
              msg_file_used := "unknown"; msg_docs_branch := "main" |} ].
Proof.
  cbv zeta.
  assert (Hcas : cascade not_found (gitlab_repo "acme" "widgets" "gitmcp.io")
                   rejecting_queue_env world_init
                 = (Ok {| l_fileUsed := "unknown"; l_content := None;
                          l_docsPath := Some ""; l_docsBranch := "main";
                          l_blockedByRobots := false |},
                    snd (cascade not_found (gitlab_repo "acme" "widgets" "gitmcp.io")
                           rejecting_queue_env world_init)))
    by (vm_compute; reflexivity).
  exact (fetchDocumentation_enqueues_once not_found
           (gitlab_repo "acme" "widgets" "gitmcp.io") rejecting_queue_env world_init _ _
           eq_refl Hcas eq_refl).
Defined.

(** ** The requests of a resolution *)

Lemma emits_check_cache Q repoData : emits Q (check_cache repoData).
Proof.
  apply emits_same. intros w.
  destruct (check_cache_cases repoData w) as [[r E] | E]; now rewrite E.
Qed.

(** X8.  Every request of a resolution of the repository
    [namespace/project] reads that repository on the configured instance:
    its URL is a raw-file URL of the repository or an endpoint of the
    project in the API, both under the base URL of the environment. *)
Theorem fetchDocumentation_requests_stay_on_repo P namespace project host env w :
  exists evs,
    trace (snd (fetchDocumentation P (gitlab_repo namespace project host) env w))
    = (trace w ++ evs)%list
    /\ Forall (fun req => repo_url P env namespace project (req_url req) = true)
         (fetched evs).
Proof.
  set (Qr := fun e => match e with
                      | EvFetch req =>
                          repo_url P env namespace project (req_url req) = true
                      | _ => True
                      end).
  assert (Hcas : emits Qr (cascade P (gitlab_repo namespace project host) env)).
  { unfold cascade, gitlab_repo. cbn. destruct (_ && _); [| apply emits_ret].
    apply emits_resolve_gitlab; try (intros; exact I).
    - split; intros; exact I.
    - intros url options a Hu. exact Hu. }
  assert (H : emits Qr (fetchDocumentation P (gitlab_repo namespace project host) env)).
  { unfold fetchDocumentation. cbv zeta.
    apply emits_bind; [apply emits_check_cache |].
    intros [cached|]; [apply emits_ret |].
    apply emits_bind; [exact Hcas |]. intros l.
    unfold enqueueDocumentationProcessing.
    assert (Hput : forall n p r t, emits Qr (cacheFetchDocResult n p r t)).
    { intros n p r t w0. exists [EvContentCachePut n p r t].
      split; [reflexivity | now repeat constructor]. }
    emits_tac; apply emits_emit; exact I. }
  destruct (H w) as (evs & E & F). exists evs. split; [exact E |].
  now apply fetched_Forall.
Qed.

(** ** A cached path *)

(** X10.  With a path in the path cache, [searchGitLabRepo] does not call
    the search API: whatever file name is searched for, every request goes
    to the raw URL of the cached path, and a file that is returned has the
    cached path. *)
Theorem searchGitLabRepo_cached_path P namespace project filename branch env w cp :
  getCachedFilePath P namespace project w = Some cp ->
  truthy (cp_path cp) = true ->
  exists res w' evs,
    searchGitLabRepo P namespace project filename branch env w = (Ok res, w')
    /\ trace w' = (trace w ++ evs)%list
    /\ Forall (fun req => req_url req
                          = constructGitlabUrl namespace project branch (cp_path cp) env)
         (fetched evs)
    /\ (forall f, res = Some f -> file_path f = Some (cp_path cp)).
Proof.
  intros Hc Ht.
  set (url := constructGitlabUrl namespace project branch (cp_path cp) env).
  set (Qu := fun e => match e with EvFetch req => req_url req = url | _ => True end).
  assert (Hf : emits Qu (fetchFileFromGitLab P namespace project branch (cp_path cp)
                           env false)).
  { unfold fetchFileFromGitLab, fetchRawFile. cbv zeta. fold url.
    apply emits_bind; [| intros; emits_tac].
    apply emits_gitlabApiRequest; [split; intros; exact I | intros a; reflexivity]. }
  destruct (Hf w) as (evs & E & F). apply fetched_Forall in F.
  destruct (fetchFileFromGitLab P namespace project branch (cp_path cp) env false w)
    as [[content|err] w2] eqn:Ef; cbn [snd] in E;
    unfold searchGitLabRepo; unfold try_catch, bind at 1; rewrite Hc; cbv zeta;
    (replace (js_or (cp_path <$> Some cp) (Some "")) with (Some (cp_path cp))
      by (unfold js_or; cbn; now rewrite Ht));
    cbn [truthy_opt]; rewrite Ht; cbn [negb];
    rewrite (bind_ok _ _ _ _ _ (eq_refl : ret (Some (Some (cp_path cp))) w = _));
    cbn [template].
  - rewrite (bind_ok _ _ _ _ _ Ef).
    destruct (truthy_opt content).
    + eexists _, _, (evs ++ [EvPathCachePut _ _ _ _ _])%list.
      split; [reflexivity |]. split; [cbn; rewrite E; now rewrite app_assoc |].
      split.
      * unfold fetched in *. rewrite omap_app. cbn. now rewrite app_nil_r.
      * intros f Hfe. now inversion Hfe.
    + exists None, w2, evs. split; [reflexivity |]. split; [exact E |].
      split; [exact F | discriminate].
  - (* the body could not be read: caught *)
    rewrite (bind_throw _ _ _ _ _ Ef).
    exists None, w2, evs. split; [reflexivity |]. split; [exact E |].
    split; [exact F | discriminate].
Qed.

Lemma searchGitLabRepo_cached_path_witness :
  exists res w' evs,
    searchGitLabRepo path_cached "acme" "widgets" "README+path:/" "main" sample_env
      world_init = (Ok res, w')
    /\ trace w' = (trace world_init ++ evs)%list
    /\ Forall (fun req => req_url req
                          = constructGitlabUrl "acme" "widgets" "main" "llms.txt"
                              sample_env)
         (fetched evs)
    /\ (forall f, res = Some f -> file_path f = Some "llms.txt").
Proof.
  exact (searchGitLabRepo_cached_path path_cached "acme" "widgets" "README+path:/" "main"
           sample_env world_init {| cp_path := "llms.txt"; cp_branch := "main" |}
           eq_refl eq_refl).
Defined.

(** The README search on that platform returns the cached [llms.txt]. *)
Example searchGitLabRepo_readme_returns_cached_file :
  fst (searchGitLabRepo path_cached "acme" "widgets" "README+path:/" "main" sample_env
         world_init)
  = Ok (Some {| file_path := Some "llms.txt"; file_content := "# Widgets" |}).
Proof. vm_compute. reflexivity. Qed.

(** ** Code search *)

Lemma searchCode_cases P query namespace project env page perPage w :
  let url := code_search_url P env query namespace project page
               (Math_min (Math_max (Num 1) perPage) (Num 100)) in
  exists response w1 k,
    (fetches w1 = fetches w + k)%nat /\ (1 <= k <= 4)%nat /\ quiet w w1
    /\ match network P (fetches w + k - 1)%nat (request_of url no_options env true) with
       | NetworkError _ => response = None
       | Responded r => response = Some r \/ (response = None /\ ok r = false)
       end
    /\ searchCode P query namespace project env page perPage w
       = match response with
         | None => (Ok None, w1)
         | Some r =>
             if negb (ok r) then (Ok None, w1)
             else match json r with
                  | Some (JItems raw) =>
                      (Ok (Some {| total_count := length raw;
                                   items := List.map (to_result_item env namespace project)
                                              raw |}), w1)
                  | Some _ => (Throw "TypeError: results.map is not a function", w1)
                  | None => (Throw "SyntaxError", w1)
                  end
         end.
Proof.
  intros url.
  destruct (gitlabApiRequest_run P url no_options env eq_refl _ 0%nat true w eq_refl)
    as (response & w1 & k & E & F & K & Q & N).
  exists response, w1, k.
  split; [exact F |]. split; [unfold MAX_RETRIES in K; lia |]. split; [exact Q |].
  split.
  - replace (if (k =? 1)%nat then true else true) with true in N by now destruct (k =? 1)%nat.
    unfold decided_by in N. destruct (network P _ _) as [msg|r]; [tauto |].
    destruct (status r =? 429) eqn:E429; cbn [andb] in N; [| tauto].
    destruct (unreadable r); [| tauto]. right. split; [tauto |].
    apply Z.eqb_eq in E429. unfold ok. now rewrite E429.
  - unfold searchCode. cbv zeta. fold (code_search_url P env query namespace project page
                                         (Math_min (Math_max (Num 1) perPage) (Num 100))).
    fold url. rewrite (bind_ok _ _ _ _ _ E).
    destruct response as [r|]; [| reflexivity].
    destruct (negb (ok r)); [reflexivity |].
    unfold response_json. destruct (json r) as [[raw| |]|]; reflexivity.
Qed.

Lemma clamp_per_page (perPage : Z) :
  exists c, Math_min (Math_max (Num 1) (Num perPage)) (Num 100) = Num c /\ 1 <= c <= 100.
Proof. eexists. split; [reflexivity | lia]. Qed.

(** X11.  [searchCode] asks for between 1 and 100 hits per page and reports
    what came back unfiltered: a result is returned exactly for an ok
    response whose body is an array, [total_count] is the length of that one
    page, and the items are its hits in order.  No response or a response
    that is not ok gives [null]; an ok response with another body throws. *)
Theorem searchCode_reports_one_page P query namespace project env page (perPage : Z) w :
  exists c k w1,
    1 <= c <= 100 /\ (1 <= k <= 4)%nat /\ (fetches w1 = fetches w + k)%nat
    /\ snd (searchCode P query namespace project env page (Num perPage) w) = w1
    /\ match network P (fetches w + k - 1)%nat
               (request_of (code_search_url P env query namespace project page (Num c))
                  no_options env true) with
       | NetworkError _ =>
           fst (searchCode P query namespace project env page (Num perPage) w) = Ok None
       | Responded r =>
           match fst (searchCode P query namespace project env page (Num perPage) w) with
           | Ok (Some res) =>
               ok r = true
               /\ exists raw, json r = Some (JItems raw)
                              /\ total_count res = length raw
                              /\ items res = List.map (to_result_item env namespace project)
                                               raw
           | Ok None => ok r = false
           | Throw _ => ok r = true /\ forall raw, json r <> Some (JItems raw)
           end
       end.
Proof.
  destruct (clamp_per_page perPage) as (c & Ec & Hc).
  destruct (searchCode_cases P query namespace project env page (Num perPage) w)
    as (response & w1 & k & F & K & _ & N & E).
  rewrite Ec in N. exists c, k, w1.
  split; [exact Hc |]. split; [exact K |]. split; [exact F |].
  split.
  - rewrite E. destruct response as [r|]; [| reflexivity].
    destruct (negb (ok r)); [reflexivity |]. now destruct (json r) as [[| |]|].
  - destruct (network P _ _) as [msg|r]; [subst response; rewrite E; reflexivity |].
    destruct N as [-> | [-> Hok]]; rewrite E; [| exact Hok].
    destruct (ok r); cbn [negb fst]; [| reflexivity].
    destruct (json r) as [[raw| |]|]; cbn [fst].
    + split; [reflexivity |]. now exists raw.
    + split; [reflexivity | discriminate].
    + split; [reflexivity | discriminate].
    + split; [reflexivity | discriminate].
Qed.

Lemma searchRepositoryCode_cases P repoData query page env w :
  let namespace := default "" (namespace repoData) in
  let project := default "" (project repoData) in
  let page1 := Math_max (Num 1) (default (Num 1) page) in
  let url := code_search_url P env query namespace project page1 (Num 30) in
  exists res w',
    searchRepositoryCode P repoData query page env w = (Ok res, w')
    /\ searchQuery res = query
    /\ (exists t, cs_content res
                  = [ {| type_ := "text"; text := code_search_heading query +:+ t |} ])
    /\ (known repoData = false -> w' = w /\ pagination res = None)
    /\ (known repoData = true ->
        exists k, (1 <= k <= 4)%nat /\ (fetches w' = fetches w + k)%nat /\ quiet w w'
          /\ forall pg, pagination res = Some pg ->
               perPage pg = Num 30 /\ currentPage pg = page1
               /\ exists r raw,
                    network P (fetches w + k - 1)%nat (request_of url no_options env true)
                    = Responded r
                    /\ ok r = true /\ json r = Some (JItems raw) /\ raw <> []
                    /\ totalCount pg = length raw
                    /\ hasMorePages pg
                       = jnum_lt (jnum_mul page1 (Num 30))
                           (Num (Z.of_nat (length raw)))).
Proof.
  cbv zeta. unfold searchRepositoryCode, known. cbv zeta.
  destruct (truthy_opt (namespace repoData)) eqn:Tn;
    [destruct (truthy_opt (project repoData)) eqn:Tp |]; cbn [negb orb andb].
  2, 3: (eexists _, w; split; [reflexivity |]; split; [reflexivity |];
         split; [eexists; reflexivity |]; split; [now split | discriminate]).
  unfold try_catch, bind.
  destruct (searchCode_cases P query (default "" (namespace repoData))
              (default "" (project repoData)) env
              (Math_max (Num 1) (default (Num 1) page)) (Num 30) w)
    as (response & w1 & k & F & K & Q & N & E).
  change (Math_min (Math_max (Num 1) (Num 30)) (Num 100)) with (Num 30) in N, E.
  rewrite E. clear E.
  destruct response as [r|].
  2: { eexists _, w1. split; [reflexivity |]. split; [reflexivity |].
       split; [eexists; reflexivity |]. split; [discriminate |].
       intros _.
       (exists k; split; [exact K |]; split; [exact F |]; split; [exact Q |];
          intros pg Hpg; discriminate Hpg). }
  destruct (ok r) eqn:Eok; cbn [negb].
  2: { eexists _, w1. split; [reflexivity |]. split; [reflexivity |].
       split; [eexists; reflexivity |]. split; [discriminate |].
       intros _.
       (exists k; split; [exact K |]; split; [exact F |]; split; [exact Q |];
          intros pg Hpg; discriminate Hpg). }
  destruct (json r) as [[raw| |]|] eqn:Ej.
  2, 3, 4: (eexists _, w1; split; [reflexivity |]; split; [reflexivity |];
            split; [eexists; reflexivity |]; split; [discriminate |];
            intros _;
            (exists k; split; [exact K |]; split; [exact F |]; split; [exact Q |];
          intros pg Hpg; discriminate Hpg)).
  cbn [total_count items]. rewrite length_map.
  destruct raw as [|item raw'] eqn:Eraw.
  { eexists _, w1. split; [reflexivity |]. split; [reflexivity |].
    split; [eexists; reflexivity |]. split; [discriminate |].
    intros _.
       (exists k; split; [exact K |]; split; [exact F |]; split; [exact Q |];
          intros pg Hpg; discriminate Hpg). }
  cbn [length Nat.eqb orb].
  eexists _, w1. split; [reflexivity |]. split; [reflexivity |].
  split; [eexists; reflexivity |]. split; [discriminate |].
  intros _. exists k. split; [exact K |]. split; [exact F |]. split; [exact Q |].
  intros pg Hpg. cbn [pagination] in Hpg. inversion Hpg; subst pg; clear Hpg.
  cbn [perPage currentPage totalCount hasMorePages].
  split; [reflexivity |]. split; [reflexivity |].
  destruct (network P _ _) as [msg|r0]; [discriminate |].
  destruct N as [N | [N _]]; [| discriminate N].
  inversion N; subst r0. exists r, (item :: raw').
  split; [reflexivity |]. split; [exact Eok |]. split; [exact Ej |].
  split; [discriminate |]. split; reflexivity.
Qed.

(** X12.  [searchRepositoryCode] never throws: it always returns the query
    and one text part that opens with the heading of the search.  Without a
    namespace or a project it touches nothing; otherwise it sends between
    one and four requests and writes no cache. *)
Theorem searchRepositoryCode_always_answers P repoData query page env w :
  exists res w',
    searchRepositoryCode P repoData query page env w = (Ok res, w')
    /\ searchQuery res = query
    /\ (exists t, cs_content res
                  = [ {| type_ := "text"; text := code_search_heading query +:+ t |} ])
    /\ (known repoData = false -> w' = w /\ pagination res = None)
    /\ (known repoData = true ->
        (fetches w + 1 <= fetches w' <= fetches w + 4)%nat /\ quiet w w').
Proof.
  destruct (searchRepositoryCode_cases P repoData query page env w)
    as (res & w' & E & Hq & Ht & Hu & Hk).
  exists res, w'. split; [exact E |]. split; [exact Hq |]. split; [exact Ht |].
  split; [exact Hu |]. intros Hkn.
  destruct (Hk Hkn) as (k & K & F & Q & _). split; [lia | exact Q].
Qed.



(** ** Splitting and joining strings *)

Lemma all_chars_app f a b : all_chars f (a +:+ b) = all_chars f a && all_chars f b.
Proof.
  induction a as [|x a IH]; [reflexivity |].
  rewrite string_app_cons. cbn [all_chars]. rewrite IH. now rewrite andb_assoc.
Qed.

Lemma split_on_nonempty sep s : split_on sep s <> [].
Proof.
  destruct s as [|c s]; cbn; [discriminate |].
  destruct (Ascii.eqb c sep); [discriminate |]. now destruct (split_on sep s).
Qed.

Lemma all_chars_split_on f sep s :
  all_chars f s = true -> Forall (fun word => all_chars f word = true) (split_on sep s).
Proof.
  induction s as [|c s IH]; cbn [split_on all_chars]; intros H.
  - constructor; [reflexivity | constructor].
  - apply andb_true_iff in H as [Hc Hs]. specialize (IH Hs).
    destruct (Ascii.eqb c sep); [now constructor |].
    destruct (split_on sep s) as [|word words];
      [constructor; [cbn; now rewrite Hc | constructor] |].
    inversion IH; subst. constructor; [cbn; now rewrite Hc | assumption].
Qed.

Lemma all_chars_concat f sep l :
  all_chars f sep = true -> Forall (fun word => all_chars f word = true) l ->
  all_chars f (String.concat sep l) = true.
Proof.
  intros Hsep H. induction H as [|x l Hx Hl IH]; [reflexivity |].
  destruct l as [|y l]; [exact Hx |].
  change (all_chars f (x +:+ sep +:+ String.concat sep (y :: l)) = true).
  rewrite !all_chars_app, Hx, Hsep, IH. reflexivity.
Qed.

Lemma split_on_lacks sep s : Forall (fun word => lacks sep word = true) (split_on sep s).
Proof.
  induction s as [|c s IH]; cbn [split_on]; [constructor; [reflexivity | constructor] |].
  destruct (Ascii.eqb c sep) eqn:E; [now constructor |].
  destruct (split_on sep s) as [|word words]; [constructor; [| constructor] |].
  - unfold lacks. cbn. now rewrite E.
  - inversion IH; subst. constructor; [| assumption].
    unfold lacks in *. cbn. now rewrite E.
Qed.

Lemma concat_cons2 sep x y l :
  String.concat sep (x :: y :: l) = x +:+ sep +:+ String.concat sep (y :: l).
Proof. reflexivity. Qed.

Lemma concat_split_on sep s : String.concat (String sep "") (split_on sep s) = s.
Proof.
  induction s as [|c s IH]; [reflexivity |]. cbn [split_on].
  pose proof (split_on_nonempty sep s) as Hne.
  destruct (Ascii.eqb c sep) eqn:E.
  - apply Ascii.eqb_eq in E. subst c.
    destruct (split_on sep s) as [|word words]; [contradiction |].
    rewrite concat_cons2. now rewrite IH.
  - destruct (split_on sep s) as [|word words]; [contradiction |].
    destruct words as [|w2 words].
    + cbn in *. now rewrite IH.
    + rewrite concat_cons2 in *. rewrite string_app_cons. now rewrite IH.
Qed.

Lemma split_on_lacking sep s : lacks sep s = true -> split_on sep s = [s].
Proof.
  unfold lacks. induction s as [|c s IH]; [reflexivity |]. cbn [all_chars split_on].
  intros H. apply andb_true_iff in H as [Hc Hs]. apply negb_true_iff in Hc.
  rewrite Hc, (IH Hs). reflexivity.
Qed.

Lemma split_on_app sep a b :
  lacks sep a = true ->
  split_on sep (a +:+ String sep b) = a :: split_on sep b.
Proof.
  unfold lacks. induction a as [|c a IH]; intros H.
  - change ("" +:+ String sep b) with (String sep b). cbn [split_on].
    now rewrite Ascii.eqb_refl.
  - cbn [all_chars] in H. apply andb_true_iff in H as [Hc Ha]. apply negb_true_iff in Hc.
    rewrite string_app_cons. cbn [split_on]. rewrite Hc, (IH Ha). reflexivity.
Qed.

Lemma split_on_concat sep l :
  l <> [] -> Forall (fun word => lacks sep word = true) l ->
  split_on sep (String.concat (String sep "") l) = l.
Proof.
  intros Hne H. induction H as [|x l Hx Hl IH]; [contradiction |].
  destruct l as [|y l].
  - cbn. now apply split_on_lacking.
  - rewrite concat_cons2. rewrite string_app_cons. change ("" +:+ ?z) with z.
    rewrite split_on_app by exact Hx. now rewrite IH.
Qed.

Lemma is_prefix_app_both (x a b : string) : is_prefix (x +:+ a) (x +:+ b) = is_prefix a b.
Proof.
  induction x as [|c x IH]; [reflexivity |].
  rewrite !string_app_cons. cbn [is_prefix]. now rewrite Ascii.eqb_refl, IH.
Qed.

Lemma is_prefix_refl (a : string) : is_prefix a a = true.
Proof. induction a as [|c a IH]; [reflexivity |]. cbn. now rewrite Ascii.eqb_refl. Qed.

Lemma is_prefix_concat_take sep (l : list string) :
  forall i, is_prefix (String.concat sep (take i l)) (String.concat sep l) = true.
Proof.
  induction l as [|x l IH]; intros [|i]; try reflexivity.
  cbn [take]. destruct l as [|y l].
  - destruct i; apply is_prefix_refl.
  - destruct i as [|i].
    + cbn [take]. rewrite concat_cons2. apply is_prefix_app.
    + change (take (S i) (y :: l)) with (y :: take i l).
      rewrite !concat_cons2. rewrite !is_prefix_app_both.
      exact (IH (S i)).
Qed.

(** ** Tool names *)

Lemma all_chars_sanitize s : all_chars tool_name_char (sanitize s) = true.
Proof.
  induction s as [|c s IH]; [reflexivity |]. cbn [sanitize all_chars]. rewrite IH.
  unfold tool_name_char. destruct (is_alphanumeric c) eqn:E; [now rewrite E |]. reflexivity.
Qed.

Lemma length_sanitize s : String.length (sanitize s) = String.length s.
Proof. induction s as [|c s IH]; [reflexivity |]. cbn. now rewrite IH. Qed.

Lemma all_chars_collapse f s :
  (all_chars f s = true -> all_chars f (collapse_underscores s) = true)
  /\ (forall c, all_chars f (String c s) = true ->
                all_chars f (collapse_underscores (String c s)) = true).
Proof.
  induction s as [|d s [IH1 IH2]].
  - split; [trivial |]. intros c H. exact H.
  - split; [apply IH2 |]. intros c H.
    cbn [collapse_underscores]. cbn [all_chars] in H.
    apply andb_true_iff in H as [Hc H]. pose proof H as Hds.
    apply andb_true_iff in H as [Hd Hs].
    destruct (Ascii.eqb c "_" && Ascii.eqb d "_") eqn:E.
    + apply andb_true_iff in E as [E _]. apply Ascii.eqb_eq in E. subst c.
      cbn [all_chars]. now rewrite Hc, (IH1 Hs).
    + cbn [all_chars]. rewrite Hc. cbn [andb]. apply IH2. cbn [all_chars].
      now rewrite Hd, Hs.
Qed.

Lemma shorten_cases prefix shorterSuffix n words i toolName :
  shorten prefix shorterSuffix n words i = Some toolName ->
  exists j, (1 <= j <= i)%nat
            /\ toolName = prefix +:+ String.concat "_" (take j words) +:+ shorterSuffix
            /\ (String.length toolName + n <= LIMIT)%nat.
Proof.
  induction i as [|i IH]; cbn [shorten]; [discriminate |]. cbv zeta.
  destruct (_ <=? LIMIT)%nat eqn:E.
  - intros H. inversion H; subst. exists (S i). split; [lia |]. split; [reflexivity |].
    now apply Nat.leb_le in E.
  - intros H. destruct (IH H) as (j & Hj & Ht & Hl). exists j. split; [lia |]. now split.
Qed.

(** The outcomes of [enforceToolNameLengthLimit] on a project name. *)
Lemma enforceToolNameLengthLimit_cases gsn prefix project suffix serverName :
  truthy project = true -> gsn project = Ok serverName ->
  exists part sfx,
    (sfx = suffix \/ sfx = shorter suffix)
    /\ ((enforceToolNameLengthLimit gsn prefix (Some project) suffix
         = Ok (prefix +:+ part +:+ sfx)
         /\ (String.length (prefix +:+ part +:+ sfx) + String.length serverName
             <= LIMIT)%nat
         /\ (part = "project"
             \/ exists j, (1 <= j)%nat
                  /\ part = String.concat "_" (take j (split_on "_" (sanitize project)))))
        \/ (enforceToolNameLengthLimit gsn prefix (Some project) suffix
            = Ok (collapse_underscores (prefix +:+ shorter suffix))
            /\ (LIMIT < String.length (prefix +:+ "project" +:+ shorter suffix)
                        + String.length serverName)%nat)).
Proof.
  intros Ht Hs. unfold enforceToolNameLengthLimit. cbn [truthy_opt default from_option id].
  rewrite Ht. cbn [negb]. rewrite Hs. cbv zeta. fold (shorter suffix).
  assert (Hall : forall l : list string, take (length l) l = l) by (intros; apply firstn_all).
  assert (Hwhole : String.concat "_" (take (length (split_on "_" (sanitize project)))
                                        (split_on "_" (sanitize project)))
                   = sanitize project)
    by (rewrite Hall; apply (concat_split_on "_")).
  assert (Hlen : (1 <= length (split_on "_" (sanitize project)))%nat).
  { pose proof (split_on_nonempty "_" (sanitize project)).
    destruct (split_on "_" (sanitize project)); [contradiction | cbn; lia]. }
  destruct (String.length (prefix +:+ sanitize project +:+ suffix)
            + String.length serverName <=? LIMIT)%nat eqn:E1.
  { exists (sanitize project), suffix. split; [now left |]. left.
    split; [reflexivity |]. split; [now apply Nat.leb_le in E1 |].
    right. exists (length (split_on "_" (sanitize project))). now split. }
  destruct (String.length (prefix +:+ sanitize project +:+ shorter suffix)
            + String.length serverName <=? LIMIT)%nat eqn:E2.
  { exists (sanitize project), (shorter suffix). split; [now right |]. left.
    split; [reflexivity |]. split; [now apply Nat.leb_le in E2 |].
    right. exists (length (split_on "_" (sanitize project))). now split. }
  destruct (if (1 <? _)%nat then _ else None) as [toolName|] eqn:E3.
  { destruct (1 <? _)%nat; [| discriminate].
    destruct (shorten_cases _ _ _ _ _ _ E3) as (j & Hj & -> & Hl).
    eexists _, (shorter suffix). split; [now right |]. left.
    split; [reflexivity |]. split; [exact Hl |]. right. exists j. split; [lia | reflexivity]. }
  destruct (String.length (prefix +:+ "project" +:+ shorter suffix)
            + String.length serverName <=? LIMIT)%nat eqn:E4.
  { exists "project", (shorter suffix). split; [now right |]. left.
    split; [reflexivity |]. split; [now apply Nat.leb_le in E4 | now left]. }
  exists "", (shorter suffix). split; [now right |]. right.
  split; [reflexivity |]. apply Nat.leb_gt in E4. exact E4.
Qed.

Lemma all_chars_enforce gsn prefix project suffix name :
  all_chars tool_name_char prefix = true ->
  all_chars tool_name_char suffix = true ->
  enforceToolNameLengthLimit gsn prefix project suffix = Ok name ->
  all_chars tool_name_char name = true.
Proof.
  intros Hp Hs.
  assert (Hsh : all_chars tool_name_char (shorter suffix) = true)
    by (unfold shorter; now destruct (String.eqb suffix "_documentation")).
  destruct (truthy_opt project) eqn:Ht.
  2: { unfold enforceToolNameLengthLimit. rewrite Ht. cbn [negb]. intros H.
       inversion H; subst. now rewrite all_chars_app, Hp, Hs. }
  destruct project as [project|]; [| discriminate]. cbn [truthy_opt] in Ht.
  destruct (gsn project) as [serverName|e] eqn:Hg.
  2: { unfold enforceToolNameLengthLimit. cbn [truthy_opt default from_option id].
       rewrite Ht, Hg. discriminate. }
  destruct (enforceToolNameLengthLimit_cases gsn prefix project suffix serverName Ht Hg)
    as (part & sfx & Hsfx & [(E & _ & Hpart) | (E & _)]); rewrite E; intros H;
    inversion H; subst name; clear H.
  - rewrite !all_chars_app, Hp. cbn [andb].
    assert (Hx : all_chars tool_name_char sfx = true) by (destruct Hsfx; now subst).
    rewrite Hx, andb_true_r.
    destruct Hpart as [-> | (j & _ & ->)]; [reflexivity |].
    apply all_chars_concat; [reflexivity |]. apply Forall_take.
    apply all_chars_split_on, all_chars_sanitize.
  - apply all_chars_collapse. now rewrite all_chars_app, Hp, Hsh.
Qed.

(** X14.  The three generated tool names hold only letters, digits and
    underscores, whatever the project is called and whatever the server
    name is, also when [generateServerName] throws. *)
Theorem tool_names_are_identifiers gsn repoData :
  all_chars tool_name_char (generateSearchToolName gsn repoData) = true
  /\ all_chars tool_name_char (generateFetchToolName gsn repoData) = true
  /\ all_chars tool_name_char (generateCodeSearchToolName gsn repoData) = true.
Proof.
  unfold generateSearchToolName, generateFetchToolName, generateCodeSearchToolName.
  split; [| split]; destruct (urlType repoData); try reflexivity;
    match goal with
    | |- context [enforceToolNameLengthLimit ?g ?p ?pr ?s] =>
        destruct (enforceToolNameLengthLimit g p pr s) as [name|e] eqn:E;
          [cbn [or_else]; now apply (all_chars_enforce g p pr s name) | reflexivity]
    end.
Qed.

(** X15.  For a repository with a project, each generated tool name
    together with the server name stays within [LIMIT] = 51 characters as
    soon as the server name has at most 40 characters; failing that the
    name is the fixed shortest one. *)
Theorem tool_names_fit gsn repoData serverName :
  urlType repoData <> unknown ->
  truthy_opt (project repoData) = true ->
  gsn (default "" (project repoData)) = Ok serverName ->
  let n := String.length serverName in
  ((String.length (generateSearchToolName gsn repoData) + n <= LIMIT)%nat
   \/ (generateSearchToolName gsn repoData = "search_docs" /\ (40 < n)%nat))
  /\ ((String.length (generateFetchToolName gsn repoData) + n <= LIMIT)%nat
      \/ (generateFetchToolName gsn repoData = "fetch_docs" /\ (41 < n)%nat))
  /\ ((String.length (generateCodeSearchToolName gsn repoData) + n <= LIMIT)%nat
      \/ (generateCodeSearchToolName gsn repoData = "search_code" /\ (40 < n)%nat)).
Proof.
  intros Hu Ht Hg n.
  destruct (project repoData) as [project|] eqn:Ep; [| discriminate].
  cbn [truthy_opt default from_option id] in *.
  unfold generateSearchToolName, generateFetchToolName, generateCodeSearchToolName.
  rewrite Ep.
  assert (Hcase : forall prefix suffix,
             let r := or_else (enforceToolNameLengthLimit gsn prefix (Some project) suffix)
                        "" in
             enforceToolNameLengthLimit gsn prefix (Some project) suffix = Ok r
             /\ ((String.length r + n <= LIMIT)%nat
                 \/ (r = collapse_underscores (prefix +:+ shorter suffix)
                     /\ (LIMIT < String.length (prefix +:+ "project" +:+ shorter suffix)
                                 + n)%nat))).
  { intros prefix suffix.
    destruct (enforceToolNameLengthLimit_cases gsn prefix project suffix serverName Ht Hg)
      as (part & sfx & _ & [(E & Hl & _) | (E & Hl)]); cbv zeta; rewrite E; cbn [or_else];
      (split; [reflexivity |]); [left; exact Hl | right; now split]. }
  assert (Hsel : forall prefix suffix dflt fallback,
             or_else (match urlType repoData with
                      | subdomain | gitlab =>
                          enforceToolNameLengthLimit gsn prefix (Some project) suffix
                      | unknown => Ok dflt
                      end) fallback
             = or_else (enforceToolNameLengthLimit gsn prefix (Some project) suffix) "").
  { intros prefix suffix dflt fallback. destruct (Hcase prefix suffix) as (E & _).
    destruct (urlType repoData); [| | contradiction]; now rewrite E. }
  split; [| split].
  - rewrite Hsel. destruct (Hcase "search_" "_documentation") as (_ & [H | (H1 & H2)]);
      [now left |]. cbv zeta in H1. rewrite H1.
    change (collapse_underscores ("search_" +:+ shorter "_documentation"))
      with "search_docs".
    cbn in H2. unfold LIMIT in *.
    destruct (Nat.le_gt_cases n 40) as [Hn | Hn]; [left; cbn; lia | right; now split].
  - rewrite Hsel. destruct (Hcase "fetch_" "_documentation") as (_ & [H | (H1 & H2)]);
      [now left |]. cbv zeta in H1. rewrite H1.
    change (collapse_underscores ("fetch_" +:+ shorter "_documentation"))
      with "fetch_docs".
    unfold LIMIT in *.
    destruct (Nat.le_gt_cases n 41) as [Hn | Hn]; [left; cbn; lia | right; now split].
  - rewrite Hsel. destruct (Hcase "search_" "_code") as (_ & [H | (H1 & H2)]);
      [now left |]. cbv zeta in H1. rewrite H1.
    change (collapse_underscores ("search_" +:+ shorter "_code")) with "search_code".
    unfold LIMIT in *.
    destruct (Nat.le_gt_cases n 40) as [Hn | Hn]; [left; cbn; lia | right; now split].
Qed.

Lemma tool_names_fit_witness :
  let repoData := {| namespace := Some "acme"; project := Some "widgets";
                     host := "gitmcp.io"; urlType := gitlab |} in
  let n := String.length "widgets Docs" in
  ((String.length (generateSearchToolName sample_server_name repoData) + n <= LIMIT)%nat
   \/ (generateSearchToolName sample_server_name repoData = "search_docs" /\ (40 < n)%nat))
  /\ ((String.length (generateFetchToolName sample_server_name repoData) + n <= LIMIT)%nat
      \/ (generateFetchToolName sample_server_name repoData = "fetch_docs" /\ (41 < n)%nat))
  /\ ((String.length (generateCodeSearchToolName sample_server_name repoData) + n
       <= LIMIT)%nat
      \/ (generateCodeSearchToolName sample_server_name repoData = "search_code"
          /\ (40 < n)%nat)).
Proof.
  intros repoData.
  apply (tool_names_fit sample_server_name repoData "widgets Docs");
    [discriminate | reflexivity | reflexivity].
Defined.

(** X16.  The project part of a tool name is never invented: when the full
    name fits it is used as it is; otherwise the name is the prefix, then
    the word [project] or a prefix of the sanitized project name, then the
    suffix or its short form; failing all that it is the prefix and the
    short suffix alone. *)
Theorem enforceToolNameLengthLimit_keeps_a_prefix gsn prefix project suffix serverName :
  truthy project = true ->
  gsn project = Ok serverName ->
  exists name,
    enforceToolNameLengthLimit gsn prefix (Some project) suffix = Ok name
    /\ ((String.length (prefix +:+ sanitize project +:+ suffix)
         + String.length serverName <= LIMIT)%nat ->
        name = prefix +:+ sanitize project +:+ suffix)
    /\ ((exists part sfx,
           name = prefix +:+ part +:+ sfx
           /\ (sfx = suffix \/ sfx = shorter suffix)
           /\ (part = "project" \/ is_prefix part (sanitize project) = true)
           /\ (String.length name + String.length serverName <= LIMIT)%nat)
        \/ name = collapse_underscores (prefix +:+ shorter suffix)).
Proof.
  intros Ht Hg.
  destruct (enforceToolNameLengthLimit_cases gsn prefix project suffix serverName Ht Hg)
    as (part & sfx & Hsfx & Hcases).
  assert (Hfull : (String.length (prefix +:+ sanitize project +:+ suffix)
                   + String.length serverName <= LIMIT)%nat ->
                  enforceToolNameLengthLimit gsn prefix (Some project) suffix
                  = Ok (prefix +:+ sanitize project +:+ suffix)).
  { intros Hfit. unfold enforceToolNameLengthLimit.
    cbn [truthy_opt default from_option id]. rewrite Ht, Hg. cbv zeta. cbn [negb].
    apply Nat.leb_le in Hfit. now rewrite Hfit. }
  destruct Hcases as [(E & Hl & Hpart) | (E & _)]; eexists; (split; [exact E |]).
  - split; [intros Hfit; rewrite (Hfull Hfit) in E; congruence |].
    left. exists part, sfx. split; [reflexivity |]. split; [exact Hsfx |].
    split; [| exact Hl].
    destruct Hpart as [-> | (j & _ & ->)]; [now left | right].
    rewrite <- (concat_split_on "_" (sanitize project)) at 2.
    apply is_prefix_concat_take.
  - split; [intros Hfit; rewrite (Hfull Hfit) in E; congruence |]. now right.
Qed.

Lemma enforceToolNameLengthLimit_keeps_a_prefix_witness :
  exists name,
    enforceToolNameLengthLimit sample_server_name "fetch_"
      (Some "spring-boot-starter-test") "_documentation" = Ok name
    /\ ((String.length ("fetch_" +:+ sanitize "spring-boot-starter-test"
                        +:+ "_documentation")
         + String.length "spring-boot-starter-test Docs" <= LIMIT)%nat ->
        name = "fetch_" +:+ sanitize "spring-boot-starter-test" +:+ "_documentation")
    /\ ((exists part sfx,
           name = "fetch_" +:+ part +:+ sfx
           /\ (sfx = "_documentation" \/ sfx = shorter "_documentation")
           /\ (part = "project"
               \/ is_prefix part (sanitize "spring-boot-starter-test") = true)
           /\ (String.length name + String.length "spring-boot-starter-test Docs"
               <= LIMIT)%nat)
        \/ name = collapse_underscores ("fetch_" +:+ shorter "_documentation")).
Proof.
  exact (enforceToolNameLengthLimit_keeps_a_prefix sample_server_name "fetch_"
           "spring-boot-starter-test" "_documentation"
           "spring-boot-starter-test Docs" eq_refl eq_refl).
Defined.

(** On that project the name keeps the first two words. *)
Example enforceToolNameLengthLimit_drops_words :
  enforceToolNameLengthLimit sample_server_name "fetch_"
    (Some "spring-boot-starter-test") "_documentation"
  = Ok "fetch_spring_boot_docs".
Proof. vm_compute. reflexivity. Qed.
(** ** Repository data *)

Lemma lacks_slash (s : string) : lacks "/" s = negb (has_slash s).
Proof.
  unfold lacks. induction s as [|c s IH]; [reflexivity |].
  cbn [all_chars has_slash]. rewrite IH. now rewrite negb_orb.
Qed.

Lemma segments_spec pathname :
  Forall (fun x => truthy x = true /\ lacks "/" x = true) (segments pathname).
Proof.
  unfold segments. apply List.Forall_forall. intros x Hx.
  apply List.filter_In in Hx as [Hin Ht]. split; [exact Ht |].
  pose proof (split_on_lacks "/" pathname) as H.
  rewrite List.Forall_forall in H. now apply H.
Qed.

Lemma split_on_normalize_path pathname :
  split_on "/" (normalize_path pathname)
  = match segments pathname with
    | [] => [""]
    | segs => segs
    end.
Proof.
  unfold normalize_path. fold (segments pathname).
  pose proof (segments_spec pathname) as H.
  destruct (segments pathname) as [|x l] eqn:E; [reflexivity |].
  apply (split_on_concat "/"); [discriminate |].
  eapply List.Forall_impl; [| exact H]. now intros a [_ Ha].
Qed.

Lemma truthy_concat sep x l : truthy x = true -> truthy (String.concat sep (x :: l)) = true.
Proof.
  intros H. destruct l as [|y l]; [exact H |]. rewrite concat_cons2.
  destruct x; [discriminate | reflexivity].
Qed.

Lemma truthy_normalize_path pathname :
  truthy (normalize_path pathname) = negb (length (segments pathname) =? 0)%nat.
Proof.
  unfold normalize_path. fold (segments pathname).
  pose proof (segments_spec pathname) as H.
  destruct (segments pathname) as [|x l]; [reflexivity |].
  inversion H as [|? ? [Hx _] _]; subst. now rewrite truthy_concat.
Qed.

Lemma concat_removelast_last sep (l : list string) x y :
  String.concat sep (removelast (x :: y :: l)) +:+ sep +:+ List.last (x :: y :: l) ""
  = String.concat sep (x :: y :: l).
Proof.
  revert x y. induction l as [|z l IH]; intros x y; [reflexivity |].
  change (removelast (x :: y :: z :: l)) with (x :: removelast (y :: z :: l)).
  change (List.last (x :: y :: z :: l) "") with (List.last (y :: z :: l) "").
  change (removelast (y :: z :: l)) with (y :: removelast (z :: l)) at 1.
  rewrite concat_cons2. change (y :: removelast (z :: l)) with (removelast (y :: z :: l)).
  rewrite !string_app_assoc. rewrite IH. reflexivity.
Qed.

Lemma last_some (l : list string) x : last (x :: l) = Some (List.last (x :: l) "").
Proof.
  revert x. induction l as [|y l IH]; intros x; [reflexivity |].
  change (last (x :: y :: l)) with (last (y :: l)). rewrite IH. reflexivity.
Qed.

(** What [getRepoData] returns, by the kind of host and the segments of the
    path. *)
Lemma getRepoData_cases URL_pathname requestData pathname :
  fullUrl_pathname URL_pathname requestData = Some pathname ->
  let requestHost := requestHost requestData in
  let segs := segments pathname in
  getRepoData URL_pathname requestData
  = if includes ".gitmcp.io" requestHost then
      let subdomain_ := hd "" (split_on "." requestHost) in
      if negb (truthy subdomain_) && (length segs =? 0)%nat
      then Throw "Invalid repository data"
      else Ok {| namespace := Some subdomain_;
                 project := if (length segs =? 0)%nat then None
                            else Some (String.concat "/" segs);
                 host := requestHost; urlType := subdomain |}
    else if gitlab_host requestHost then
      match segs with
      | [] => Throw "Invalid repository data"
      | [x] => Ok {| namespace := Some x; project := None;
                     host := requestHost; urlType := gitlab |}
      | _ => Ok {| namespace := Some (String.concat "/" (removelast segs));
                   project := Some (List.last segs "");
                   host := requestHost; urlType := gitlab |}
      end
    else Ok {| namespace := None; project := None;
               host := requestHost; urlType := unknown |}.
Proof.
  intros Hp. cbv zeta. unfold getRepoData. rewrite Hp. cbv zeta.
  fold (gitlab_host (requestHost requestData)).
  rewrite split_on_normalize_path, truthy_normalize_path.
  pose proof (segments_spec pathname) as H.
  unfold normalize_path. fold (segments pathname).
  destruct (includes ".gitmcp.io" (requestHost requestData)).
  { rewrite negb_involutive.
    destruct (length (segments pathname) =? 0)%nat; reflexivity. }
  destruct (gitlab_host (requestHost requestData)); [| reflexivity].
  destruct (segments pathname) as [|x [|y l]] eqn:E; [reflexivity | |].
  - inversion H as [|? ? [Hx _] _]; subst. cbn. now rewrite Hx.
  - inversion H as [|? ? [Hx _] _]; subst.
    cbn [length Nat.ltb Nat.leb].
    change (removelast (x :: y :: l)) with (x :: removelast (y :: l)).
    rewrite (truthy_concat "/" x) by exact Hx. cbn [negb andb].
    now rewrite last_some.
Qed.

Lemma last_in_Forall (Q : string -> Prop) (l : list string) x :
  Forall Q (x :: l) -> Q (List.last (x :: l) "").
Proof.
  revert x. induction l as [|y l IH]; intros x H; inversion H; subst; [assumption |].
  change (List.last (x :: y :: l) "") with (List.last (y :: l) ""). now apply IH.
Qed.

Lemma hd_split_on_lacks sep s : lacks sep (hd "" (split_on sep s)) = true.
Proof.
  pose proof (split_on_lacks sep s) as H.
  destruct (split_on sep s); [reflexivity |]. now inversion H.
Qed.

(** X17.  What [getRepoData] returns is well formed: the host is the
    request host; on an unknown host both names are null; for a GitLab
    repository the namespace is never empty and the project is null or a
    non-empty name without a slash; for a Pages site the namespace has no
    dot, the project is null or non-empty, and not both are empty. *)
Theorem getRepoData_well_formed URL_pathname requestData repoData :
  getRepoData URL_pathname requestData = Ok repoData ->
  host repoData = requestHost requestData
  /\ project repoData <> Some ""
  /\ match urlType repoData with
     | unknown => namespace repoData = None /\ project repoData = None
     | gitlab =>
         truthy_opt (namespace repoData) = true
         /\ forall p, project repoData = Some p -> has_slash p = false
     | subdomain =>
         (exists s, namespace repoData = Some s /\ lacks "." s = true)
         /\ (truthy_opt (namespace repoData) || truthy_opt (project repoData) = true)
     end.
Proof.
  destruct (fullUrl_pathname URL_pathname requestData) as [pathname|] eqn:Hp.
  2: { unfold getRepoData. rewrite Hp. discriminate. }
  rewrite (getRepoData_cases _ _ _ Hp). cbv zeta.
  pose proof (segments_spec pathname) as H.
  destruct (includes ".gitmcp.io" (requestHost requestData)).
  { destruct (segments pathname) as [|x l] eqn:E.
    - cbn [length Nat.eqb andb]. rewrite andb_true_r.
      destruct (truthy (hd "" (split_on "." (requestHost requestData)))) eqn:Ts;
        cbn [negb]; [| discriminate].
      intros Hr. inversion Hr; subst; cbn.
      split; [reflexivity |]. split; [discriminate |]. split.
      + eexists. split; [reflexivity | apply hd_split_on_lacks].
      + now rewrite Ts.
    - cbn [length Nat.eqb]. rewrite andb_false_r.
      intros Hr. inversion Hr; subst; cbn [host project namespace urlType].
      inversion H as [|? ? [Hx _] _]; subst.
      pose proof (truthy_concat "/" x l Hx) as Tc.
      split; [reflexivity |].
      split; [intros Hc; apply (f_equal truthy_opt) in Hc;
              change (truthy (String.concat "/" (x :: l)) = false) in Hc; congruence |].
      split.
      + eexists. split; [reflexivity | apply hd_split_on_lacks].
      + apply orb_true_iff. right. exact Tc. }
  destruct (gitlab_host (requestHost requestData)).
  2: { intros Hr. inversion Hr; subst; cbn. now repeat split. }
  destruct (segments pathname) as [|x [|y l]] eqn:E; [discriminate | |];
    intros Hr; inversion Hr; subst; cbn [host project namespace urlType];
    inversion H as [|? ? [Hx _] Hl]; subst.
  - split; [reflexivity |]. split; [discriminate |]. split; [exact Hx | discriminate].
  - pose proof (last_in_Forall _ _ _ H) as [Tl Ll].
    split; [reflexivity |].
    split; [intros Hc; apply (f_equal truthy_opt) in Hc;
            change (truthy (List.last (x :: y :: l) "") = false) in Hc; congruence |].
    split.
    + change (removelast (x :: y :: l)) with (x :: removelast (y :: l)).
      cbn [truthy_opt]. now apply truthy_concat.
    + intros p Hpp. inversion Hpp; subst p. rewrite lacks_slash in Ll.
      now apply negb_true_iff in Ll.
Qed.

Lemma getRepoData_well_formed_witness :
  let repoData := {| namespace := Some "acme/tools"; project := Some "widgets";
                     host := "gitmcp.io"; urlType := gitlab |} in
  host repoData = requestHost sample_request
  /\ project repoData <> Some ""
  /\ truthy_opt (namespace repoData) = true
  /\ forall p, project repoData = Some p -> has_slash p = false.
Proof.
  intros repoData.
  exact (getRepoData_well_formed sample_pathname sample_request repoData eq_refl).
Defined.

(** X18.  For a GitLab repository with a project, the project is the last
    segment of the path and the namespace is everything before it: joined
    with a slash they give back the path of the request, cleared of empty
    segments.  Both names are then known to the resolver. *)
Theorem getRepoData_splits_path URL_pathname requestData repoData p :
  getRepoData URL_pathname requestData = Ok repoData ->
  urlType repoData = gitlab ->
  project repoData = Some p ->
  exists n pathname,
    namespace repoData = Some n
    /\ fullUrl_pathname URL_pathname requestData = Some pathname
    /\ n +:+ "/" +:+ p = normalize_path pathname
    /\ has_slash p = false
    /\ known repoData = true.
Proof.
  destruct (fullUrl_pathname URL_pathname requestData) as [pathname|] eqn:Hp.
  2: { unfold getRepoData. rewrite Hp. discriminate. }
  rewrite (getRepoData_cases _ _ _ Hp). cbv zeta.
  pose proof (segments_spec pathname) as H.
  destruct (includes ".gitmcp.io" (requestHost requestData)).
  { destruct (_ && _); [discriminate |]. intros Hr; inversion Hr; subst. discriminate. }
  destruct (gitlab_host (requestHost requestData)).
  2: { intros Hr; inversion Hr; subst. discriminate. }
  destruct (segments pathname) as [|x [|y l]] eqn:E; [discriminate | |];
    intros Hr _ Hproj; injection Hr as <-; cbn [project namespace] in *; [discriminate |].
  injection Hproj as <-.
  pose proof (last_in_Forall _ _ _ H) as [Tl Ll].
  inversion H as [|? ? [Hx _] _]; subst.
  eexists _, pathname. split; [reflexivity |]. split; [reflexivity |].
  split; [unfold normalize_path; fold (segments pathname); rewrite E;
          exact (concat_removelast_last "/" l x y) |].
  split; [rewrite lacks_slash in Ll; now apply negb_true_iff in Ll |].
  apply andb_true_iff. split; [| exact Tl].
  exact (truthy_concat "/" x (removelast (y :: l)) Hx).
Qed.

Lemma getRepoData_splits_path_witness :
  exists n pathname,
    Some "acme/tools" = Some n
    /\ fullUrl_pathname sample_pathname sample_request = Some pathname
    /\ n +:+ "/" +:+ "widgets" = normalize_path pathname
    /\ has_slash "widgets" = false
    /\ known {| namespace := Some "acme/tools"; project := Some "widgets";
                host := "gitmcp.io"; urlType := gitlab |} = true.
Proof.
  exact (getRepoData_splits_path sample_pathname sample_request
           {| namespace := Some "acme/tools"; project := Some "widgets";
              host := "gitmcp.io"; urlType := gitlab |} "widgets"
           eq_refl eq_refl eq_refl).
Defined.

(** X19.  [getRepoData] throws in three cases only: a URL that does not
    parse, a GitLab host with an empty path, and a Pages host that starts
    with a dot with an empty path.  On any other host it never throws once
    the URL parses. *)
Theorem getRepoData_throws_iff URL_pathname requestData :
  (exists e, getRepoData URL_pathname requestData = Throw e)
  <-> match fullUrl_pathname URL_pathname requestData with
      | None => True
      | Some pathname =>
          normalize_path pathname = ""
          /\ if includes ".gitmcp.io" (requestHost requestData)
             then hd "" (split_on "." (requestHost requestData)) = ""
             else gitlab_host (requestHost requestData) = true
      end.
Proof.
  destruct (fullUrl_pathname URL_pathname requestData) as [pathname|] eqn:Hp.
  2: { unfold getRepoData. rewrite Hp. split; [trivial | intros _; now eexists]. }
  rewrite (getRepoData_cases _ _ _ Hp). cbv zeta.
  assert (Hn : normalize_path pathname = "" <-> segments pathname = []).
  { pose proof (truthy_normalize_path pathname) as T.
    destruct (segments pathname) as [|x l]; cbn in T;
      destruct (normalize_path pathname); try discriminate; split; congruence. }
  rewrite Hn.
  destruct (includes ".gitmcp.io" (requestHost requestData)).
  { destruct (segments pathname) as [|x l]; cbn [length Nat.eqb].
    - rewrite andb_true_r.
      destruct (hd "" (split_on "." (requestHost requestData))) as [|c s]; cbn.
      + split; [now split | intros _; now eexists].
      + split; [now intros [e He] | now intros [_ Hc]].
    - rewrite andb_false_r. split; [now intros [e He] | now intros [Hc _]]. }
  destruct (gitlab_host (requestHost requestData)).
  2: { split; [now intros [e He] | now intros [_ Hc]]. }
  destruct (segments pathname) as [|x [|y l]].
  - split; [now split | intros _; now eexists].
  - split; [now intros [e He] | now intros [Hc _]].
  - split; [now intros [e He] | now intros [Hc _]].
Qed.

(** ** Fetching a URL *)

(** X20.  [fetchUrlContent] never throws and does one thing only, the
    robots-checked fetch of the URL.  A rejected fetch gives status
    [error], a blocked one [blocked], an empty one [not_found]; otherwise
    the status is [success] and the text is the content, converted to
    Markdown only if it looks like HTML (after [trim], whatever white space
    that removes, it starts with [<!DOCTYPE] or [<html], or it holds
    [<body] anywhere) and the converter does not throw. *)
Theorem fetchUrlContent_outcomes P url w :
  exists res t,
    fetchUrlContent P url w = (Ok res, log_event (EvRobotsFetch url) w)
    /\ uc_url res = url
    /\ uc_content res = [ {| type_ := "text"; text := t |} ]
    /\ match fetchFileWithRobotsTxtCheck P url with
       | None => uc_status res = "error"
       | Some r =>
           if blockedByRobots r then uc_status res = "blocked"
           else if truthy_opt (robots_content r) then
             uc_status res = "success"
             /\ t = (let c := default "" (robots_content r) in
                     if looks_like_html P c then default c (htmlToMd P c) else c)
           else uc_status res = "not_found"
       end.
Proof.
  unfold fetchUrlContent, try_catch, bind, robots_fetch, emit.
  destruct (fetchFileWithRobotsTxtCheck P url) as [r|]; cbn.
  2: { eexists _, _. repeat split. }
  destruct (blockedByRobots r); [eexists _, _; repeat split |].
  destruct (truthy_opt (robots_content r)); cbn; [| eexists _, _; repeat split].
  eexists _, _. split; [reflexivity |]. split; [reflexivity |]. split; [reflexivity |].
  split; [reflexivity |].
  destruct (looks_like_html _); [| reflexivity]. now destruct (htmlToMd P _).
Qed.

(** ** Searching the documentation *)

Lemma fetchDocumentation_result_shape P repoData env w r w' :
  cache_holds_documents w ->
  fetchDocumentation P repoData env w = (Ok r, w') ->
  exists fileUsed doc, r = text_result fileUsed doc /\ truthy doc = true.
Proof.
  intros Hwf Hrun.
  destruct (check_cache_cases repoData w) as [[r0 Hhit] | Hmiss].
  - unfold fetchDocumentation in Hrun. cbv zeta in Hrun.
    rewrite (bind_ok _ _ _ _ _ Hhit) in Hrun. cbn in Hrun. inversion Hrun; subst.
    apply check_cache_hit_inv in Hhit as (key & e & He & <-). now apply (Hwf key).
  - destruct (cascade P repoData env w) as [[l|err] wc] eqn:Hcas.
    + destruct (fetchDocumentation_miss P repoData env w l wc Hmiss Hcas)
        as (w2 & _ & E).
      rewrite E in Hrun. destruct (truthy_opt (l_content l)) eqn:Tc.
      * cbv zeta in Hrun. inversion Hrun; subst. eexists _, _. split; [reflexivity |].
        destruct (l_content l); [exact Tc | discriminate].
      * inversion Hrun; subst. now eexists _, _.
    + unfold fetchDocumentation in Hrun. cbv zeta in Hrun.
      rewrite (bind_ok _ _ _ _ _ Hmiss), (bind_throw _ _ _ _ _ Hcas) in Hrun.
      discriminate.
Qed.

(** X21.  The naive search never throws, also when the resolution of the
    documentation does, and its effects are those of [fetchDocumentation].
    With a cache that holds documents only, its text carries the document
    that [fetchDocumentation] returns whenever that call returns; when that
    call throws, the text is the error notice. *)
Theorem searchRepositoryDocumentationNaive_carries_documentation P repoData query env w :
  cache_holds_documents w ->
  exists res w',
    searchRepositoryDocumentationNaive P repoData query env w = (Ok res, w')
    /\ sd_searchQuery res = query
    /\ w' = snd (fetchDocumentation P repoData env w)
    /\ match fst (fetchDocumentation P repoData env w) with
       | Ok r =>
           exists fileUsed doc,
             r = text_result fileUsed doc
             /\ truthy doc = true
             /\ sd_content res
                = [ {| type_ := "text";
                       text := naive_text query
                                 (default (dots_to_underscores (host repoData))
                                    (namespace repoData))
                                 (default "docs" (project repoData)) doc |} ]
       | Throw _ =>
           sd_content res = [ {| type_ := "text"; text := naive_error_text query |} ]
       end.
Proof.
  intros Hwf. unfold searchRepositoryDocumentationNaive. cbv zeta.
  unfold try_catch, bind.
  destruct (fetchDocumentation P repoData env w) as [[r|e] w'] eqn:E.
  - destruct (fetchDocumentation_result_shape P repoData env w r w' Hwf E)
      as (fileUsed & doc & -> & Ht).
    eexists _, w'. split; [reflexivity |]. split; [reflexivity |].
    split; [reflexivity |]. now exists fileUsed, doc.
  - eexists _, w'. now repeat split.
Qed.

Lemma searchRepositoryDocumentationNaive_carries_documentation_witness :
  let repoData := gitlab_repo "acme" "widgets" "gitmcp.io" in
  exists res w',
    searchRepositoryDocumentationNaive documented repoData "install" sample_env world_init
    = (Ok res, w')
    /\ sd_searchQuery res = "install"
    /\ w' = snd (fetchDocumentation documented repoData sample_env world_init)
    /\ match fst (fetchDocumentation documented repoData sample_env world_init) with
       | Ok r =>
           exists fileUsed doc,
             r = text_result fileUsed doc
             /\ truthy doc = true
             /\ sd_content res
                = [ {| type_ := "text";
                       text := naive_text "install"
                                 (default (dots_to_underscores (host repoData))
                                    (namespace repoData))
                                 (default "docs" (project repoData)) doc |} ]
       | Throw _ =>
           sd_content res = [ {| type_ := "text"; text := naive_error_text "install" |} ]
       end.
Proof.
  exact (searchRepositoryDocumentationNaive_carries_documentation documented
           (gitlab_repo "acme" "widgets" "gitmcp.io") "install" sample_env world_init
           world_init_holds_documents).
Defined.

Lemma length_filter_existsb {A} (f : A -> bool) (l : list A) :
  (0 <? length (List.filter f l))%nat = existsb f l.
Proof.
  induction l as [|a l IH]; [reflexivity |]. cbn. destruct (f a); [reflexivity | exact IH].
Qed.

Lemma filter_filter_same {A} (f : A -> bool) (l : list A) :
  List.filter f (List.filter f l) = List.filter f l.
Proof.
  induction l as [|a l IH]; [reflexivity |]. cbn. destruct (f a) eqn:E; [| exact IH].
  cbn. now rewrite E, IH.
Qed.

Lemma length_filter_zero {A} (f : A -> bool) (l : list A) :
  (0 <? length l)%nat = false -> (0 <? length (List.filter f l))%nat = false.
Proof. destruct l; [reflexivity | discriminate]. Qed.

(** The outcomes of the AutoRAG search for a repository with both names. *)
Lemma searchRepositoryDocumentationAutoRag_cases ai P repoData query env pipeline w :
  known repoData = true ->
  let namespace := default "" (namespace repoData) in
  let project := default "" (project repoData) in
  match ai pipeline (autorag_request repoData query) with
  | None =>
      searchRepositoryDocumentationAutoRag ai P repoData query env pipeline w
      = (Throw "AutoRAG search rejected", w)
  | Some answer =>
      let sq := if truthy_opt (ans_search_query answer)
                then default "" (ans_search_query answer) else query in
      if existsb (in_repo namespace project) (ans_data answer) then
        exists defaultBranch w',
          getRepoBranch P namespace project env w = (Ok defaultBranch, w')
          /\ searchRepositoryDocumentationAutoRag ai P repoData query env pipeline w
             = (Ok {| sd_searchQuery := sq;
                      sd_content :=
                        [ {| type_ := "text";
                             text :=
                               ("## Query" +:+ LF +:+ LF +:+ query +:+ "." +:+ LF +:+ LF
                                +:+ "## Response" +:+ LF +:+ LF)
                               +:+ ("### Sources:" +:+ LF
                                    +:+ "Important: you can fetch the full content of any source using the fetch_url_content tool"
                                    +:+ LF)
                               +:+ String.concat ""
                                     (List.map
                                        (format_source namespace project defaultBranch env)
                                        (List.filter (in_repo namespace project)
                                           (ans_data answer))) |} ] |},
                w')
      else
        searchRepositoryDocumentationAutoRag ai P repoData query env pipeline w
        = (Ok {| sd_searchQuery := sq;
                 sd_content := [ {| type_ := "text"; text := no_results_text query |} ] |},
           w)
  end.
Proof.
  intros Hk. cbv zeta. unfold searchRepositoryDocumentationAutoRag.
  unfold known in Hk. apply andb_true_iff in Hk as [Hn Hp]. rewrite Hn, Hp. cbn [negb orb].
  cbv zeta. fold (autorag_request repoData query).
  destruct (ai pipeline (autorag_request repoData query)) as [answer|]; [| reflexivity].
  fold (in_repo (default "" (namespace repoData)) (default "" (project repoData))).
  rewrite <- length_filter_existsb.
  destruct (0 <? length (ans_data answer))%nat eqn:E0.
  2: { rewrite (length_filter_zero _ _ E0). reflexivity. }
  destruct (0 <? length (List.filter _ (ans_data answer)))%nat eqn:E1; [| reflexivity].
  destruct (safe_getRepoBranch P (default "" (namespace repoData))
              (default "" (project repoData)) env w) as (b & w' & Eb).
  exists b, w'. split; [exact Eb |].
  unfold bind. rewrite Eb. cbn [ret]. rewrite !string_app_assoc. reflexivity.
Qed.

(** X22.  Hits of other repositories never reach the response of the
    AutoRAG search: an index that returns only the hits whose file name
    starts with [namespace/project/] gives the same result and the same
    effects. *)
Theorem searchRepositoryDocumentationAutoRag_ignores_other_repositories
    (ai ai' : AutoRag) P repoData query env pipeline w :
  (forall request,
     ai' pipeline request
     = (fun answer =>
          {| ans_search_query := ans_search_query answer;
             ans_data := List.filter (in_repo (default "" (namespace repoData))
                                        (default "" (project repoData)))
                           (ans_data answer) |}) <$> ai pipeline request) ->
  searchRepositoryDocumentationAutoRag ai' P repoData query env pipeline w
  = searchRepositoryDocumentationAutoRag ai P repoData query env pipeline w.
Proof.
  intros Hai. destruct (known repoData) eqn:Hk.
  2: { unfold searchRepositoryDocumentationAutoRag. unfold known in Hk.
       destruct (truthy_opt (namespace repoData)), (truthy_opt (project repoData));
         try discriminate; reflexivity. }
  pose proof (searchRepositoryDocumentationAutoRag_cases ai P repoData query env pipeline
                w Hk) as H.
  pose proof (searchRepositoryDocumentationAutoRag_cases ai' P repoData query env pipeline
                w Hk) as H'.
  cbv zeta in H, H'. rewrite Hai in H'.
  destruct (ai pipeline (autorag_request repoData query)) as [answer|];
    cbn [fmap option_fmap option_map] in H'; [| congruence].
  cbn [ans_search_query ans_data] in H'.
  rewrite <- !length_filter_existsb in H, H'. rewrite filter_filter_same in H'.
  destruct (0 <? length (List.filter _ (ans_data answer)))%nat; [| congruence].
  destruct H as (b & w1 & Eb & E), H' as (b' & w1' & Eb' & E').
  rewrite Eb in Eb'. inversion Eb'; subst b' w1'. congruence.
Qed.

Lemma searchRepositoryDocumentationAutoRag_ignores_other_repositories_witness :
  searchRepositoryDocumentationAutoRag
    (fun _ _ => Some {| ans_search_query := None;
                        ans_data := [ {| ar_filename := "acme/widgets/docs/setup.md";
                                         ar_score := "0.87";
                                         ar_content := [Some "Run the installer."; None] |} ]
                     |})
    documented (gitlab_repo "acme" "widgets" "gitmcp.io") "install" indexed_env "docs-rag"
    world_init
  = searchRepositoryDocumentationAutoRag sample_index documented
      (gitlab_repo "acme" "widgets" "gitmcp.io") "install" indexed_env "docs-rag" world_init.
Proof.
  apply searchRepositoryDocumentationAutoRag_ignores_other_repositories.
  intros request. reflexivity.
Defined.

Lemma has_results_sources query sq sources :
  has_results
    {| sd_searchQuery := sq;
       sd_content :=
         [ {| type_ := "text";
              text := ("## Query" +:+ LF +:+ LF +:+ query +:+ "." +:+ LF +:+ LF
                       +:+ "## Response" +:+ LF +:+ LF) +:+ sources |} ] |} = true.
Proof. reflexivity. Qed.

Lemma has_results_none query sq :
  has_results {| sd_searchQuery := sq;
                 sd_content := [ {| type_ := "text"; text := no_results_text query |} ] |}
  = false.
Proof. reflexivity. Qed.

(** X23.  [searchRepositoryDocumentation] throws when the bucket is not
    bound or its [head] fails, before anything else happens.  When the
    bucket does not hold the [llms.txt] of the repository, the fallback
    search runs, from the world the call started in.  When it holds it and
    the repository lacks a namespace or a project, the text "No repository
    data provided" is returned and the fallback does not run.  When it
    holds it and both names are there, the AutoRAG result is returned
    exactly when the search resolves and at least one hit belongs to the
    repository; if the search rejects or no hit belongs to it, the fallback
    search runs, from the world the call started in. *)
Theorem searchRepositoryDocumentation_falls_back ai P fallbackSearch repoData query env w :
  let run := searchRepositoryDocumentation ai P fallbackSearch repoData query env w in
  match DOCS_BUCKET env with
  | None => run = (Throw "DOCS_BUCKET is not available in environment", w)
  | Some bucket =>
      match bucket (template_null (namespace repoData) +:+ "/"
                    +:+ template_null (project repoData) +:+ "/llms.txt") with
      | R2Throws => run = (Throw "R2 error", w)
      | R2Missing => run = fallbackSearch repoData query env w
      | R2Object _ =>
          if known repoData then
            match ai "docs-rag" (autorag_request repoData query) with
            | None => run = fallbackSearch repoData query env w
            | Some answer =>
                if existsb (in_repo (default "" (namespace repoData))
                              (default "" (project repoData))) (ans_data answer)
                then run = searchRepositoryDocumentationAutoRag ai P repoData query env
                             "docs-rag" w
                     /\ exists res w', run = (Ok res, w') /\ has_results res = true
                else run = fallbackSearch repoData query env w
            end
          else run = (Ok {| sd_searchQuery := query;
                            sd_content := [ {| type_ := "text";
                                               text := "No repository data provided" |} ] |},
                      w)
      end
  end.
Proof.
  cbv zeta. unfold searchRepositoryDocumentation.
  destruct (DOCS_BUCKET env) as [bucket|]; [| reflexivity].
  destruct (bucket _); [reflexivity | reflexivity |].
  rewrite (bind_ok _ _ _ _ _ (eq_refl : ret true w = (Ok true, w))).
  destruct (known repoData) eqn:Hk.
  2: { unfold searchRepositoryDocumentationAutoRag. unfold known in Hk.
       destruct (truthy_opt (namespace repoData)), (truthy_opt (project repoData));
         try discriminate; reflexivity. }
  pose proof (searchRepositoryDocumentationAutoRag_cases ai P repoData query env "docs-rag"
                w Hk) as H.
  cbv zeta in H.
  destruct (ai "docs-rag" (autorag_request repoData query)) as [answer|].
  2: { match goal with
       | |- bind ?m ?k w = _ => assert (Hf : m w = (Ok None, w))
       end.
       { unfold try_catch. now rewrite (bind_throw _ _ _ _ _ H). }
       now rewrite (bind_ok _ _ _ _ _ Hf). }
  destruct (existsb _ (ans_data answer)).
  - destruct H as (b & w' & _ & E). rewrite E.
    match goal with
    | |- bind ?m ?k w = (Ok ?r, _) /\ _ => assert (Hf : m w = (Ok (Some r), w'))
    end.
    { apply try_catch_ok. rewrite (bind_ok _ _ _ _ _ E).
      now rewrite has_results_sources. }
    rewrite (bind_ok _ _ _ _ _ Hf).
    split; [reflexivity |]. eexists _, _. split; [reflexivity |].
    apply has_results_sources.
  - match goal with
    | |- bind ?m ?k w = _ => assert (Hf : m w = (Ok None, w))
    end.
    { apply try_catch_ok. rewrite (bind_ok _ _ _ _ _ H).
      now rewrite has_results_none. }
    now rewrite (bind_ok _ _ _ _ _ Hf).
Qed.

(** With the naive search as the fallback and a bucket that holds the
    file, the hit of the repository is listed with its raw URL. *)
Example searchRepositoryDocumentation_lists_source :
  exists res w',
    searchRepositoryDocumentation sample_index documented
      (searchRepositoryDocumentationNaive documented)
      (gitlab_repo "acme" "widgets" "gitmcp.io") "install" indexed_env world_init
    = (Ok res, w')
    /\ sd_searchQuery res = "install"
    /\ has_results res = true.
Proof. eexists _, _. split; [vm_compute; reflexivity |]. split; reflexivity. Qed.

(** ** A Pages site *)

Lemma trace_log_event e w : trace (log_event e w) = (trace w ++ [e])%list.
Proof. reflexivity. Qed.

(** The run of the Pages branch: which URLs it fetches, and what it returns
    once one of them is closed to robots. *)
Lemma resolve_subdomain_run P repoData w :
  let base := pages_base repoData in
  exists urls,
    urls `prefix_of` [base +:+ "llms.txt"; base; base +:+ "README.md"]
    /\ urls <> []
    /\ trace (snd (resolve_subdomain P (namespace repoData) (project repoData)
                     locals_init w))
       = (trace w ++ List.map EvRobotsFetch urls)%list
    /\ forall l,
         fst (resolve_subdomain P (namespace repoData) (project repoData) locals_init w)
         = Ok l ->
         Exists (blocked_at P) urls ->
         l_fileUsed l = fileUsed robots_notice
         /\ [ {| type_ := "text"; text := default "" (l_content l) |} ]
            = content robots_notice
         /\ truthy_opt (l_content l) = true.
Proof.
  cbv zeta. unfold resolve_subdomain. cbv zeta. fold (pages_base repoData).
  set (base := pages_base repoData).
  unfold robots_fetch, bind, emit, ret, throw.
  assert (Hno : forall u r, fetchFileWithRobotsTxtCheck P u = Some r ->
                            blockedByRobots r = false -> ~ blocked_at P u).
  { intros u r E B (r' & E' & B'). congruence. }
  destruct (fetchFileWithRobotsTxtCheck P (base +:+ "llms.txt")) as [r1|] eqn:E1.
  2: { exists [base +:+ "llms.txt"]. split; [now eexists |]. split; [discriminate |].
       split; [reflexivity | discriminate]. }
  destruct (blockedByRobots r1) eqn:B1.
  { exists [base +:+ "llms.txt"]. split; [now eexists |]. split; [discriminate |].
    split; [reflexivity |]. cbn. intros l Hl _. inversion Hl; subst. now cbn. }
  destruct (truthy_opt (robots_content r1)) eqn:T1.
  { exists [base +:+ "llms.txt"]. split; [now eexists |]. split; [discriminate |].
    split; [reflexivity |]. cbn. intros l Hl Hex.
    apply Exists_cons in Hex as [Hex | Hex]; [now apply (Hno _ _ E1 B1) in Hex |].
    now apply Exists_nil in Hex. }
  destruct (fetchFileWithRobotsTxtCheck P base) as [r2|] eqn:E2.
  2: { exists [base +:+ "llms.txt"; base]. split; [now eexists |]. split; [discriminate |].
       split; [cbn; now rewrite <- app_assoc | discriminate]. }
  destruct (blockedByRobots r2) eqn:B2.
  { exists [base +:+ "llms.txt"; base]. split; [now eexists |]. split; [discriminate |].
    split; [cbn; now rewrite <- app_assoc |]. cbn. intros l Hl _.
    inversion Hl; subst. now cbn. }
  assert (Hex2 : ~ Exists (blocked_at P) [base +:+ "llms.txt"; base]).
  { intros Hex. apply Exists_cons in Hex as [Hex | Hex];
      [now apply (Hno _ _ E1 B1) in Hex |].
    apply Exists_cons in Hex as [Hex | Hex]; [now apply (Hno _ _ E2 B2) in Hex |].
    now apply Exists_nil in Hex. }
  set (l2 := if truthy_opt (robots_content r2)
             then match htmlToMd P (default "" (robots_content r2)) with
                  | Some md =>
                      set_found (Some md)
                        "landing page (index.html, converted to Markdown)" locals_init
                  | None => locals_init
                  end
             else locals_init).
  assert (Hb2 : l_blockedByRobots l2 = false).
  { unfold l2. destruct (truthy_opt (robots_content r2)); [| reflexivity].
    now destruct (htmlToMd P (default "" (robots_content r2))). }
  rewrite Hb2. cbn [negb andb].
  destruct (truthy_opt (l_content l2)) eqn:T2; cbn [negb andb].
  { exists [base +:+ "llms.txt"; base]. split; [now eexists |]. split; [discriminate |].
    split; [cbn; rewrite Hb2; cbn; now rewrite <- app_assoc |].
    intros l Hl Hex. contradiction. }
  destruct (fetchFileWithRobotsTxtCheck P (base +:+ "README.md")) as [r3|] eqn:E3.
  2: { exists [base +:+ "llms.txt"; base; base +:+ "README.md"].
       split; [now exists [] |]. split; [discriminate |].
       split; [cbn; now rewrite <- !app_assoc | discriminate]. }
  exists [base +:+ "llms.txt"; base; base +:+ "README.md"].
  split; [now exists [] |]. split; [discriminate |].
  destruct (blockedByRobots r3) eqn:B3.
  { split; [cbn; now rewrite <- !app_assoc |]. cbn. intros l Hl _.
    inversion Hl; subst. now cbn. }
  assert (Hex3 : ~ Exists (blocked_at P) [base +:+ "llms.txt"; base; base +:+ "README.md"]).
  { intros Hex. apply Exists_cons in Hex as [Hex | Hex];
      [now apply (Hno _ _ E1 B1) in Hex |].
    apply Exists_cons in Hex as [Hex | Hex]; [now apply (Hno _ _ E2 B2) in Hex |].
    apply Exists_cons in Hex as [Hex | Hex]; [now apply (Hno _ _ E3 B3) in Hex |].
    now apply Exists_nil in Hex. }
  destruct (truthy_opt (robots_content r3)) eqn:T3.
  - split; [cbn; rewrite Hb2; cbn; now rewrite <- !app_assoc |].
    intros l Hl Hex. contradiction.
  - split; [cbn; rewrite Hb2; cbn; now rewrite <- !app_assoc |].
    intros l Hl Hex. contradiction.
Qed.

Lemma robots_fetches_app evs1 evs2 :
  robots_fetches (evs1 ++ evs2) = (robots_fetches evs1 ++ robots_fetches evs2)%list.
Proof. apply omap_app. Qed.

Lemma robots_fetches_map urls : robots_fetches (List.map EvRobotsFetch urls) = urls.
Proof.
  unfold robots_fetches. induction urls as [|u urls IH]; [reflexivity |].
  cbn. f_equal. exact IH.
Qed.

Lemma robots_fetches_none evs :
  Forall (fun e => match e with EvRobotsFetch _ => False | _ => True end) evs ->
  robots_fetches evs = [].
Proof.
  induction 1 as [|e evs He _ IH]; [reflexivity |].
  destruct e; try contradiction; exact IH.
Qed.

(** X24.  On a Pages site whose documentation is not cached,
    [fetchDocumentation] fetches at least one and at most three URLs under
    the robots.txt check, in the order [llms.txt], landing page,
    [README.md], all under the base URL of the site.  If one of them is
    closed to robots the result is the restriction notice, never content of
    the site. *)
Theorem fetchDocumentation_pages_respects_robots P repoData env w :
  urlType repoData = subdomain ->
  check_cache repoData w = (Ok None, w) ->
  let base := pages_base repoData in
  exists evs,
    trace (snd (fetchDocumentation P repoData env w)) = (trace w ++ evs)%list
    /\ robots_fetches evs `prefix_of` [base +:+ "llms.txt"; base; base +:+ "README.md"]
    /\ robots_fetches evs <> []
    /\ forall res,
         fst (fetchDocumentation P repoData env w) = Ok res ->
         Exists (blocked_at P) (robots_fetches evs) ->
         res = robots_notice.
Proof.
  intros Hu Hmiss. cbv zeta.
  destruct (resolve_subdomain_run P repoData w) as (urls & Hpre & Hne & Htr & Hres).
  assert (Hc : cascade P repoData env w
               = resolve_subdomain P (namespace repoData) (project repoData) locals_init w)
    by (unfold cascade; now rewrite Hu).
  rewrite <- Hc in Htr, Hres.
  set (Qn := fun e => match e with EvRobotsFetch _ => False | _ => True end).
  destruct (cascade P repoData env w) as [[l|err] wc] eqn:Hcas; cbn [fst snd] in *.
  2: { exists (List.map EvRobotsFetch urls).
       unfold fetchDocumentation. cbv zeta.
       rewrite (bind_ok _ _ _ _ _ Hmiss), (bind_throw _ _ _ _ _ Hcas). cbn [fst snd].
       rewrite robots_fetches_map. split; [exact Htr |]. split; [exact Hpre |].
       split; [exact Hne | discriminate]. }
  destruct (fetchDocumentation_miss P repoData env w l wc Hmiss Hcas) as (w2 & _ & E).
  revert E. unfold fetchDocumentation. cbv zeta.
  rewrite (bind_ok _ _ _ _ _ Hmiss), (bind_ok _ _ _ _ _ Hcas).
  match goal with
  | |- ?m wc = _ -> _ => set (rest := m)
  end.
  intros E.
  assert (Hem : emits Qn rest).
  { unfold rest, enqueueDocumentationProcessing.
    assert (Hput : forall n p r t, emits Qn (cacheFetchDocResult n p r t)).
    { intros n p r t w0. exists [EvContentCachePut n p r t].
      split; [reflexivity | now repeat constructor]. }
    emits_tac; apply emits_emit; exact I. }
  destruct (Hem wc) as (evs2 & Et2 & F2).
  exists (List.map EvRobotsFetch urls ++ evs2)%list.
  rewrite robots_fetches_app, robots_fetches_map, (robots_fetches_none _ F2), app_nil_r.
  split; [rewrite Et2, Htr; now rewrite <- app_assoc |].
  split; [exact Hpre |]. split; [exact Hne |].
  intros res Hr Hex. destruct (Hres l eq_refl Hex) as (Hf & Hcn & Ht).
  rewrite E, Ht in Hr. cbv zeta in Hr. cbn [fst] in Hr. inversion Hr; subst res.
  unfold text_result. now rewrite Hf, Hcn.
Qed.

Lemma fetchDocumentation_pages_respects_robots_witness :
  exists evs,
    trace (snd (fetchDocumentation closed_pages pages_site sample_env world_init))
    = (trace world_init ++ evs)%list
    /\ robots_fetches evs
       `prefix_of` [pages_base pages_site +:+ "llms.txt"; pages_base pages_site;
                    pages_base pages_site +:+ "README.md"]
    /\ robots_fetches evs <> []
    /\ forall res,
         fst (fetchDocumentation closed_pages pages_site sample_env world_init) = Ok res ->
         Exists (blocked_at closed_pages) (robots_fetches evs) ->
         res = robots_notice.
Proof.
  exact (fetchDocumentation_pages_respects_robots closed_pages pages_site sample_env
           world_init eq_refl eq_refl).
Defined.

(** On that site the landing page is the second URL, and the notice is what
    comes back. *)
Example fetchDocumentation_closed_pages :
  fst (fetchDocumentation closed_pages pages_site sample_env world_init) = Ok robots_notice
  /\ robots_fetches (trace (snd (fetchDocumentation closed_pages pages_site sample_env
                                   world_init)))
     = ["https://acme.gitlab.io/widgets/llms.txt"; "https://acme.gitlab.io/widgets/"].
Proof. split; vm_compute; reflexivity. Qed.

(** ** A file at a static path ends the cascade *)

Lemma asks_nothing_spec evs :
  Forall asks_nothing evs ->
  fetched evs = [] /\ r2_reads evs = [] /\ path_writes evs = [] /\ robots_fetches evs = [].
Proof.
  induction 1 as [|e evs He _ (IH1 & IH2 & IH3 & IH4)]; [now repeat split |].
  destruct e; try contradiction; now repeat split.
Qed.

(** X25.  When the probe of the static paths selects a file that is not
    empty, the cascade ends there: [fetchDocumentation] returns that content
    under the name [llms.txt], and after the probe it sends no request,
    reads no bucket and writes no path. *)
Theorem fetchDocumentation_static_hit
    P namespace project host env w docsBranch w1 results w2 mainResult :
  truthy namespace = true ->
  truthy project = true ->
  check_cache (gitlab_repo namespace project host) w = (Ok None, w) ->
  getRepoBranch P namespace project env w = (Ok docsBranch, w1) ->
  static_probe P namespace project docsBranch env w1 = (Ok results, w2) ->
  select_static possibleLocations results = Some mainResult ->
  truthy_opt (probe_content mainResult) = true ->
  fst (fetchDocumentation P (gitlab_repo namespace project host) env w)
  = Ok (text_result "llms.txt" (default "" (probe_content mainResult)))
  /\ exists evs,
       trace (snd (fetchDocumentation P (gitlab_repo namespace project host) env w))
       = (trace w2 ++ evs)%list
       /\ fetched evs = [] /\ r2_reads evs = [] /\ path_writes evs = [].
Proof.
  intros Tn Tp Hmiss Hb Hs Hsel Tc.
  set (repoData := gitlab_repo namespace project host).
  set (l := set_docsPath
              (Some (constructGitlabUrl namespace project (probe_branch mainResult)
                       (probe_location mainResult) env))
              (set_found (probe_content mainResult) "llms.txt"
                 (set_docsBranch docsBranch locals_init))).
  assert (Hcas : cascade P repoData env w = (Ok l, w2)).
  { change (cascade P repoData env w)
      with ((if truthy namespace && truthy project
             then resolve_gitlab P namespace project env locals_init
             else ret locals_init) w).
    rewrite Tn, Tp. cbn [andb].
    unfold resolve_gitlab. rewrite (bind_ok _ _ _ _ _ Hb). cbv zeta.
    rewrite (bind_ok _ _ _ _ _ Hs). unfold apply_static. rewrite Hsel. fold l.
    assert (Hl : truthy_opt (l_content l) = true) by exact Tc.
    unfold search_fallback. rewrite Hl. cbn [negb].
    rewrite (bind_ok _ _ _ _ _ (eq_refl : ret l w2 = (Ok l, w2))).
    unfold r2_fallback. rewrite Hl. cbn [negb].
    rewrite (bind_ok _ _ _ _ _ (eq_refl : ret l w2 = (Ok l, w2))).
    unfold readme_fallback. now rewrite Hl. }
  destruct (fetchDocumentation_miss P repoData env w l w2 Hmiss Hcas) as (w3 & _ & E).
  assert (Hl : truthy_opt (l_content l) = true) by exact Tc.
  split; [rewrite E, Hl; reflexivity |].
  revert E. unfold fetchDocumentation. cbv zeta.
  rewrite (bind_ok _ _ _ _ _ Hmiss), (bind_ok _ _ _ _ _ Hcas).
  match goal with
  | |- ?m w2 = _ -> _ => set (rest := m)
  end.
  intros _.
  assert (Hem : emits asks_nothing rest).
  { unfold rest, enqueueDocumentationProcessing.
    assert (Hput : forall n p r t, emits asks_nothing (cacheFetchDocResult n p r t)).
    { intros n p r t w0. exists [EvContentCachePut n p r t].
      split; [reflexivity | now repeat constructor]. }
    emits_tac; apply emits_emit; exact I. }
  destruct (Hem w2) as (evs & Et & F). exists evs. split; [exact Et |].
  destruct (asks_nothing_spec evs F) as (H1 & H2 & H3 & _). now repeat split.
Qed.

Lemma fetchDocumentation_static_hit_witness :
  fst (fetchDocumentation documented (gitlab_repo "acme" "widgets" "gitmcp.io") sample_env
         world_init)
  = Ok (text_result "llms.txt" "# Widgets")
  /\ exists evs,
       trace (snd (fetchDocumentation documented (gitlab_repo "acme" "widgets" "gitmcp.io")
                     sample_env world_init))
       = (trace (snd (static_probe documented "acme" "widgets" "main" sample_env
                        (snd (getRepoBranch documented "acme" "widgets" sample_env
                                world_init)))) ++ evs)%list
       /\ fetched evs = [] /\ r2_reads evs = [] /\ path_writes evs = [].
Proof.
  apply (fetchDocumentation_static_hit documented "acme" "widgets" "gitmcp.io" sample_env
           world_init "main"
           (snd (getRepoBranch documented "acme" "widgets" sample_env world_init))
           [ {| probe_content := None; probe_location := "docs/docs/llms.txt";
                probe_branch := "main" |};
             {| probe_content := Some "# Widgets"; probe_location := "llms.txt";
                probe_branch := "main" |};
             {| probe_content := None; probe_location := "docs/llms.txt";
                probe_branch := "main" |} ]
           (snd (static_probe documented "acme" "widgets" "main" sample_env
                   (snd (getRepoBranch documented "acme" "widgets" sample_env world_init))))
           {| probe_content := Some "# Widgets"; probe_location := "llms.txt";
              probe_branch := "main" |});
    vm_compute; reflexivity.
Defined.

(** ** What a resolution sends out *)

Lemma emits_fetchDocumentation Q P repoData env :
  emits Q (cascade P repoData env) ->
  (forall msg, Q (EvQueueSend msg)) ->
  (forall n p r t, Q (EvContentCachePut n p r t)) ->
  emits Q (fetchDocumentation P repoData env).
Proof.
  intros Hcas Hq Hc. unfold fetchDocumentation. cbv zeta.
  apply emits_bind; [apply emits_check_cache |].
  intros [cached|]; [apply emits_ret |].
  apply emits_bind; [exact Hcas |]. intros l.
  unfold enqueueDocumentationProcessing.
  assert (Hput : forall n p r t, emits Q (cacheFetchDocResult n p r t)).
  { intros n p r t w0. exists [EvContentCachePut n p r t].
    split; [reflexivity | repeat constructor; apply Hc]. }
  emits_tac; apply emits_emit; apply Hq.
Qed.

Lemma emits_cascade_of_branch P repoData env :
  emits (of_branch (urlType repoData)) (cascade P repoData env).
Proof.
  unfold cascade. destruct (urlType repoData).
  - apply emits_resolve_subdomain. reflexivity.
  - destruct (_ && _); [| apply emits_ret].
    apply emits_resolve_gitlab; try (intros; exact I).
    + split; intros; exact I.
    + reflexivity.
  - apply emits_ret.
Qed.

(** After the cascade a resolution only enqueues and caches. *)
Lemma fetchDocumentation_after_cascade P repoData env w :
  trace (snd (fetchDocumentation P repoData env w)) = trace w
  \/ exists evs2,
       Forall after_cascade evs2
       /\ trace (snd (fetchDocumentation P repoData env w))
          = (trace (snd (cascade P repoData env w)) ++ evs2)%list.
Proof.
  destruct (check_cache_cases repoData w) as [[r Hhit] | Hmiss].
  { left. unfold fetchDocumentation. cbv zeta. now rewrite (bind_ok _ _ _ _ _ Hhit). }
  right. unfold fetchDocumentation. cbv zeta. rewrite (bind_ok _ _ _ _ _ Hmiss).
  destruct (cascade P repoData env w) as [[l|err] wc] eqn:Hcas.
  2: { exists []. split; [constructor |].
       rewrite (bind_throw _ _ _ _ _ Hcas). cbn. now rewrite app_nil_r. }
  rewrite (bind_ok _ _ _ _ _ Hcas). cbn [snd].
  match goal with
  | |- exists evs2, _ /\ trace (snd (?m wc)) = _ => set (rest := m)
  end.
  assert (Hem : emits after_cascade rest).
  { unfold rest, enqueueDocumentationProcessing.
    assert (Hput : forall n p r t, emits after_cascade (cacheFetchDocResult n p r t)).
    { intros n p r t w0. exists [EvContentCachePut n p r t].
      split; [reflexivity | now repeat constructor]. }
    emits_tac; apply emits_emit; exact I. }
  destruct (Hem wc) as (evs2 & E2 & F2). now exists evs2.
Qed.

Lemma robots_fetches_after_cascade evs :
  Forall after_cascade evs -> robots_fetches evs = [].
Proof.
  intros H. apply robots_fetches_none. eapply Forall_impl; [exact H |].
  intros e He. now destruct e.
Qed.

(** X4.  What one resolution sends out.  Through the governed client it
    makes at most 40 requests, whatever the network answers (at most 12 for
    the branch, 12 for the three static paths, 8 for each of the two
    searches), and none outside the GitLab branch.  Through the
    robots-checked helper it fetches at most three URLs, and none outside
    the Pages branch. *)
Theorem fetchDocumentation_request_bound P repoData env w :
  let w' := snd (fetchDocumentation P repoData env w) in
  exists evs,
    trace w' = (trace w ++ evs)%list
    /\ (fetches w <= fetches w' <= fetches w + 40)%nat
    /\ (length (robots_fetches evs) <= 3)%nat
    /\ (urlType repoData <> gitlab -> fetches w' = fetches w /\ fetched evs = [])
    /\ (urlType repoData <> subdomain -> robots_fetches evs = []).
Proof.
  cbv zeta.
  destruct (emits_fetchDocumentation (of_branch (urlType repoData)) P repoData env
              (emits_cascade_of_branch P repoData env) (fun _ => I) (fun _ _ _ _ => I) w)
    as (evs & Et & F).
  assert (Hnr : urlType repoData <> subdomain -> robots_fetches evs = []).
  { intros Hu. apply robots_fetches_none. eapply Forall_impl; [exact F |].
    intros e He. destruct e; try exact I. exact (Hu He). }
  assert (Hnf : urlType repoData <> gitlab -> fetched evs = []).
  { intros Hu. clear Et Hnr. induction F as [| e evs He _ IH]; [reflexivity |].
    destruct e; cbn in *; try exact IH. contradiction. }
  destruct (within_cascade P repoData env) as [H40 H0].
  exists evs. split; [exact Et |].
  split; [apply (within_fetchDocumentation P repoData env 40 H40 w) |].
  split; [| split; [| exact Hnr]].
  - destruct (urlType repoData) eqn:Hu.
    2, 3: (rewrite Hnr by discriminate; cbn; lia).
    destruct (fetchDocumentation_after_cascade P repoData env w) as [E | (evs2 & F2 & E)].
    + rewrite E in Et. rewrite <- (app_nil_r (trace w)) in Et at 1.
      apply app_inv_head in Et. subst evs. cbn. lia.
    + destruct (resolve_subdomain_run P repoData w) as (urls & Hpre & _ & Htr & _).
      assert (Hc : cascade P repoData env w
                   = resolve_subdomain P (namespace repoData) (project repoData)
                       locals_init w)
        by (unfold cascade; now rewrite Hu).
      rewrite <- Hc in Htr. rewrite E, Htr, <- app_assoc in Et.
      apply app_inv_head in Et. subst evs.
      rewrite robots_fetches_app, robots_fetches_map,
        (robots_fetches_after_cascade _ F2), app_nil_r.
      apply prefix_length in Hpre. cbn in Hpre. exact Hpre.
  - intros Hu. split; [| exact (Hnf Hu)].
    pose proof (within_fetchDocumentation P repoData env 0 (H0 Hu) w). lia.
Qed.
